(** * Minion Masters analyzer: tracking core

    A shallow embedding of the detection-and-tracking core of the analyzer
    ([minion.py], [detector.py], [utils.py], [config.py]) together with the
    properties stated about it.

    Modelling conventions.
    - A Python float is the rational it denotes ([Q]).  [double] rounds a
      rational to the nearest IEEE 754 double (ties to even, exponent range
      unbounded); it is applied where a truncation or a threshold reads the
      rounded value: the pixel conversions, the interpolation and the
      validation lifetime.  Constants written in decimal there are the
      doubles nearest to them.  The other arithmetic (distances, speeds,
      predictions) is the exact one.
    - Python exceptions are explicit: a computation that may raise returns a
      [result]; [IndexError], [ZeroDivisionError], [KeyError] and
      [cv2.error] are the exceptions the modelled code can reach.
    - [numpy.hypot], [cv2.calcHist] and [cv2.compareHist] are capabilities
      the code calls into; they are parameters of the development.
    - The detector's [Dict[int, Minion]] is an association list in insertion
      order (the order Python iterates it in). *)

From Stdlib Require Import String ZArith QArith Qabs Qround List Bool Lia Lqa.
Import ListNotations.

Open Scope Q_scope.

(** ** Python primitives *)

Inductive PyErr : Type :=
  IndexError | ZeroDivisionError | KeyError | cv2_error.

Inductive result (A : Type) : Type :=
| Ok (a : A)
| Raise (e : PyErr).

Arguments Ok {A} a.
Arguments Raise {A} e.

Definition bind {A B : Type} (r : result A) (k : A -> result B) : result B :=
  match r with
  | Ok a => k a
  | Raise e => Raise e
  end.

Notation "x <- c ;; k" := (bind c (fun x => k))
  (at level 61, c at next level, right associativity).
Notation "' p <- c ;; k" := (bind c (fun p => k))
  (at level 61, p pattern, c at next level, right associativity).

(** Strict comparison on floats, [x < y]. *)
Definition Qltb (x y : Q) : bool := negb (Qle_bool y x).

(** [max(a, b)] and [min(a, b)]: the first argument wins a tie. *)
Definition py_max (a b : Q) : Q := if Qltb a b then b else a.
Definition py_min (a b : Q) : Q := if Qltb b a then b else a.

(** True division [a / b]. *)
Definition py_div (a b : Q) : result Q :=
  if Qeq_bool b 0 then Raise ZeroDivisionError else Ok (a / b).

(** [int(x)] on a float: truncation toward zero. *)
Definition py_int (x : Q) : Z := Z.quot (Qnum x) (Zpos (Qden x)).

(** [l[i]] with a possibly negative index. *)
Definition py_index {A : Type} (l : list A) (i : Z) : result A :=
  let n := Z.of_nat (length l) in
  let j := if (i <? 0)%Z then (i + n)%Z else i in
  if ((0 <=? j) && (j <? n))%Z then
    match nth_error l (Z.to_nat j) with
    | Some x => Ok x
    | None => Raise IndexError
    end
  else Raise IndexError.

(** [l[-k:]] for a positive [k]: the last [k] elements. *)
Definition slice_last {A : Type} (k : nat) (l : list A) : list A :=
  skipn (length l - k) l.

(** [deque(maxlen=n).append(x)]: append on the right, drop on the left what
    exceeds the capacity. *)
Definition deque_append {A : Type} (maxlen : nat) (d : list A) (x : A) : list A :=
  let d' := d ++ [x] in skipn (length d' - maxlen) d'.

(** [enumerate(l)]. *)
Definition enumerate {A : Type} (l : list A) : list (Z * A) :=
  combine (map Z.of_nat (seq 0 (length l))) l.

(** [numpy.arange(start, stop, step)] for a positive step. *)
Definition np_arange (start stop step : Q) : list Q :=
  map (fun i => start + inject_Z (Z.of_nat i) * step)
      (seq 0 (Z.to_nat (Qceiling ((stop - start) / step)))).

(** [i in s] and [s.add(i)] on a [Set[int]]. *)
Definition set_in (i : Z) (s : list Z) : bool := existsb (Z.eqb i) s.
Definition set_add (i : Z) (s : list Z) : list Z :=
  if set_in i s then s else i :: s.

(** ** IEEE 754 doubles *)

(** The integer nearest to [n / d], ties to even, for [d > 0]. *)
Definition round_half_even (n d : Z) : Z :=
  let q := (n / d)%Z in
  let r := (n mod d)%Z in
  match (2 * r ?= d)%Z with
  | Lt => q
  | Gt => (q + 1)%Z
  | Eq => if Z.even q then q else (q + 1)%Z
  end.

(** [n / d] times [2 ^ s], as a fraction, and [r / 2 ^ s]. *)
Definition scale2 (n d s : Z) : Z * Z :=
  if (0 <=? s)%Z then (n * 2 ^ s, d)%Z else (n, d * 2 ^ (- s))%Z.

Definition unscale2 (r s : Z) : Q :=
  if (0 <=? s)%Z then inject_Z r / inject_Z (2 ^ s)
  else inject_Z (r * 2 ^ (- s)).

(** The double nearest to [n / d], for [n, d > 0]: the binary logarithms
    place [n / d * 2 ^ (53 - e)] between [2 ^ 52] and [2 ^ 54]; the scale [s]
    brings it between [2 ^ 52] and [2 ^ 53], where it is rounded to an
    integer of 53 bits. *)
Definition double_pos (n d : Z) : Q :=
  let e := (Z.log2 n - Z.log2 d)%Z in
  let s := if (fst (scale2 n d (53 - e)) <? 2 ^ 53 * snd (scale2 n d (53 - e)))%Z
           then (53 - e)%Z else (52 - e)%Z in
  unscale2 (round_half_even (fst (scale2 n d s)) (snd (scale2 n d s))) s.

Definition double (x : Q) : Q :=
  match Qnum (Qred x) with
  | Z0 => 0
  | Zpos n => Qred (double_pos (Zpos n) (Zpos (Qden (Qred x))))
  | Zneg n => Qred (- double_pos (Zpos n) (Zpos (Qden (Qred x))))
  end.


(** Half the distance between 1 and the next double. *)
Definition unit_roundoff : Q := 1 # (2 ^ 53).

(** Float addition, subtraction, multiplication and true division, and the
    conversion of an [int]. *)
Definition fadd (x y : Q) : Q := double (x + y).
Definition fsub (x y : Q) : Q := double (x - y).
Definition fmul (x y : Q) : Q := double (x * y).
Definition fdiv (x y : Q) : result Q :=
  if Qeq_bool y 0 then Raise ZeroDivisionError else Ok (double (x / y)).
Definition float_of_int (z : Z) : Q := double (inject_Z z).

(** ** config.py *)

Module config.
Definition MONITOR_width : Z := 1920.
Definition MONITOR_height : Z := 1080.
Definition PLAYER_SIDE : string := "left".
Definition DEFENSIVE_POSITIONS_RATIOS : list (Q * Q) :=
  [(double 0.1021, double 0.412); (double 0.1432, double 0.1731)].
Definition MOVEMENT_MEMORY : Q := 5.
Definition REID_TOLERANCE : Q := 80.
Definition REID_MAX_TIME : Q := 10.
Definition HIST_SIMILARITY_THRESHOLD : Q := 3 # 10.
Definition MIN_LIFETIME : Q := double 0.8.
Definition MIN_DISTANCE_TRAVELED : Q := 40.
Definition MASS_SPAWN_THRESHOLD : nat := 20.
Definition STATIONARY_THRESHOLD : Q := 10.
Definition PREDICTION_TIME : Q := 5.
Definition PREDICTION_TOLERANCE : Q := 120.
Definition MIN_POINTS_FOR_PREDICTION : nat := 5.
End config.

(** ** utils.py *)

Definition ratio_to_pixels (ratio_list : list (Q * Q)) (frame_width frame_height : Z)
  : list (Z * Z) :=
  map (fun '(rx, ry) => (py_int (fmul rx (float_of_int frame_width)),
                         py_int (fmul ry (float_of_int frame_height))))
      ratio_list.

Fixpoint pixels_to_ratio (pixel_list : list (Z * Z)) (frame_width frame_height : Z)
  : result (list (Q * Q)) :=
  match pixel_list with
  | [] => Ok []
  | (x, y) :: rest =>
      rx <- fdiv (inject_Z x) (inject_Z frame_width) ;;
      ry <- fdiv (inject_Z y) (inject_Z frame_height) ;;
      rest' <- pixels_to_ratio rest frame_width frame_height ;;
      Ok ((rx, ry) :: rest')
  end.

Definition Point : Type := (Q * Q)%type.

(** ** minion.py *)

(** The dictionary [get_strategy_info] returns. *)
Module StrategyInfo.
Record t : Type := mk {
  likely_enemy : bool;
  direction : string;
  optimal_bridge : string;
  current_side : string;
  velocity : Point;
  predicted_positions : list (Q * Q * Q)
}.
End StrategyInfo.

(** The numeric and image back end the tracker calls into.  [shape frame] is
    [frame.shape[:2]], height first; the mask of a frame has the frame's
    shape.  [calcHist frame mask (x1, y1, x2, y2)] is the normalised HSV
    histogram of the region [frame[y1:y2, x1:x2]] under the mask
    ([cv2.cvtColor], [cv2.calcHist], [cv2.normalize]), a float32 array;
    [compareHist] is [cv2.compareHist(_, _, cv2.HISTCMP_CORREL)] on two such
    arrays, and [hypot] is [numpy.hypot]. *)
Class Backend : Type := {
  Frame : Type;
  Mask : Type;
  Histogram : Type;
  shape : Frame -> Z * Z;
  calcHist : Frame -> Mask -> Z * Z * Z * Z -> Histogram;
  compareHist : Histogram -> Histogram -> Q;
  hypot : Q -> Q -> Q
}.

Section Tracking.

Context {backend : Backend}.

(** What [Minion.compute_hist] returns: the float64 array
    [np.zeros((30, 32))] of a degenerate region, or a float32 histogram. *)
Inductive Hist : Type :=
| zeros
| float32 (h : Histogram).

(** [Minion.compute_hist]; it does not read [self]. *)
Definition compute_hist (frame : Frame) (mask : Mask) (position : Point) : Hist :=
  let x := py_int (fst position) in
  let y := py_int (snd position) in
  let size := 25%Z in
  let x1 := Z.max 0 (x - size) in
  let y1 := Z.max 0 (y - size) in
  let x2 := Z.min (snd (shape frame)) (x + size) in
  let y2 := Z.min (fst (shape frame)) (y + size) in
  if (x2 <=? x1)%Z || (y2 <=? y1)%Z then zeros
  else if ((y2 - y1) * (x2 - x1) =? 0)%Z then zeros
  else float32 (calcHist frame mask (x1, y1, x2, y2)).

Record Minion : Type := mkMinion {
  id : Z;
  positions : list Point;
  timestamps : list Q;
  creation_time : Q;
  last_seen : Q;
  active : bool;
  hist : Hist;
  spawn_side : string;
  current_side : string;
  general_direction : string;
  optimal_bridge : string;
  frame_width : Z;
  frame_height : Z;
  total_distance_traveled : Q;
  original_classification : option bool;
  is_valid_minion : bool;
  consecutive_stationary_frames : Z;
  max_speed : Q;
  predicted_positions : list (Q * Q * Q);
  velocity : Point;
  acceleration : Point
}.

Definition set_positions (v : list Point) (self : Minion) : Minion :=
  mkMinion (id self) v (timestamps self) (creation_time self)
    (last_seen self) (active self) (hist self) (spawn_side self)
    (current_side self) (general_direction self) (optimal_bridge self)
    (frame_width self) (frame_height self) (total_distance_traveled self)
    (original_classification self) (is_valid_minion self)
    (consecutive_stationary_frames self) (max_speed self)
    (predicted_positions self) (velocity self) (acceleration self).

Definition set_timestamps (v : list Q) (self : Minion) : Minion :=
  mkMinion (id self) (positions self) v (creation_time self)
    (last_seen self) (active self) (hist self) (spawn_side self)
    (current_side self) (general_direction self) (optimal_bridge self)
    (frame_width self) (frame_height self) (total_distance_traveled self)
    (original_classification self) (is_valid_minion self)
    (consecutive_stationary_frames self) (max_speed self)
    (predicted_positions self) (velocity self) (acceleration self).

Definition set_last_seen (v : Q) (self : Minion) : Minion :=
  mkMinion (id self) (positions self) (timestamps self) (creation_time self)
    v (active self) (hist self) (spawn_side self) (current_side self)
    (general_direction self) (optimal_bridge self) (frame_width self)
    (frame_height self) (total_distance_traveled self)
    (original_classification self) (is_valid_minion self)
    (consecutive_stationary_frames self) (max_speed self)
    (predicted_positions self) (velocity self) (acceleration self).

Definition set_active (v : bool) (self : Minion) : Minion :=
  mkMinion (id self) (positions self) (timestamps self) (creation_time self)
    (last_seen self) v (hist self) (spawn_side self) (current_side self)
    (general_direction self) (optimal_bridge self) (frame_width self)
    (frame_height self) (total_distance_traveled self)
    (original_classification self) (is_valid_minion self)
    (consecutive_stationary_frames self) (max_speed self)
    (predicted_positions self) (velocity self) (acceleration self).

Definition set_hist (v : Hist) (self : Minion) : Minion :=
  mkMinion (id self) (positions self) (timestamps self) (creation_time self)
    (last_seen self) (active self) v (spawn_side self) (current_side self)
    (general_direction self) (optimal_bridge self) (frame_width self)
    (frame_height self) (total_distance_traveled self)
    (original_classification self) (is_valid_minion self)
    (consecutive_stationary_frames self) (max_speed self)
    (predicted_positions self) (velocity self) (acceleration self).

Definition set_current_side (v : string) (self : Minion) : Minion :=
  mkMinion (id self) (positions self) (timestamps self) (creation_time self)
    (last_seen self) (active self) (hist self) (spawn_side self) v
    (general_direction self) (optimal_bridge self) (frame_width self)
    (frame_height self) (total_distance_traveled self)
    (original_classification self) (is_valid_minion self)
    (consecutive_stationary_frames self) (max_speed self)
    (predicted_positions self) (velocity self) (acceleration self).

Definition set_general_direction (v : string) (self : Minion) : Minion :=
  mkMinion (id self) (positions self) (timestamps self) (creation_time self)
    (last_seen self) (active self) (hist self) (spawn_side self)
    (current_side self) v (optimal_bridge self) (frame_width self)
    (frame_height self) (total_distance_traveled self)
    (original_classification self) (is_valid_minion self)
    (consecutive_stationary_frames self) (max_speed self)
    (predicted_positions self) (velocity self) (acceleration self).

Definition set_optimal_bridge (v : string) (self : Minion) : Minion :=
  mkMinion (id self) (positions self) (timestamps self) (creation_time self)
    (last_seen self) (active self) (hist self) (spawn_side self)
    (current_side self) (general_direction self) v (frame_width self)
    (frame_height self) (total_distance_traveled self)
    (original_classification self) (is_valid_minion self)
    (consecutive_stationary_frames self) (max_speed self)
    (predicted_positions self) (velocity self) (acceleration self).

Definition set_total_distance_traveled (v : Q) (self : Minion) : Minion :=
  mkMinion (id self) (positions self) (timestamps self) (creation_time self)
    (last_seen self) (active self) (hist self) (spawn_side self)
    (current_side self) (general_direction self) (optimal_bridge self)
    (frame_width self) (frame_height self) v (original_classification self)
    (is_valid_minion self) (consecutive_stationary_frames self)
    (max_speed self) (predicted_positions self) (velocity self)
    (acceleration self).

Definition set_original_classification (v : option bool) (self : Minion) : Minion :=
  mkMinion (id self) (positions self) (timestamps self) (creation_time self)
    (last_seen self) (active self) (hist self) (spawn_side self)
    (current_side self) (general_direction self) (optimal_bridge self)
    (frame_width self) (frame_height self) (total_distance_traveled self) v
    (is_valid_minion self) (consecutive_stationary_frames self)
    (max_speed self) (predicted_positions self) (velocity self)
    (acceleration self).

Definition set_is_valid_minion (v : bool) (self : Minion) : Minion :=
  mkMinion (id self) (positions self) (timestamps self) (creation_time self)
    (last_seen self) (active self) (hist self) (spawn_side self)
    (current_side self) (general_direction self) (optimal_bridge self)
    (frame_width self) (frame_height self) (total_distance_traveled self)
    (original_classification self) v (consecutive_stationary_frames self)
    (max_speed self) (predicted_positions self) (velocity self)
    (acceleration self).

Definition set_consecutive_stationary_frames (v : Z) (self : Minion) : Minion :=
  mkMinion (id self) (positions self) (timestamps self) (creation_time self)
    (last_seen self) (active self) (hist self) (spawn_side self)
    (current_side self) (general_direction self) (optimal_bridge self)
    (frame_width self) (frame_height self) (total_distance_traveled self)
    (original_classification self) (is_valid_minion self) v (max_speed self)
    (predicted_positions self) (velocity self) (acceleration self).

Definition set_max_speed (v : Q) (self : Minion) : Minion :=
  mkMinion (id self) (positions self) (timestamps self) (creation_time self)
    (last_seen self) (active self) (hist self) (spawn_side self)
    (current_side self) (general_direction self) (optimal_bridge self)
    (frame_width self) (frame_height self) (total_distance_traveled self)
    (original_classification self) (is_valid_minion self)
    (consecutive_stationary_frames self) v (predicted_positions self)
    (velocity self) (acceleration self).

Definition set_predicted_positions (v : list (Q * Q * Q)) (self : Minion) : Minion :=
  mkMinion (id self) (positions self) (timestamps self) (creation_time self)
    (last_seen self) (active self) (hist self) (spawn_side self)
    (current_side self) (general_direction self) (optimal_bridge self)
    (frame_width self) (frame_height self) (total_distance_traveled self)
    (original_classification self) (is_valid_minion self)
    (consecutive_stationary_frames self) (max_speed self) v (velocity self)
    (acceleration self).

Definition set_velocity (v : Point) (self : Minion) : Minion :=
  mkMinion (id self) (positions self) (timestamps self) (creation_time self)
    (last_seen self) (active self) (hist self) (spawn_side self)
    (current_side self) (general_direction self) (optimal_bridge self)
    (frame_width self) (frame_height self) (total_distance_traveled self)
    (original_classification self) (is_valid_minion self)
    (consecutive_stationary_frames self) (max_speed self)
    (predicted_positions self) v (acceleration self).

Definition set_acceleration (v : Point) (self : Minion) : Minion :=
  mkMinion (id self) (positions self) (timestamps self) (creation_time self)
    (last_seen self) (active self) (hist self) (spawn_side self)
    (current_side self) (general_direction self) (optimal_bridge self)
    (frame_width self) (frame_height self) (total_distance_traveled self)
    (original_classification self) (is_valid_minion self)
    (consecutive_stationary_frames self) (max_speed self)
    (predicted_positions self) (velocity self) v.

(** [Minion.__init__]. *)
Definition Minion_init (id : Z) (position : Point) (frame : Frame) (mask : Mask)
  (frame_width frame_height : Z) (timestamp : Q) : Minion :=
  {| id := id;
     positions := deque_append 80 [] position;
     timestamps := deque_append 80 [] timestamp;
     creation_time := timestamp;
     last_seen := timestamp;
     active := true;
     hist := compute_hist frame mask position;
     spawn_side := if Qltb (fst position) (inject_Z frame_width / 2)
                   then "left" else "right";
     current_side := if Qltb (fst position) (inject_Z frame_width / 2)
                     then "left" else "right";
     general_direction := "unknown";
     optimal_bridge := "unknown";
     frame_width := frame_width;
     frame_height := frame_height;
     total_distance_traveled := 0;
     original_classification := None;
     is_valid_minion := false;
     consecutive_stationary_frames := 0;
     max_speed := 0;
     predicted_positions := [];
     velocity := (0, 0);
     acceleration := (0, 0) |}.

(** One predicted sample of [calculate_prediction], for the offset [dt]. *)
Definition predicted_sample (self : Minion) (last_pos : Point) (current_time dt : Q)
  : Q * Q * Q :=
  let pred_x := fst last_pos + fst (velocity self) * dt
                + 0.5 * fst (acceleration self) * dt * dt in
  let pred_y := snd last_pos + snd (velocity self) * dt
                + 0.5 * snd (acceleration self) * dt * dt in
  let pred_x := py_max 0 (py_min (inject_Z (frame_width self)) pred_x) in
  let pred_y := py_max 0 (py_min (inject_Z (frame_height self)) pred_y) in
  (pred_x, pred_y, current_time + dt).

(** The velocity and acceleration estimate that opens [calculate_prediction]. *)
Definition estimate_kinematics (self : Minion)
  (recent_positions : list Point) (recent_timestamps : list Q) : result Minion :=
  if (3 <=? length recent_positions)%nat then
    t_last <- py_index recent_timestamps (-1) ;;
    t_first <- py_index recent_timestamps 0 ;;
    let time_span := t_last - t_first in
    if Qltb 0 time_span then
      p_last <- py_index recent_positions (-1) ;;
      p_first <- py_index recent_positions 0 ;;
      let dx := fst p_last - fst p_first in
      let dy := snd p_last - snd p_first in
      vx <- py_div dx time_span ;;
      vy <- py_div dy time_span ;;
      let self := set_velocity (vx, vy) self in
      if (6 <=? length recent_positions)%nat then
        let mid_idx := (Z.of_nat (length recent_positions) / 2)%Z in
        t_mid <- py_index recent_timestamps mid_idx ;;
        let time_span_1 := t_mid - t_first in
        let time_span_2 := t_last - t_mid in
        if Qltb 0 time_span_1 && Qltb 0 time_span_2 then
          p_mid <- py_index recent_positions mid_idx ;;
          vel1_x <- py_div (fst p_mid - fst p_first) time_span_1 ;;
          vel1_y <- py_div (snd p_mid - snd p_first) time_span_1 ;;
          vel2_x <- py_div (fst p_last - fst p_mid) time_span_2 ;;
          vel2_y <- py_div (snd p_last - snd p_mid) time_span_2 ;;
          accel_x <- py_div (vel2_x - vel1_x) time_span_2 ;;
          accel_y <- py_div (vel2_y - vel1_y) time_span_2 ;;
          Ok (set_acceleration (accel_x, accel_y) self)
        else Ok self
      else Ok self
    else Ok self
  else Ok self.

Definition calculate_prediction (self : Minion) (current_time : Q) : result Minion :=
  if (length (positions self) <? config.MIN_POINTS_FOR_PREDICTION)%nat then Ok self
  else
    let recent_positions := slice_last 10 (positions self) in
    let recent_timestamps := slice_last 10 (timestamps self) in
    self <- estimate_kinematics self recent_positions recent_timestamps ;;
    let self := set_predicted_positions [] self in
    if Qltb 1 (Qabs (fst (velocity self))) || Qltb 1 (Qabs (snd (velocity self)))
    then
      last_pos <- py_index (positions self) (-1) ;;
      Ok (set_predicted_positions
            (map (predicted_sample self last_pos current_time)
                 (np_arange 0.1 config.PREDICTION_TIME 0.1))
            self)
    else Ok self.

Definition get_predicted_position_at_time (self : Minion) (target_time : Q)
  : result (option Point) :=
  if match predicted_positions self with [] => true | _ :: _ => false end
     || (length (timestamps self) <? 2)%nat
  then
    if (0 <? length (positions self))%nat
    then p <- py_index (positions self) (-1) ;; Ok (Some p)
    else Ok None
  else
    last_pos <- py_index (positions self) (-1) ;;
    t_last <- py_index (timestamps self) (-1) ;;
    let dt := target_time - t_last in
    let pred_x := fst last_pos + fst (velocity self) * dt
                  + 0.5 * fst (acceleration self) * dt * dt in
    let pred_y := snd last_pos + snd (velocity self) * dt
                  + 0.5 * snd (acceleration self) * dt * dt in
    Ok (Some (pred_x, pred_y)).

Definition classify_as_enemy (self : Minion) : bool :=
  if String.eqb (general_direction self) "unknown" then false
  else if String.eqb config.PLAYER_SIDE "left"
       then String.eqb (general_direction self) "right"
       else String.eqb (general_direction self) "left".

Definition calculate_direction_and_bridge (self : Minion) : result Minion :=
  if (length (positions self) <? 5)%nat then Ok self
  else
    start_pos <- py_index (positions self) 0 ;;
    current_pos <- py_index (positions self) (-1) ;;
    let horizontal_movement := fst current_pos - fst start_pos in
    let self :=
      if Qltb 50 (Qabs horizontal_movement)
      then set_general_direction
             (if Qltb 0 horizontal_movement then "right" else "left")%string self
      else self in
    let self :=
      match original_classification self with
      | None =>
          if negb (String.eqb (general_direction self) "unknown")
          then set_original_classification (Some (classify_as_enemy self)) self
          else self
      | Some _ => self
      end in
    let self :=
      set_current_side
        (if Qltb (fst current_pos) (inject_Z (frame_width self) / 2)
         then "left" else "right")%string self in
    let current_y := snd current_pos in
    vertical_ratio <- py_div current_y (inject_Z (frame_height self)) ;;
    let vertical_trend := snd current_pos - snd start_pos in
    Ok (if Qltb vertical_ratio 0.35 then set_optimal_bridge "top" self
        else if Qltb 0.65 vertical_ratio then set_optimal_bridge "bottom" self
        else set_optimal_bridge
               (if Qle_bool vertical_trend 0 then "top" else "bottom")%string self).

Definition validate_as_minion (self : Minion) (current_time : Q) : Minion :=
  let lifetime := fsub current_time (creation_time self) in
  set_is_valid_minion
    (Qltb config.MIN_LIFETIME lifetime
     && Qltb config.MIN_DISTANCE_TRAVELED (total_distance_traveled self)
     && (consecutive_stationary_frames self <? 30)%Z
     && Qltb (max_speed self) 200)
    self.

Definition update_position (self : Minion) (position : Point) (frame : Frame)
  (mask : Mask) (timestamp : Q) : result Minion :=
  last_pos <- py_index (positions self) (-1) ;;
  let distance :=
    hypot (fst position - fst last_pos) (snd position - snd last_pos) in
  t_last <- py_index (timestamps self) (-1) ;;
  let time_diff := timestamp - t_last in
  self <-
    (if Qltb 0 time_diff then
       speed <- py_div distance time_diff ;;
       let self := set_max_speed (py_max (max_speed self) speed) self in
       Ok (if Qltb distance config.STATIONARY_THRESHOLD
           then set_consecutive_stationary_frames
                  (consecutive_stationary_frames self + 1)%Z self
           else set_consecutive_stationary_frames 0%Z self)
     else Ok self) ;;
  let self :=
    set_total_distance_traveled (total_distance_traveled self + distance) self in
  let self := set_positions (deque_append 80 (positions self) position) self in
  let self := set_timestamps (deque_append 80 (timestamps self) timestamp) self in
  let self := set_last_seen timestamp self in
  let self := set_active true self in
  let self := set_hist (compute_hist frame mask position) self in
  self <- calculate_direction_and_bridge self ;;
  calculate_prediction self timestamp.

(** [similarity]: neither histogram is ever [None]; [cv2.compareHist]
    accepts float32 arrays only and raises [cv2.error] on the float64 zeros
    of a degenerate region. *)
Definition similarity (self : Minion) (frame : Frame) (mask : Mask)
  (position : Point) : result Q :=
  let hist' := compute_hist frame mask position in
  match hist self, hist' with
  | float32 h1, float32 h2 => Ok (compareHist h1 h2)
  | _, _ => Raise cv2_error
  end.

Definition get_strategy_info (self : Minion) : option StrategyInfo.t :=
  if negb (is_valid_minion self) then None
  else
    let is_enemy :=
      match original_classification self with
      | Some c => c
      | None => classify_as_enemy self
      end in
    Some {| StrategyInfo.likely_enemy := is_enemy;
            StrategyInfo.direction := general_direction self;
            StrategyInfo.optimal_bridge := optimal_bridge self;
            StrategyInfo.current_side := current_side self;
            StrategyInfo.velocity := velocity self;
            StrategyInfo.predicted_positions := predicted_positions self |}.

(** ** detector.py *)

(** [d[k] = v] and [del d[k]] on a dictionary kept in insertion order. *)
Fixpoint dict_set {V : Type} (d : list (Z * V)) (k : Z) (v : V) : list (Z * V) :=
  match d with
  | [] => [(k, v)]
  | (k', v') :: rest =>
      if (k' =? k)%Z then (k, v) :: rest else (k', v') :: dict_set rest k v
  end.

Fixpoint dict_del {V : Type} (d : list (Z * V)) (k : Z) : result (list (Z * V)) :=
  match d with
  | [] => Raise KeyError
  | (k', v') :: rest =>
      if (k' =? k)%Z then Ok rest
      else rest' <- dict_del rest k ;; Ok ((k', v') :: rest')
  end.

(** The tracking state of [MinionDetector]: the registry and the identifier
    counter.  The frame size is [config.MONITOR], fixed at construction. *)
Record MinionDetector : Type := mkDetector {
  minions : list (Z * Minion);
  next_minion_id : Z
}.

Definition MinionDetector_init : MinionDetector :=
  {| minions := []; next_minion_id := 1 |}.

(** The distance of a detection to a track, after the prediction bonus. *)
Definition match_distance (minion : Minion) (x y current_time : Q) : result Q :=
  last_pos <- py_index (positions minion) (-1) ;;
  let distance := hypot (fst last_pos - x) (snd last_pos - y) in
  predicted_pos <- get_predicted_position_at_time minion current_time ;;
  Ok match predicted_pos with
     | Some p =>
         let pred_distance := hypot (fst p - x) (snd p - y) in
         if Qltb pred_distance config.PREDICTION_TOLERANCE
         then distance * 0.5 else distance
     | None => distance
     end.

(** The inner loop of [_associate_detections_to_existing_minions]: the scan
    of the detections for one track, from the running best match. *)
Fixpoint find_best_match (minion : Minion) (detections : list (Z * Point))
  (used_detections : list Z) (frame : Frame) (mask : Mask) (current_time : Q)
  (best_match_idx : Z) (min_distance best_similarity : Q) : result (Z * Q * Q) :=
  match detections with
  | [] => Ok (best_match_idx, min_distance, best_similarity)
  | (i, (x, y)) :: rest =>
      if set_in i used_detections then
        find_best_match minion rest used_detections frame mask current_time
          best_match_idx min_distance best_similarity
      else
        distance <- match_distance minion x y current_time ;;
        similarity <- similarity minion frame mask (x, y) ;;
        if Qltb distance min_distance
           && Qltb config.HIST_SIMILARITY_THRESHOLD similarity
           && Qltb best_similarity similarity
        then
          find_best_match minion rest used_detections frame mask current_time
            i distance similarity
        else
          find_best_match minion rest used_detections frame mask current_time
            best_match_idx min_distance best_similarity
  end.

(** The body of the outer loop, for one track. *)
Definition associate_minion (minion : Minion) (detected_positions : list Point)
  (used_detections : list Z) (frame : Frame) (mask : Mask) (current_time : Q)
  : result (Minion * list Z) :=
  if negb (active minion) then Ok (minion, used_detections)
  else
    '(best_match_idx, _, _) <-
      find_best_match minion (enumerate detected_positions) used_detections
        frame mask current_time (-1)%Z config.REID_TOLERANCE 0 ;;
    if negb (best_match_idx =? -1)%Z then
      '(x, y) <- py_index detected_positions best_match_idx ;;
      minion <- update_position minion (x, y) frame mask current_time ;;
      Ok (minion, set_add best_match_idx used_detections)
    else Ok (minion, used_detections).

Fixpoint associate_loop (tracks : list (Z * Minion)) (detected_positions : list Point)
  (used_detections : list Z) (frame : Frame) (mask : Mask) (current_time : Q)
  : result (list (Z * Minion) * list Z) :=
  match tracks with
  | [] => Ok ([], used_detections)
  | (k, minion) :: rest =>
      '(minion, used_detections) <-
        associate_minion minion detected_positions used_detections
          frame mask current_time ;;
      '(rest, used_detections) <-
        associate_loop rest detected_positions used_detections
          frame mask current_time ;;
      Ok ((k, minion) :: rest, used_detections)
  end.

Definition _associate_detections_to_existing_minions (self : MinionDetector)
  (detected_positions : list Point) (used_detections : list Z)
  (frame : Frame) (mask : Mask) (current_time : Q)
  : result (MinionDetector * list Z) :=
  '(tracks, used_detections) <-
    associate_loop (minions self) detected_positions used_detections
      frame mask current_time ;;
  Ok ({| minions := tracks; next_minion_id := next_minion_id self |},
      used_detections).

Definition _is_mass_spawn_event (detected_positions : list Point)
  (current_time : Q) : bool :=
  (config.MASS_SPAWN_THRESHOLD <? length detected_positions)%nat.

Fixpoint create_loop (detections : list (Z * Point)) (self : MinionDetector)
  (detected_positions : list Point) (used_detections : list Z)
  (frame : Frame) (mask : Mask) (current_time : Q) : MinionDetector :=
  match detections with
  | [] => self
  | (i, (x, y)) :: rest =>
      if negb (set_in i used_detections) then
        if _is_mass_spawn_event detected_positions current_time then
          create_loop rest self detected_positions used_detections
            frame mask current_time
        else
          let new_minion :=
            Minion_init (next_minion_id self) (x, y) frame mask
              config.MONITOR_width config.MONITOR_height current_time in
          create_loop rest
            {| minions := dict_set (minions self) (next_minion_id self) new_minion;
               next_minion_id := (next_minion_id self + 1)%Z |}
            detected_positions used_detections frame mask current_time
      else
        create_loop rest self detected_positions used_detections
          frame mask current_time
  end.

Definition _create_new_minions (self : MinionDetector)
  (detected_positions : list Point) (used_detections : list Z)
  (frame : Frame) (mask : Mask) (current_time : Q) : MinionDetector :=
  create_loop (enumerate detected_positions) self detected_positions
    used_detections frame mask current_time.

(** The first loop of [_update_minion_status]: the tracks after ageing and
    validation, and the identifiers to remove. *)
Fixpoint status_loop (tracks : list (Z * Minion)) (current_time : Q)
  : list (Z * Minion) * list Z :=
  match tracks with
  | [] => ([], [])
  | (minion_id, minion) :: rest =>
      let minion :=
        if Qltb config.MOVEMENT_MEMORY (current_time - last_seen minion)
        then set_active false minion else minion in
      let minion := validate_as_minion minion current_time in
      let '(rest, minions_to_remove) := status_loop rest current_time in
      if Qltb config.REID_MAX_TIME (current_time - last_seen minion)
      then ((minion_id, minion) :: rest, minion_id :: minions_to_remove)
      else ((minion_id, minion) :: rest, minions_to_remove)
  end.

Fixpoint remove_loop (tracks : list (Z * Minion)) (minions_to_remove : list Z)
  : result (list (Z * Minion)) :=
  match minions_to_remove with
  | [] => Ok tracks
  | minion_id :: rest =>
      tracks <- dict_del tracks minion_id ;; remove_loop tracks rest
  end.

Definition _update_minion_status (self : MinionDetector) (current_time : Q)
  : result MinionDetector :=
  let '(tracks, minions_to_remove) := status_loop (minions self) current_time in
  tracks <- remove_loop tracks minions_to_remove ;;
  Ok {| minions := tracks; next_minion_id := next_minion_id self |}.

Definition update_minion_tracking (self : MinionDetector)
  (detected_positions : list Point) (frame : Frame) (mask : Mask)
  (current_time : Q) : result MinionDetector :=
  let used_detections := [] in
  '(self, used_detections) <-
    _associate_detections_to_existing_minions self detected_positions
      used_detections frame mask current_time ;;
  let self :=
    _create_new_minions self detected_positions used_detections
      frame mask current_time in
  _update_minion_status self current_time.

(** The two queries, in state-passing form: the answer and the detector
    after the call. *)
Definition get_active_minions (self : MinionDetector)
  : list Minion * MinionDetector :=
  (map snd (filter (fun '(_, minion) => is_valid_minion minion && active minion)
                   (minions self)),
   self).

Definition get_enemy_minions (self : MinionDetector)
  : list Minion * MinionDetector :=
  let '(active_minions, self) := get_active_minions self in
  (filter (fun minion =>
             match get_strategy_info minion with
             | Some strategy_info => StrategyInfo.likely_enemy strategy_info
             | None => false
             end) active_minions,
   self).

(** A track as the program builds it: a non-empty history, as many
    timestamps as positions, and a non-zero frame height. *)
Definition well_formed (self : Minion) : Prop :=
  positions self <> [] /\
  length (positions self) = length (timestamps self) /\
  frame_height self <> 0%Z.

(** One call of [update_position], and a sequence of calls on one track. *)
Record Observation : Type := mkObservation {
  obs_position : Point;
  obs_frame : Frame;
  obs_mask : Mask;
  obs_timestamp : Q
}.

Definition observe (self : Minion) (o : Observation) : result Minion :=
  update_position self (obs_position o) (obs_frame o) (obs_mask o)
    (obs_timestamp o).

(** Everything the program does to a track after its creation:
    [update_position] (from the association pass), [validate_as_minion] and
    the assignment [minion.active = False] (both from the status pass). *)
Inductive TrackOp : Type :=
| Update (o : Observation)
| Validate (current_time : Q)
| Deactivate.

Definition apply_op (self : Minion) (op : TrackOp) : result Minion :=
  match op with
  | Update o => observe self o
  | Validate current_time => Ok (validate_as_minion self current_time)
  | Deactivate => Ok (set_active false self)
  end.

Fixpoint apply_ops (self : Minion) (ops : list TrackOp) : result Minion :=
  match ops with
  | [] => Ok self
  | op :: rest => self <- apply_op self op ;; apply_ops self rest
  end.

(** The positions and the timestamps a sequence of operations records. *)
Fixpoint observed_positions (ops : list TrackOp) : list Point :=
  match ops with
  | [] => []
  | Update o :: rest => obs_position o :: observed_positions rest
  | _ :: rest => observed_positions rest
  end.

Fixpoint observed_timestamps (ops : list TrackOp) : list Q :=
  match ops with
  | [] => []
  | Update o :: rest => obs_timestamp o :: observed_timestamps rest
  | _ :: rest => observed_timestamps rest
  end.

(** The enemy status [get_strategy_info] derives: the frozen
    classification when there is one, the current direction otherwise. *)
Definition classified_enemy (self : Minion) : bool :=
  match original_classification self with
  | Some c => c
  | None => classify_as_enemy self
  end.

(** Every identifier in the registry was handed out by the counter. *)
Definition ids_below (self : MinionDetector) : Prop :=
  forall k minion, In (k, minion) (minions self) -> (k < next_minion_id self)%Z.

(** The detections the association pass left unused, in detection order. *)
Definition unused_detections (detected_positions : list Point)
  (used_detections : list Z) : list Point :=
  map snd (filter (fun '(i, _) => negb (set_in i used_detections))
                  (enumerate detected_positions)).

(** The tracks the spawn pass builds from a list of points, numbered from
    [next_id] upwards. *)
Fixpoint spawn_from (next_id : Z) (points : list Point) (frame : Frame)
  (mask : Mask) (current_time : Q) : list (Z * Minion) :=
  match points with
  | [] => []
  | p :: rest =>
      (next_id,
       Minion_init next_id p frame mask
         config.MONITOR_width config.MONITOR_height current_time)
      :: spawn_from (next_id + 1) rest frame mask current_time
  end.

(** Detection [i], at [p], is eligible for the track: it is unused, its
    distance [d] (after the prediction bonus) is below the re-identification
    tolerance and its similarity [s] is above the floor. *)
Definition candidate (minion : Minion) (detected_positions : list Point)
  (used_detections : list Z) (frame : Frame) (mask : Mask) (current_time : Q)
  (i : Z) (p : Point) (d s : Q) : Prop :=
  (0 <= i)%Z /\
  nth_error detected_positions (Z.to_nat i) = Some p /\
  set_in i used_detections = false /\
  match_distance minion (fst p) (snd p) current_time = Ok d /\
  similarity minion frame mask p = Ok s /\
  d < config.REID_TOLERANCE /\
  config.HIST_SIMILARITY_THRESHOLD < s.

(** The scan of one track picks an eligible detection of highest
    similarity. *)
Definition selects_most_similar (minion : Minion)
  (detected_positions : list Point) (used_detections : list Z)
  (frame : Frame) (mask : Mask) (current_time : Q) : Prop :=
  forall idx dmin smax,
    find_best_match minion (enumerate detected_positions) used_detections
      frame mask current_time (-1)%Z config.REID_TOLERANCE 0
    = Ok (idx, dmin, smax) ->
    forall j q d s,
      candidate minion detected_positions used_detections frame mask
        current_time j q d s ->
      idx <> (-1)%Z /\ s <= smax.

(** One step of the scan as the association rule words it: a detection is
    offered to the running best (index, distance, similarity) and replaces
    it when it is unused, nearer than the running minimum distance and more
    similar than both the floor and the running best similarity. *)
Definition offer (minion : Minion) (used_detections : list Z) (frame : Frame)
  (mask : Mask) (current_time : Q) (running : Z * Q * Q)
  (detection : Z * Point) : result (Z * Q * Q) :=
  if set_in (fst detection) used_detections then Ok running
  else
    d <- match_distance minion (fst (snd detection)) (snd (snd detection))
           current_time ;;
    s <- similarity minion frame mask (snd detection) ;;
    Ok (if Qltb d (snd (fst running))
           && Qltb config.HIST_SIMILARITY_THRESHOLD s
           && Qltb (snd running) s
        then (fst detection, d, s) else running).

(** The region [compute_hist] cuts around a position meets the frame. *)
Definition in_view (frame : Frame) (position : Point) : Prop :=
  (0 < fst (shape frame))%Z /\ (0 < snd (shape frame))%Z /\
  (-25 < py_int (fst position) < snd (shape frame) + 25)%Z /\
  (-25 < py_int (snd position) < fst (shape frame) + 25)%Z.

(** The track carries a float32 histogram, not the zeros of a degenerate
    region. *)
Definition has_histogram (self : Minion) : Prop := hist self <> zeros.

End Tracking.

(** ** Specification vocabulary *)

(** The rounding error three float operations can add to a ratio. *)
Definition float_tolerance : Q := 4 * unit_roundoff.

(** What the round trip keeps of a ratio pair: each coordinate comes back
    rounded down to a whole pixel, up to the rounding of the float
    operations. *)
Definition within_one_pixel (frame_width frame_height : Z) (r r' : Q * Q) : Prop :=
  (fst r' <= fst r + float_tolerance /\
   fst r < fst r' + 1 / inject_Z frame_width + float_tolerance) /\
  (snd r' <= snd r + float_tolerance /\
   snd r < snd r' + 1 / inject_Z frame_height + float_tolerance).

(** The round trip as an identity up to a tolerance [eps]. *)
Definition roundtrip_within (eps : Q) (ratio_list : list (Q * Q))
  (frame_width frame_height : Z) : Prop :=
  exists out,
    pixels_to_ratio (ratio_to_pixels ratio_list frame_width frame_height)
      frame_width frame_height = Ok out /\
    Forall2 (fun r r' => Qabs (fst r' - fst r) <= eps /\ Qabs (snd r' - snd r) <= eps)
      ratio_list out.


(** ** A concrete back end, to run the tracker on examples

    A frame of 1920x1080 gives every region a scalar appearance, read at the
    region's top-left corner; the similarity of two signatures is one minus
    their distance.  [hypot] is the exact hypotenuse whenever that is
    rational, and rounds it down otherwise. *)
Module Scene.

Definition Qsqrt (q : Q) : Q := Z.sqrt (Qnum q * Zpos (Qden q)) # Qden q.

Definition backend : Backend :=
  {| Frame := Z * Z -> Q;
     Mask := unit;
     Histogram := Q;
     shape := fun _ => (1080, 1920)%Z;
     calcHist := fun frame _ '(x1, y1, _, _) => frame (x1, y1);
     compareHist := fun h1 h2 => 1 - Qabs (h1 - h2);
     hypot := fun a b => Qsqrt (Qred (a * a + b * b)) |}.

(** The value a computation returned, [default] if it raised. *)
Definition value {A : Type} (default : A) (r : result A) : A :=
  match r with
  | Ok a => a
  | Raise _ => default
  end.

(** A frame of uniform appearance. *)
Definition uniform (appearance : Q) : @Frame backend := fun _ => appearance.

Definition seen (x y t : Q) : @TrackOp backend :=
  Update {| obs_position := (x, y); obs_frame := uniform 1; obs_mask := tt;
            obs_timestamp := t |}.

(** A track that advances to the right, is classified, and then retreats. *)
Definition advancing : @Minion backend :=
  Minion_init 1 (500, 500) (uniform 1) tt 1920 1080 0.

Definition advance : list (@TrackOp backend) :=
  [seen 520 500 1; seen 540 500 2; seen 560 500 3; seen 600 500 4].

Definition retreat : list (@TrackOp backend) :=
  [seen 400 500 6; Validate 6].

Definition classified : @Minion backend :=
  value advancing (apply_ops advancing advance).

Definition retreated : @Minion backend :=
  value classified (apply_ops classified retreat).

(** A track that jumps 300 pixels to the right in its second sample. *)
Definition jumping : @Minion backend :=
  Minion_init 1 (100, 500) (uniform 1) tt 1920 1080 0.

Definition jumped : @Minion backend :=
  value jumping (apply_ops jumping [seen 400 500 2]).

(** A hundred samples, one pixel and one second apart. *)
Definition long_march : list (@TrackOp backend) :=
  map (fun i => seen (inject_Z (Z.of_nat i)) 500 (inject_Z (Z.of_nat i)))
      (seq 1 100).

(** One track at (100, 100) and two detections: a near one that looks half
    like the track and a farther one that looks almost like it. *)
Definition lone : @Minion backend :=
  Minion_init 1 (100, 100) (uniform 1) tt 1920 1080 0.

Definition two_detections : list Point := [(110, 100); (150, 100)].

(** A detection beyond the right edge of the frame. *)
Definition off_screen : Point := (2000, 100).

Definition two_tone : @Frame backend :=
  fun corner => if (fst corner =? 85)%Z then 1 # 2 else 9 # 10.

(** Two tracks 30 pixels apart and one detection halfway between them, of
    similarity 0.6 to the first and 0.2 to the second. *)
Definition track_a : @Minion backend :=
  Minion_init 1 (100, 100) (uniform 1) tt 1920 1080 0.

Definition track_b : @Minion backend :=
  Minion_init 2 (130, 100) (uniform (7 # 5)) tt 1920 1080 0.

Definition halfway : Point := (115, 100).

(** A track is created at time 0, nothing is detected at time 6, and a
    detection that looks exactly like the track comes back at its position at
    time 7. *)
Definition after_silence : result (@MinionDetector backend) :=
  self <- update_minion_tracking MinionDetector_init [(100, 500)] (uniform 1) tt 0 ;;
  update_minion_tracking self [] (uniform 1) tt 6.

Definition after_return : result (@MinionDetector backend) :=
  self <- after_silence ;;
  update_minion_tracking self [(100, 500)] (uniform 1) tt 7.

Definition silent : @MinionDetector backend :=
  value MinionDetector_init after_silence.

Definition forgotten : @Minion backend :=
  match minions silent with
  | (_, minion) :: _ => minion
  | [] => lone
  end.

Definition returned : @MinionDetector backend :=
  value MinionDetector_init after_return.

(** Twenty-five detections in one cycle. *)
Definition crowd : list Point :=
  map (fun i => (inject_Z (Z.of_nat i) * 10, 500)) (seq 1 25).

End Scene.

(** ** The stages of [update_position]

    [update_position] runs, in order: the movement metrics, the recording of
    the sample, the direction analysis and the prediction.  The first two
    stages are named here so that the others can be studied on their input. *)

Section UpdateStages.

Context {backend : Backend}.

Definition speed_metrics (self : Minion) (distance time_diff : Q) : result Minion :=
  if Qltb 0 time_diff then
    speed <- py_div distance time_diff ;;
    let self := set_max_speed (py_max (max_speed self) speed) self in
    Ok (if Qltb distance config.STATIONARY_THRESHOLD
        then set_consecutive_stationary_frames
               (consecutive_stationary_frames self + 1)%Z self
        else set_consecutive_stationary_frames 0%Z self)
  else Ok self.

Definition record_sample (self : Minion) (position : Point) (frame : Frame)
  (mask : Mask) (timestamp distance : Q) : Minion :=
  let self :=
    set_total_distance_traveled (total_distance_traveled self + distance) self in
  let self := set_positions (deque_append 80 (positions self) position) self in
  let self := set_timestamps (deque_append 80 (timestamps self) timestamp) self in
  let self := set_last_seen timestamp self in
  let self := set_active true self in
  set_hist (compute_hist frame mask position) self.

End UpdateStages.

(** ** Vocabulary for the further properties *)

Section MoreVocabulary.

Context {backend : Backend}.

(** The test [calculate_prediction] makes before it extrapolates. *)
Definition moving (self : Minion) : bool :=
  Qltb 1 (Qabs (fst (velocity self))) || Qltb 1 (Qabs (snd (velocity self))).

(** The direction field holds one of the three values the code writes. *)
Definition direction_value (d : string) : Prop :=
  d = "unknown"%string \/ d = "left"%string \/ d = "right"%string.

(** The fields an update derives from the history. *)
Definition derived_fields (self : Minion) :=
  (current_side self, general_direction self, optimal_bridge self,
   original_classification self, predicted_positions self,
   velocity self, acceleration self).

(** The classification is set exactly when the direction is known. *)
Definition classified_iff_directed (self : Minion) : Prop :=
  direction_value (general_direction self) /\
  (original_classification self = None <->
   general_direction self = "unknown"%string).

(** Every predicted sample lies in the frame and after the last sighting. *)
Definition predictions_in_frame (self : Minion) : Prop :=
  Forall (fun s : Q * Q * Q =>
            (0 <= fst (fst s) /\ fst (fst s) <= inject_Z (frame_width self)) /\
            (0 <= snd (fst s) /\ snd (fst s) <= inject_Z (frame_height self)) /\
            last_seen self < snd s)
         (predicted_positions self).

End MoreVocabulary.

(** ** Vocabulary for the detector *)

From Stdlib Require Import Sorted.

Section DetectorVocabulary.

Context {backend : Backend}.

(** What the status pass does to one track: ageing, then validation. *)
Definition aged (current_time : Q) (minion : Minion) : Minion :=
  validate_as_minion
    (if Qltb config.MOVEMENT_MEMORY (current_time - last_seen minion)
     then set_active false minion else minion)
    current_time.

(** The status pass evicts the track. *)
Definition too_old (current_time : Q) (minion : Minion) : bool :=
  Qltb config.REID_MAX_TIME (current_time - last_seen minion).


(** A registry as the detector keeps it: every track is well formed and
    filed under its own identifier, identifiers increase along the registry
    and are all below the counter. *)
Definition registry_ok (self : MinionDetector) : Prop :=
  (forall k minion, In (k, minion) (minions self) ->
                    well_formed minion /\ id minion = k) /\
  StronglySorted Z.lt (map fst (minions self)) /\
  ids_below self.

(** Every track of the registry carries a histogram. *)
Definition histograms_ok (self : MinionDetector) : Prop :=
  forall k minion, In (k, minion) (minions self) -> has_histogram minion.

(** The tracks a cycle spawns: none when the detections exceed the mass-spawn
    threshold, otherwise one per detection the association pass left unused,
    numbered from the counter. *)
Definition spawned (self : MinionDetector) (detected_positions : list Point)
  (used_detections : list Z) (frame : Frame) (mask : Mask) (current_time : Q)
  : list (Z * Minion) :=
  if (config.MASS_SPAWN_THRESHOLD <? length detected_positions)%nat then []
  else spawn_from (next_minion_id self)
         (unused_detections detected_positions used_detections)
         frame mask current_time.

(** What the status pass makes of a list of tracks: the tracks unseen for
    more than [REID_MAX_TIME] are dropped, the others aged. *)
Definition kept (current_time : Q) (tracks : list (Z * Minion))
  : list (Z * Minion) :=
  map (fun '(k, m) => (k, aged current_time m))
      (filter (fun '(_, m) => negb (too_old current_time m)) tracks).

(** The detector over a run of frames: one tracking cycle per frame, each on
    the registry the cycle before left. *)
Fixpoint run_cycles (self : MinionDetector)
  (cycles : list (list Point * Frame * Mask * Q)) : result MinionDetector :=
  match cycles with
  | [] => Ok self
  | (detected_positions, frame, mask, current_time) :: rest =>
      self <- update_minion_tracking self detected_positions frame mask
                current_time ;;
      run_cycles self rest
  end.

End DetectorVocabulary.

(** ** utils.py, continued *)

(** [l[start:stop]], with Python's reading of negative and overlong bounds. *)
Definition py_slice {A : Type} (l : list A) (start stop : Z) : list A :=
  let n := Z.of_nat (length l) in
  let norm := fun i => if (i <? 0)%Z then Z.max 0 (i + n) else Z.min i n in
  let s := norm start in
  let e := norm stop in
  firstn (Z.to_nat (e - s)) (skipn (Z.to_nat s) l).

(** [l[-window:]] for an integer [window]. *)
Definition py_tail {A : Type} (l : list A) (window : Z) : list A :=
  py_slice l (- window) (Z.of_nat (length l)).

(** [sum(xs)] on floats. *)
Definition py_sum (xs : list Q) : Q := fold_left Qplus xs 0.

Definition clamp (value min_value max_value : Q) : Q :=
  py_max min_value (py_min value max_value).

Definition clamp_position (position : Point) (frame_width frame_height : Z)
  : Point :=
  (clamp (fst position) 0 (inject_Z (frame_width - 1)),
   clamp (snd position) 0 (inject_Z (frame_height - 1))).

Definition point_in_rect (point : Point) (rect : Q * Q * Q * Q) : bool :=
  let '(x, y) := point in
  let '(rect_x, rect_y, rect_width, rect_height) := rect in
  Qle_bool rect_x x && Qle_bool x (rect_x + rect_width)
  && (Qle_bool rect_y y && Qle_bool y (rect_y + rect_height)).

Definition interpolate_position (pos1 pos2 : Point) (ratio : Q) : Point :=
  let ratio := clamp ratio 0 1 in
  (fadd (fst pos1) (fmul (fsub (fst pos2) (fst pos1)) ratio),
   fadd (snd pos1) (fmul (fsub (snd pos2) (snd pos1)) ratio)).

Definition calculate_movement_vector (positions : list Point)
  (timestamps : list Q) (window_size : Z) : result Point :=
  if (length positions <? 2)%nat || (length timestamps <? 2)%nat then Ok (0, 0)
  else
    let recent_positions := py_tail positions window_size in
    let recent_timestamps := py_tail timestamps window_size in
    if (length recent_positions <? 2)%nat then Ok (0, 0)
    else
      t_last <- py_index recent_timestamps (-1) ;;
      t_first <- py_index recent_timestamps 0 ;;
      let total_time := t_last - t_first in
      if Qle_bool total_time 0 then Ok (0, 0)
      else
        p_last <- py_index recent_positions (-1) ;;
        p_first <- py_index recent_positions 0 ;;
        let total_dx := fst p_last - fst p_first in
        let total_dy := snd p_last - snd p_first in
        vx <- py_div total_dx total_time ;;
        vy <- py_div total_dy total_time ;;
        Ok (vx, vy).

(** The loop of [smooth_positions], over the indices [indices]. *)
Fixpoint smooth_loop (positions : list Point) (half_window : Z)
  (indices : list nat) : result (list Point) :=
  match indices with
  | [] => Ok []
  | i :: rest =>
      let start := Z.max 0 (Z.of_nat i - half_window) in
      let stop := Z.min (Z.of_nat (length positions))
                        (Z.of_nat i + half_window + 1) in
      let window_positions := py_slice positions start stop in
      let size := inject_Z (Z.of_nat (length window_positions)) in
      avg_x <- py_div (py_sum (map fst window_positions)) size ;;
      avg_y <- py_div (py_sum (map snd window_positions)) size ;;
      smoothed <- smooth_loop positions half_window rest ;;
      Ok ((avg_x, avg_y) :: smoothed)
  end.

Definition smooth_positions (positions : list Point) (window_size : Z)
  : result (list Point) :=
  if (Z.of_nat (length positions) <? window_size)%Z then Ok positions
  else smooth_loop positions (window_size / 2) (seq 0 (length positions)).

Section UtilsWithBackend.

Context {backend : Backend}.

Definition distance_2d (point1 point2 : Point) : Q :=
  hypot (fst point1 - fst point2) (snd point1 - snd point2).

Definition calculate_speed (position1 position2 : Point) (time1 time2 : Q)
  : result Q :=
  let time_diff := time2 - time1 in
  if Qle_bool time_diff 0 then Ok 0
  else
    let distance := distance_2d position1 position2 in
    py_div distance time_diff.

End UtilsWithBackend.

(** ** config.py, continued: the detection and placement parameters *)

Definition SAFE_ZONE_THRESHOLD : Z := 2.
Definition MINION_MIN_AREA : Q := 30.
Definition MINION_MAX_AREA : Q := 500.
Definition EXCLUSION_RADIUS_RATIO : Q := 10 # 100.
Definition EXCLUSION_CENTER_Y_RATIO : Q := 36 # 100.

(** ** utils.py and detector.py: contours and exclusion zones *)

(** The contour part of OpenCV: [contourArea] is [cv2.contourArea] and
    [minEnclosingCircle] is [cv2.minEnclosingCircle], centre and radius. *)
Class Vision : Type := {
  Contour : Type;
  contourArea : Contour -> Q;
  minEnclosingCircle : Contour -> Point * Q
}.

Section Contours.

Context {backend : Backend} {vision : Vision}.

Fixpoint is_in_exclusion_zone (x y : Q) (exclusion_zones : list (Q * Q * Q))
  : bool :=
  match exclusion_zones with
  | [] => false
  | (center_x, center_y, radius) :: rest =>
      if Qle_bool (distance_2d (x, y) (center_x, center_y)) radius then true
      else is_in_exclusion_zone x y rest
  end.

Definition create_exclusion_zones (frame_width frame_height : Z)
  : list (Q * Q * Q) :=
  let exclusion_radius := inject_Z frame_width * EXCLUSION_RADIUS_RATIO in
  let center_y := inject_Z frame_height * EXCLUSION_CENTER_Y_RATIO in
  [ (exclusion_radius, center_y, exclusion_radius);
    (inject_Z frame_width - exclusion_radius, center_y, exclusion_radius) ].

Fixpoint filter_detections_by_area (contours : list Contour)
  (min_area max_area : Q) : list Point :=
  match contours with
  | [] => []
  | contour :: rest =>
      let area := contourArea contour in
      if Qltb min_area area && Qltb area max_area then
        let '(x, y) := fst (minEnclosingCircle contour) in
        (x, y) :: filter_detections_by_area rest min_area max_area
      else filter_detections_by_area rest min_area max_area
  end.

(** [MinionDetector._calculate_exclusion_zones], on the frame size the
    detector is built with, and the zones it stores at construction. *)
Definition _calculate_exclusion_zones : list (Q * Q * Q) :=
  let exclusion_radius :=
    inject_Z config.MONITOR_width * EXCLUSION_RADIUS_RATIO in
  let center_y := inject_Z config.MONITOR_height * EXCLUSION_CENTER_Y_RATIO in
  let zones :=
    [ (exclusion_radius, center_y, exclusion_radius);
      (inject_Z config.MONITOR_width - exclusion_radius, center_y,
       exclusion_radius) ] in
  zones.

Definition exclusion_zones : list (Q * Q * Q) := _calculate_exclusion_zones.

(** The loop of [_is_in_exclusion_zone], over the zones left to test. *)
Fixpoint in_zones (x y : Q) (zones : list (Q * Q * Q)) : bool :=
  match zones with
  | [] => false
  | (center_x, center_y, radius) :: rest =>
      let distance := hypot (x - center_x) (y - center_y) in
      if Qle_bool distance radius then true else in_zones x y rest
  end.

Definition _is_in_exclusion_zone (x y : Q) : bool := in_zones x y exclusion_zones.

(** [find_contours], from the contours [cv2.findContours] returns. *)
Fixpoint find_contours (contours : list Contour) : list Point :=
  match contours with
  | [] => []
  | contour :: rest =>
      let area := contourArea contour in
      if Qltb MINION_MIN_AREA area && Qltb area MINION_MAX_AREA then
        let '(x, y) := fst (minEnclosingCircle contour) in
        if negb (_is_in_exclusion_zone x y) then (x, y) :: find_contours rest
        else find_contours rest
      else find_contours rest
  end.

(** A point is farther from the centre of every zone than the radius. *)
Definition clear_of_zones (p : Point) (zones : list (Q * Q * Q)) : Prop :=
  Forall (fun zone : Q * Q * Q =>
            snd zone < distance_2d p (fst (fst zone), snd (fst zone)))
         zones.

End Contours.

(** ** detector.py: statistics and the helper functions *)

(** The dictionaries [get_detection_stats] and [analyze_detection_quality]
    return. *)
Module DetectionStats.
Record t : Type := mk {
  total_minions : Z;
  active_minions : Z;
  enemy_minions : Z;
  inactive_minions : Z;
  next_id : Z
}.
End DetectionStats.

Module DetectionQuality.
Record t : Type := mk {
  average_lifetime : Q;
  average_distance_traveled : Q;
  valid_ratio : Q;
  enemy_ratio : Q
}.
End DetectionQuality.

Section DetectorHelpers.

Context {backend : Backend}.

Definition get_detection_stats (self : MinionDetector)
  : DetectionStats.t * MinionDetector :=
  let '(active_minions, self) := get_active_minions self in
  let active_count := Z.of_nat (length active_minions) in
  let '(enemy_minions, self) := get_enemy_minions self in
  let enemy_count := Z.of_nat (length enemy_minions) in
  let total_count := Z.of_nat (length (minions self)) in
  ({| DetectionStats.total_minions := total_count;
      DetectionStats.active_minions := active_count;
      DetectionStats.enemy_minions := enemy_count;
      DetectionStats.inactive_minions := (total_count - active_count)%Z;
      DetectionStats.next_id := next_minion_id self |},
   self).

(** [m.get_strategy_info() and m.get_strategy_info().get('likely_enemy', False)]. *)
Definition likely_enemy (m : Minion) : bool :=
  match get_strategy_info m with
  | Some strategy_info => StrategyInfo.likely_enemy strategy_info
  | None => false
  end.

(** [sum(m.timestamps[-1] - m.creation_time for m in minions)], from the
    running total. *)
Fixpoint sum_lifetimes (minions : list Minion) (total : Q) : result Q :=
  match minions with
  | [] => Ok total
  | m :: rest =>
      t <- py_index (timestamps m) (-1) ;;
      sum_lifetimes rest (total + (t - creation_time m))
  end.

Definition analyze_detection_quality (minions : list Minion)
  : result DetectionQuality.t :=
  match minions with
  | [] =>
      Ok {| DetectionQuality.average_lifetime := 0;
            DetectionQuality.average_distance_traveled := 0;
            DetectionQuality.valid_ratio := 0;
            DetectionQuality.enemy_ratio := 0 |}
  | _ :: _ =>
      total_lifetime <- sum_lifetimes minions 0 ;;
      let total_distance := py_sum (map total_distance_traveled minions) in
      let valid_count :=
        inject_Z (Z.of_nat (length (filter is_valid_minion minions))) in
      let enemy_count :=
        inject_Z (Z.of_nat (length (filter likely_enemy minions))) in
      let len_minions := inject_Z (Z.of_nat (length minions)) in
      average_lifetime <- py_div total_lifetime len_minions ;;
      average_distance_traveled <- py_div total_distance len_minions ;;
      valid_ratio <- py_div valid_count len_minions ;;
      enemy_ratio <-
        (if (0 <? length minions)%nat then py_div enemy_count len_minions
         else Ok 0) ;;
      Ok {| DetectionQuality.average_lifetime := average_lifetime;
            DetectionQuality.average_distance_traveled :=
              average_distance_traveled;
            DetectionQuality.valid_ratio := valid_ratio;
            DetectionQuality.enemy_ratio := enemy_ratio |}
  end.

(** [range and not (range[0] <= v <= range[1])] for an optional range. *)
Definition outside (range : option (Q * Q)) (v : Q) : bool :=
  match range with
  | Some r => negb (Qle_bool (fst r) v && Qle_bool v (snd r))
  | None => false
  end.

Fixpoint filter_minions_by_position (minions : list Minion)
  (x_range y_range : option (Q * Q)) : result (list Minion) :=
  match minions with
  | [] => Ok []
  | minion :: rest =>
      match positions minion with
      | [] => filter_minions_by_position rest x_range y_range
      | _ :: _ =>
          ' p <- py_index (positions minion) (-1) ;;
          let '(x, y) := p in
          if outside x_range x then
            filter_minions_by_position rest x_range y_range
          else if outside y_range y then
            filter_minions_by_position rest x_range y_range
          else
            filtered <- filter_minions_by_position rest x_range y_range ;;
            Ok (minion :: filtered)
      end
  end.


(** The last position of a track, when it has one, passes the two ranges. *)
Definition in_ranges (x_range y_range : option (Q * Q)) (minion : Minion)
  : bool :=
  match rev (positions minion) with
  | [] => false
  | (x, y) :: _ => negb (outside x_range x) && negb (outside y_range y)
  end.


(** The association pass seen from outside: track by track, [choice] names
    the detection the track was updated with, if any. *)
Inductive associated (detected_positions : list Point) (frame : Frame)
  (mask : Mask) (current_time : Q)
  : list (Z * Minion) -> list (option Z) -> list (Z * Minion) -> Prop :=
| associated_nil :
    associated detected_positions frame mask current_time [] [] []
| associated_skip k minion rest choice rest' :
    associated detected_positions frame mask current_time rest choice rest' ->
    associated detected_positions frame mask current_time
      ((k, minion) :: rest) (None :: choice) ((k, minion) :: rest')
| associated_update k minion i p minion' rest choice rest' :
    active minion = true ->
    (0 <= i)%Z ->
    nth_error detected_positions (Z.to_nat i) = Some p ->
    update_position minion p frame mask current_time = Ok minion' ->
    associated detected_positions frame mask current_time rest choice rest' ->
    associated detected_positions frame mask current_time
      ((k, minion) :: rest) (Some i :: choice) ((k, minion') :: rest').

(** The detections a choice hands out, in track order. *)
Fixpoint chosen (choice : list (option Z)) : list Z :=
  match choice with
  | [] => []
  | Some i :: rest => i :: chosen rest
  | None :: rest => chosen rest
  end.

End DetectorHelpers.

(** ** strategy.py *)

Definition OFFENSIVE_POSITIONS_RATIOS : list (Q * Q) :=
  [(0.2, 0.163); (0.2057, 0.2787)].
Definition CENTRAL_POSITIONS_RATIOS : list (Q * Q) :=
  [(0.1729, 0.4176); (0.2927, 0.1481); (0.2807, 0.4491)].

(** The dictionary [analyze_threat_distribution] returns. *)
Module ThreatAnalysis.
Record t : Type := mk {
  left_threat : Z;
  right_threat : Z;
  top_threat : Z;
  bottom_threat : Z;
  center_threat : Z;
  total_enemies : Z;
  average_position : option Point;
  threat_clusters : list Point
}.

(** [threat_analysis[key] += 1] for the five counters, and the assignment
    of the average position. *)
Definition incr_left (a : t) : t :=
  mk (left_threat a + 1) (right_threat a) (top_threat a) (bottom_threat a)
     (center_threat a) (total_enemies a) (average_position a)
     (threat_clusters a).
Definition incr_right (a : t) : t :=
  mk (left_threat a) (right_threat a + 1) (top_threat a) (bottom_threat a)
     (center_threat a) (total_enemies a) (average_position a)
     (threat_clusters a).
Definition incr_top (a : t) : t :=
  mk (left_threat a) (right_threat a) (top_threat a + 1) (bottom_threat a)
     (center_threat a) (total_enemies a) (average_position a)
     (threat_clusters a).
Definition incr_bottom (a : t) : t :=
  mk (left_threat a) (right_threat a) (top_threat a) (bottom_threat a + 1)
     (center_threat a) (total_enemies a) (average_position a)
     (threat_clusters a).
Definition incr_center (a : t) : t :=
  mk (left_threat a) (right_threat a) (top_threat a) (bottom_threat a)
     (center_threat a + 1) (total_enemies a) (average_position a)
     (threat_clusters a).
Definition set_average_position (v : option Point) (a : t) : t :=
  mk (left_threat a) (right_threat a) (top_threat a) (bottom_threat a)
     (center_threat a) (total_enemies a) v (threat_clusters a).
End ThreatAnalysis.

Module strategy.

(** The state of [StrategyAnalyzer]; an entry of the history is the pair of
    its strategy and its timestamp. *)
Record StrategyAnalyzer : Type := mkStrategyAnalyzer {
  frame_width : Z;
  frame_height : Z;
  defensive_positions : list (Z * Z);
  offensive_positions : list (Z * Z);
  central_positions : list (Z * Z);
  strategy_history : list (string * Q);
  last_placement_time : Q;
  consecutive_same_strategy : Z;
  current_strategy_type : option string
}.

Definition StrategyAnalyzer_init (frame_width frame_height : Z)
  : StrategyAnalyzer :=
  {| frame_width := frame_width;
     frame_height := frame_height;
     defensive_positions :=
       ratio_to_pixels config.DEFENSIVE_POSITIONS_RATIOS frame_width frame_height;
     offensive_positions :=
       ratio_to_pixels OFFENSIVE_POSITIONS_RATIOS frame_width frame_height;
     central_positions :=
       ratio_to_pixels CENTRAL_POSITIONS_RATIOS frame_width frame_height;
     strategy_history := [];
     last_placement_time := 0;
     consecutive_same_strategy := 0;
     current_strategy_type := None |}.

Section Analyzer.

Context {backend : Backend}.

(** The loop of [analyze_threat_distribution], from the running counters
    and totals. *)
Fixpoint threat_loop (self : StrategyAnalyzer) (enemy_minions : list Minion)
  (threat_analysis : ThreatAnalysis.t) (total_x total_y : Q)
  : result (ThreatAnalysis.t * Q * Q) :=
  let left_threshold := inject_Z (frame_width self) * 0.4 in
  let right_threshold := inject_Z (frame_width self) * 0.6 in
  let top_threshold := inject_Z (frame_height self) * 0.35 in
  let bottom_threshold := inject_Z (frame_height self) * 0.65 in
  match enemy_minions with
  | [] => Ok (threat_analysis, total_x, total_y)
  | minion :: rest =>
      match positions minion with
      | [] => threat_loop self rest threat_analysis total_x total_y
      | _ :: _ =>
          ' p <- py_index (positions minion) (-1) ;;
          let '(x, y) := p in
          let total_x := total_x + x in
          let total_y := total_y + y in
          let threat_analysis :=
            if Qltb x left_threshold then
              ThreatAnalysis.incr_left threat_analysis
            else if Qltb right_threshold x then
              ThreatAnalysis.incr_right threat_analysis
            else ThreatAnalysis.incr_center threat_analysis in
          let threat_analysis :=
            if Qltb y top_threshold then
              ThreatAnalysis.incr_top threat_analysis
            else if Qltb bottom_threshold y then
              ThreatAnalysis.incr_bottom threat_analysis
            else threat_analysis in
          threat_loop self rest threat_analysis total_x total_y
      end
  end.

Definition analyze_threat_distribution (self : StrategyAnalyzer)
  (enemy_minions : list Minion) : result ThreatAnalysis.t :=
  let threat_analysis :=
    {| ThreatAnalysis.left_threat := 0;
       ThreatAnalysis.right_threat := 0;
       ThreatAnalysis.top_threat := 0;
       ThreatAnalysis.bottom_threat := 0;
       ThreatAnalysis.center_threat := 0;
       ThreatAnalysis.total_enemies := Z.of_nat (length enemy_minions);
       ThreatAnalysis.average_position := None;
       ThreatAnalysis.threat_clusters := [] |} in
  match enemy_minions with
  | [] => Ok threat_analysis
  | _ :: _ =>
      ' state <- threat_loop self enemy_minions threat_analysis 0 0 ;;
      let '(threat_analysis, total_x, total_y) := state in
      let len_enemies := inject_Z (Z.of_nat (length enemy_minions)) in
      avg_x <- py_div total_x len_enemies ;;
      avg_y <- py_div total_y len_enemies ;;
      Ok (ThreatAnalysis.set_average_position (Some (avg_x, avg_y))
            threat_analysis)
  end.

End Analyzer.

Definition _adaptive_strategy (self : StrategyAnalyzer)
  (threat_analysis : ThreatAnalysis.t) : string :=
  if (3 <=? consecutive_same_strategy self)%Z
     && match current_strategy_type self with
        | Some s => String.eqb s "defensive" || String.eqb s "offensive"
        | None => false
        end
  then "central"
  else
    match ThreatAnalysis.average_position threat_analysis with
    | Some average_position =>
        let avg_x := fst average_position in
        let center_x := inject_Z (frame_width self) / 2 in
        if String.eqb config.PLAYER_SIDE "left" then
          if Qltb avg_x center_x then "defensive" else "offensive"
        else
          if Qltb center_x avg_x then "defensive" else "offensive"
    | None => "central"
    end.

Definition _determine_strategy_type (self : StrategyAnalyzer)
  (threat_analysis : ThreatAnalysis.t) : string :=
  let left_threat := ThreatAnalysis.left_threat threat_analysis in
  let right_threat := ThreatAnalysis.right_threat threat_analysis in
  let total_enemies := ThreatAnalysis.total_enemies threat_analysis in
  if String.eqb config.PLAYER_SIDE "left" then
    if (SAFE_ZONE_THRESHOLD <=? left_threat)%Z then "defensive"
    else if (right_threat =? 0)%Z && (0 <? total_enemies)%Z then "offensive"
    else if (4 <=? total_enemies)%Z then "central"
    else _adaptive_strategy self threat_analysis
  else
    if (SAFE_ZONE_THRESHOLD <=? right_threat)%Z then "defensive"
    else if (left_threat =? 0)%Z && (0 <? total_enemies)%Z then "offensive"
    else if (4 <=? total_enemies)%Z then "central"
    else _adaptive_strategy self threat_analysis.

(** [_update_strategy_history], with the clock reading [current_time]. *)
Definition _update_strategy_history (self : StrategyAnalyzer)
  (strategy_type : string) (current_time : Q) : StrategyAnalyzer :=
  let strategy_history :=
    strategy_history self ++ [(strategy_type, current_time)] in
  let strategy_history :=
    if (20 <? length strategy_history)%nat
    then slice_last 20 strategy_history else strategy_history in
  let same :=
    match current_strategy_type self with
    | Some s => String.eqb strategy_type s
    | None => false
    end in
  {| frame_width := frame_width self;
     frame_height := frame_height self;
     defensive_positions := defensive_positions self;
     offensive_positions := offensive_positions self;
     central_positions := central_positions self;
     strategy_history := strategy_history;
     last_placement_time := current_time;
     consecutive_same_strategy :=
       if same then (consecutive_same_strategy self + 1)%Z else 1%Z;
     current_strategy_type :=
       if same then current_strategy_type self else Some strategy_type |}.

(** A sequence of placements, oldest first, recorded one after the other. *)
Definition record_placements (self : StrategyAnalyzer)
  (placements : list (string * Q)) : StrategyAnalyzer :=
  fold_left (fun self placement =>
               _update_strategy_history self (fst placement) (snd placement))
            placements self.

(** The number of entries equal to [strategy_type] at the head of a list. *)
Fixpoint run_length (strategy_type : string) (strategies : list string) : Z :=
  match strategies with
  | [] => 0
  | s :: rest =>
      if String.eqb s strategy_type
      then (1 + run_length strategy_type rest)%Z else 0%Z
  end.

(** The three names [_select_position_by_strategy] dispatches on. *)
Definition strategy_name (s : string) : Prop :=
  s = "defensive"%string \/ s = "offensive"%string \/ s = "central"%string.

(** The tracks of a list that have a position. *)
Definition positioned {backend : Backend} (minions : list Minion)
  : list Minion :=
  filter (fun m => negb (length (positions m) =? 0)%nat) minions.

End strategy.

(** ** Further concrete scenes *)

Module Cases.

(** The advancing track of [Scene] when it holds three and four samples. *)
Definition three_samples : @Minion Scene.backend :=
  Scene.value Scene.advancing
    (apply_ops Scene.advancing (firstn 2 Scene.advance)).

Definition four_samples : @Minion Scene.backend :=
  Scene.value Scene.advancing
    (apply_ops Scene.advancing (firstn 3 Scene.advance)).

(** A track measured at 500 px/s in its second sample, which then slows
    down and is validated. *)
Definition sprinter : @Minion Scene.backend :=
  Scene.value Scene.jumping (apply_ops Scene.jumping [Scene.seen 600 500 1]).

Definition slowed : list (@TrackOp Scene.backend) :=
  [Scene.seen 610 500 2; Scene.seen 620 500 3].

Definition validated_sprinter : @Minion Scene.backend :=
  Scene.value sprinter (apply_ops sprinter (slowed ++ [Validate 4])).


(** The two tracks of [Scene] in one registry. *)
Definition pair : @MinionDetector Scene.backend :=
  {| minions := [(1%Z, Scene.track_a); (2%Z, Scene.track_b)];
     next_minion_id := 3 |}.

(** Three cycles on that registry: three detections, a crowd twelve seconds
    later, and one detection after that. *)
Definition three_detections : list Point :=
  [Scene.halfway; (300, 300); (400, 400)].

Definition three_cycles
  : list (list Point * @Frame Scene.backend * @Mask Scene.backend * Q) :=
  [(three_detections, Scene.two_tone, tt, 1);
   (Scene.crowd, Scene.two_tone, tt, 13);
   ([(100, 500)], Scene.two_tone, tt, 14)].

Definition after_three : @MinionDetector Scene.backend :=
  Scene.value pair
    (update_minion_tracking pair three_detections Scene.two_tone tt 1).

Definition after_cycles : @MinionDetector Scene.backend :=
  Scene.value pair (run_cycles pair three_cycles).

(** An analyzer for the monitor, an analysis without enemies and four
    placements. *)
Definition analyzer : strategy.StrategyAnalyzer :=
  strategy.StrategyAnalyzer_init 1920 1080.

Definition no_threat : ThreatAnalysis.t :=
  ThreatAnalysis.mk 0 0 0 0 0 0 None [].

Definition placements : list (string * Q) :=
  [("defensive"%string, 1); ("central"%string, 2); ("central"%string, 3)].

End Cases.
(** ** Properties of the primitives *)

Lemma Qltb_true (x y : Q) : Qltb x y = true <-> x < y.
Proof.
  unfold Qltb. rewrite negb_true_iff. split; intro H.
  - apply Qnot_le_lt. intro Hle. apply Qle_bool_iff in Hle. congruence.
  - destruct (Qle_bool y x) eqn:E; [| reflexivity].
    apply Qle_bool_iff in E. exfalso. apply (Qlt_not_le _ _ H E).
Qed.

Lemma Qltb_false (x y : Q) : Qltb x y = false <-> y <= x.
Proof.
  unfold Qltb. rewrite negb_false_iff. apply Qle_bool_iff.
Qed.

Lemma py_div_Ok (a b : Q) : ~ b == 0 -> py_div a b = Ok (a / b).
Proof.
  intro Hb. unfold py_div. destruct (Qeq_bool b 0) eqn:E; [| reflexivity].
  apply Qeq_bool_iff in E. contradiction.
Qed.

Lemma py_div_pos (a b : Q) : 0 < b -> py_div a b = Ok (a / b).
Proof. intro Hb. apply py_div_Ok. intro E. rewrite E in Hb. lra. Qed.

Lemma py_int_floor (x : Q) : 0 <= x -> py_int x = Qfloor x.
Proof.
  destruct x as [n d]. unfold Qle, py_int, Qfloor. simpl. intro H.
  apply Z.quot_div_nonneg; lia.
Qed.

(** ** IEEE 754 doubles: the rounding error *)

Lemma round_half_even_error (n d : Z) :
  (0 < d)%Z ->
  (- d <= 2 * (round_half_even n d * d - n) <= d)%Z.
Proof.
  intro Hd. unfold round_half_even.
  pose proof (Z.div_mod n d ltac:(lia)) as Hdm.
  pose proof (Z.mod_pos_bound n d Hd) as Hr.
  set (q := (n / d)%Z) in *. set (r := (n mod d)%Z) in *.
  destruct (Z.compare_spec (2 * r) d) as [E | L | G].
  - destruct (Z.even q); nia.
  - nia.
  - nia.
Qed.

Lemma round_half_even_exact (k d : Z) :
  (0 < d)%Z -> round_half_even (k * d) d = k.
Proof.
  intro Hd. unfold round_half_even.
  rewrite Z.div_mul by lia. rewrite Z.mod_mul by lia.
  destruct (Z.compare_spec (2 * 0) d); lia.
Qed.

Lemma pow2_pos (k : Z) : (0 < 2 ^ k)%Z \/ (k < 0)%Z.
Proof.
  destruct (Z.le_gt_cases 0 k) as [H | H]; [left | right; exact H].
  apply Z.pow_pos_nonneg; lia.
Qed.

Lemma scale2_pos (n d s : Z) :
  (0 < n)%Z -> (0 < d)%Z ->
  (0 < fst (scale2 n d s))%Z /\ (0 < snd (scale2 n d s))%Z.
Proof.
  intros Hn Hd. unfold scale2.
  destruct (Z.leb_spec 0 s) as [Hs | Hs]; cbn [fst snd].
  - split; [| exact Hd]. apply Z.mul_pos_pos; [exact Hn |].
    apply Z.pow_pos_nonneg; lia.
  - split; [exact Hn |]. apply Z.mul_pos_pos; [exact Hd |].
    apply Z.pow_pos_nonneg; lia.
Qed.

(** The mantissa chosen by [double_pos] is at least 2^52. *)
Lemma mantissa_normal (n d : Z) :
  (0 < n)%Z -> (0 < d)%Z ->
  let e := (Z.log2 n - Z.log2 d)%Z in
  let s := if (fst (scale2 n d (53 - e)) <? 2 ^ 53 * snd (scale2 n d (53 - e)))%Z
           then (53 - e)%Z else (52 - e)%Z in
  (2 ^ 52 * snd (scale2 n d s) <= fst (scale2 n d s))%Z.
Proof.
  intros Hn Hd. cbv zeta.
  pose proof (Z.log2_spec n Hn) as [Hn1 Hn2].
  pose proof (Z.log2_spec d Hd) as [Hd1 Hd2].
  pose proof (Z.log2_nonneg n) as Hln. pose proof (Z.log2_nonneg d) as Hld.
  set (ln := Z.log2 n) in *. set (ld := Z.log2 d) in *.
  set (e := (ln - ld)%Z).
  destruct (Z.ltb_spec (fst (scale2 n d (53 - e)))
              (2 ^ 53 * snd (scale2 n d (53 - e)))) as [Hlt | Hge].
  - (* the binary logarithms place the mantissa above 2^52 *)
    unfold scale2. destruct (Z.leb_spec 0 (53 - e)) as [Hs | Hs]; cbn [fst snd].
    + assert (E : (2 ^ ln * 2 ^ (53 - e) = 2 ^ 52 * 2 ^ (ld + 1))%Z).
      { rewrite <- !Z.pow_add_r by lia. f_equal. subst e. lia. }
      assert (Hp : (0 < 2 ^ (53 - e))%Z) by (apply Z.pow_pos_nonneg; lia).
      replace (Z.succ ld) with (ld + 1)%Z in Hd2 by lia.
      nia.
    + assert (E : (2 ^ 52 * (2 ^ (ld + 1) * 2 ^ (- (53 - e))) = 2 ^ ln)%Z).
      { rewrite <- !Z.pow_add_r by lia. f_equal. subst e. lia. }
      assert (Hp : (0 < 2 ^ (- (53 - e)))%Z) by (apply Z.pow_pos_nonneg; lia).
      replace (Z.succ ld) with (ld + 1)%Z in Hd2 by lia.
      nia.
  - (* one binary place less *)
    unfold scale2 in *.
    destruct (Z.leb_spec 0 (53 - e)) as [Hs | Hs]; cbn [fst snd] in *.
    + destruct (Z.leb_spec 0 (52 - e)) as [Hs' | Hs']; cbn [fst snd].
      * assert (E : (2 ^ (53 - e) = 2 * 2 ^ (52 - e))%Z).
        { replace (53 - e)%Z with (1 + (52 - e))%Z by lia.
          rewrite Z.pow_add_r by lia. reflexivity. }
        rewrite E in Hge. lia.
      * assert (E0 : (53 - e = 0)%Z) by lia. rewrite E0 in Hge.
        replace (- (52 - e))%Z with 1%Z by lia.
        change (2 ^ 0)%Z with 1%Z in Hge. change (2 ^ 1)%Z with 2%Z. lia.
    + destruct (Z.leb_spec 0 (52 - e)) as [Hs' | Hs']; [lia |]. cbn [fst snd].
      assert (E : (2 ^ (- (52 - e)) = 2 * 2 ^ (- (53 - e)))%Z).
      { replace (- (52 - e))%Z with (1 + - (53 - e))%Z by lia.
        rewrite Z.pow_add_r by lia. reflexivity. }
      rewrite E. lia.
Qed.

Lemma inject_Z_pos (z : Z) : (0 < z)%Z -> 0 < inject_Z z.
Proof. intro H. change 0 with (inject_Z 0). rewrite <- Zlt_Qlt. exact H. Qed.

(** Rounding the scaled fraction and scaling back stays within half a unit
    in the last place. *)
Lemma double_pos_error (n d : Z) :
  (0 < n)%Z -> (0 < d)%Z ->
  Qabs (double_pos n d - inject_Z n / inject_Z d)
  <= unit_roundoff * (inject_Z n / inject_Z d).
Proof.
  intros Hn Hd. unfold double_pos.
  pose proof (mantissa_normal n d Hn Hd) as Hman. cbv zeta in Hman.
  set (s := if (_ <? _)%Z then _ else _) in *.
  destruct (scale2_pos n d s Hn Hd) as [HN HD].
  pose proof (round_half_even_error (fst (scale2 n d s)) (snd (scale2 n d s)) HD)
    as Herr.
  set (R := round_half_even _ _) in *.
  assert (HnQ := inject_Z_pos n Hn). assert (HdQ := inject_Z_pos d Hd).
  set (a := inject_Z n / inject_Z d).
  assert (Ha : a * inject_Z d == inject_Z n)
    by (subst a; field; lra).
  unfold scale2, unscale2 in *.
  destruct (Z.leb_spec 0 s) as [Hs | Hs]; cbn [fst snd] in *.
  - assert (HP : (0 < 2 ^ s)%Z) by (apply Z.pow_pos_nonneg; lia).
    assert (HPQ := inject_Z_pos _ HP).
    set (P := inject_Z (2 ^ s)) in *.
    set (v := inject_Z R / P).
    assert (Hv : v * P == inject_Z R) by (subst v; field; lra).
    assert (H1 : - inject_Z d <= 2 * (inject_Z R * inject_Z d - inject_Z n * P)
                 /\ 2 * (inject_Z R * inject_Z d - inject_Z n * P) <= inject_Z d).
    { subst P. rewrite <- !inject_Z_mult, <- inject_Z_opp.
      change 2 with (inject_Z 2).
      unfold Qminus. rewrite <- inject_Z_opp, <- inject_Z_plus, <- inject_Z_mult.
      rewrite <- !Zle_Qle. lia. }
    assert (H2 : inject_Z (2 ^ 52) * inject_Z d <= inject_Z n * P).
    { subst P. rewrite <- !inject_Z_mult, <- Zle_Qle. lia. }
    rewrite <- Hv, <- Ha in H1. rewrite <- Ha in H2.
    assert (H2' : 4503599627370496 * inject_Z d <= a * inject_Z d * P)
      by exact H2.
    apply Qabs_Qle_condition.
    change unit_roundoff with (1 # 9007199254740992).
    assert (Hscale : forall x y,
               x * (P * inject_Z d) <= y * (P * inject_Z d) -> x <= y).
    { intros x y H. apply Qmult_le_r with (z := P * inject_Z d); [| exact H].
      apply Qmult_lt_0_compat; assumption. }
    split; apply Hscale; lra.
  - assert (HP : (0 < 2 ^ (- s))%Z) by (apply Z.pow_pos_nonneg; lia).
    assert (HPQ := inject_Z_pos _ HP).
    rewrite inject_Z_mult.
    set (P := inject_Z (2 ^ (- s))) in *.
    assert (H1 : - (inject_Z d * P)
                 <= 2 * (inject_Z R * (inject_Z d * P) - inject_Z n)
                 /\ 2 * (inject_Z R * (inject_Z d * P) - inject_Z n)
                    <= inject_Z d * P).
    { subst P. rewrite <- !inject_Z_mult, <- inject_Z_opp.
      change 2 with (inject_Z 2).
      unfold Qminus. rewrite <- inject_Z_opp, <- inject_Z_plus, <- inject_Z_mult.
      rewrite <- !Zle_Qle. lia. }
    assert (H2 : inject_Z (2 ^ 52) * (inject_Z d * P) <= inject_Z n).
    { subst P. rewrite <- !inject_Z_mult, <- Zle_Qle. lia. }
    rewrite <- Ha in H1, H2.
    assert (H2' : 4503599627370496 * (inject_Z d * P) <= a * inject_Z d)
      by exact H2.
    apply Qabs_Qle_condition.
    change unit_roundoff with (1 # 9007199254740992).
    assert (Hscale : forall x y, x * inject_Z d <= y * inject_Z d -> x <= y).
    { intros x y H. apply Qmult_le_r with (z := inject_Z d); assumption. }
    split; apply Hscale; lra.
Qed.

Lemma Qred_num_den (x : Q) :
  x == inject_Z (Qnum (Qred x)) / inject_Z (Zpos (Qden (Qred x))).
Proof.
  rewrite <- (Qred_correct x) at 1. destruct (Qred x) as [n d].
  cbn [Qnum Qden]. rewrite (Qmake_Qdiv n d). reflexivity.
Qed.

(** [double] is within a relative [2^-53] of its argument. *)
Lemma double_error (x : Q) :
  Qabs (double x - x) <= unit_roundoff * Qabs x.
Proof.
  unfold double. pose proof (Qred_num_den x) as Hx.
  set (rx := Qred x) in *. clearbody rx.
  destruct rx as [[| n | n] dn]; cbn [Qnum Qden] in *.
  - assert (E0 : x == 0) by (rewrite Hx; reflexivity).
    rewrite E0. apply Qle_bool_iff. reflexivity.
  - rewrite Qred_correct.
    pose proof (double_pos_error (Zpos n) (Zpos dn) ltac:(lia) ltac:(lia)) as H.
    set (a := inject_Z (Zpos n) / inject_Z (Zpos dn)) in *.
    assert (Ha : 0 <= a).
    { subst a. apply Qle_shift_div_l; [reflexivity |].
      rewrite Qmult_0_l. change 0 with (inject_Z 0). rewrite <- Zle_Qle. lia. }
    rewrite Hx, (Qabs_pos a Ha). exact H.
  - rewrite Qred_correct.
    pose proof (double_pos_error (Zpos n) (Zpos dn) ltac:(lia) ltac:(lia)) as H.
    set (a := inject_Z (Zpos n) / inject_Z (Zpos dn)) in *.
    assert (Hneg : x == - a).
    { rewrite Hx. subst a. change (Zneg n) with (- Zpos n)%Z.
      rewrite inject_Z_opp. field. discriminate. }
    assert (Ha : 0 <= a).
    { subst a. apply Qle_shift_div_l; [reflexivity |].
      rewrite Qmult_0_l. change 0 with (inject_Z 0). rewrite <- Zle_Qle. lia. }
    rewrite Hneg, Qabs_opp, (Qabs_pos a Ha).
    assert (E : - double_pos (Zpos n) (Zpos dn) - - a
                == - (double_pos (Zpos n) (Zpos dn) - a)) by ring.
    rewrite E, Qabs_opp. exact H.
Qed.

(** [double] depends on the value of its argument only. *)
Lemma double_compat (x y : Q) : x == y -> double x = double y.
Proof.
  intro E. unfold double. rewrite (Qred_complete x y E). reflexivity.
Qed.

(** An integer below 2^53 in absolute value is a double. *)
Lemma double_pos_int (z : Z) :
  (0 < z < 2 ^ 53)%Z -> double_pos z 1 == inject_Z z.
Proof.
  intros [Hz Hlt]. unfold double_pos.
  change (Z.log2 1) with 0%Z. rewrite Z.sub_0_r.
  assert (He : (0 <= Z.log2 z < 53)%Z).
  { split; [apply Z.log2_nonneg |]. apply Z.log2_lt_pow2; lia. }
  pose proof (Z.log2_spec z Hz) as [Hl _].
  set (e := Z.log2 z) in *.
  assert (Hs1 : scale2 z 1 (53 - e) = (z * 2 ^ (53 - e), 1)%Z).
  { unfold scale2. destruct (Z.leb_spec 0 (53 - e)); [reflexivity | lia]. }
  rewrite Hs1. cbn [fst snd].
  assert (Hge : (2 ^ 53 * 1 <= z * 2 ^ (53 - e))%Z).
  { assert (E : (2 ^ 53 = 2 ^ e * 2 ^ (53 - e))%Z).
    { rewrite <- Z.pow_add_r by lia. f_equal. lia. }
    rewrite Z.mul_1_r, E. apply Z.mul_le_mono_nonneg_r; [| exact Hl].
    apply Z.pow_nonneg. lia. }
  replace (z * 2 ^ (53 - e) <? 2 ^ 53 * 1)%Z with false
    by (symmetry; apply Z.ltb_ge; exact Hge).
  assert (Hs2 : scale2 z 1 (52 - e) = (z * 2 ^ (52 - e), 1)%Z).
  { unfold scale2. destruct (Z.leb_spec 0 (52 - e)); [reflexivity | lia]. }
  rewrite Hs2. cbn [fst snd].
  replace (z * 2 ^ (52 - e))%Z with (z * 2 ^ (52 - e) * 1)%Z at 1 by lia.
  rewrite round_half_even_exact by lia.
  unfold unscale2. destruct (Z.leb_spec 0 (52 - e)) as [_ | Hneg]; [| lia].
  assert (HP : (0 < 2 ^ (52 - e))%Z) by (apply Z.pow_pos_nonneg; lia).
  pose proof (inject_Z_pos _ HP) as HPQ.
  rewrite inject_Z_mult. field. lra.
Qed.

Lemma Qred_inject_Z (z : Z) : Qred (inject_Z z) = inject_Z z.
Proof.
  pose proof (Qred_correct (inject_Z z)) as H1.
  pose proof (gcd_Qred (inject_Z z)) as H2.
  destruct (Qred (inject_Z z)) as [n d]. unfold Qeq in H1.
  cbn [Qnum Qden inject_Z] in *. rewrite Z.mul_1_r in H1. subst n.
  assert (Hd : Z.pos d = 1%Z).
  { rewrite <- H2. symmetry. rewrite Z.gcd_comm, Z.mul_comm.
    apply Z.gcd_mul_diag_l. lia. }
  injection Hd as ->. rewrite Z.mul_1_r. reflexivity.
Qed.

Lemma double_int (z : Z) :
  (Z.abs z < 2 ^ 53)%Z -> double (inject_Z z) == inject_Z z.
Proof.
  intro Hz. unfold double. rewrite Qred_inject_Z. cbn [inject_Z Qnum Qden].
  destruct z as [| p | p].
  - reflexivity.
  - rewrite Qred_correct. apply double_pos_int. lia.
  - rewrite Qred_correct.
    rewrite (double_pos_int (Zpos p)) by lia. reflexivity.
Qed.

(** The bounds of a rounded non-negative value. *)
Lemma double_bounds (x : Q) :
  0 <= x ->
  (1 - unit_roundoff) * x <= double x /\ double x <= (1 + unit_roundoff) * x.
Proof.
  intro Hx. pose proof (double_error x) as H.
  rewrite (Qabs_pos x Hx) in H. apply Qabs_Qle_condition in H.
  destruct H as [H1 H2]. split; lra.
Qed.

(** Rounding keeps the sign. *)
Lemma double_nonneg (x : Q) : 0 <= x -> 0 <= double x.
Proof.
  intro Hx. destruct (double_bounds x Hx) as [H _].
  change unit_roundoff with (1 # 9007199254740992) in H. lra.
Qed.

(** The roundings at work, with the values Python computes:
    [0.5125 * 1920] is [983.9999999999999], so [int] gives 983;
    [2.2 - 1.4] is [0.8000000000000003], above [0.8]; and
    [1774.1 + (30.1 - 1774.1) * 1.0] is [30.09999999999991], below [30.1]. *)
Example double_arithmetic_examples :
  py_int (fmul (double 0.5125) (float_of_int 1920)) = 983%Z /\
  Qltb (double 0.8) (fsub (double 2.2) (double 1.4)) = true /\
  fadd (double 1774.1) (fmul (fsub (double 30.1) (double 1774.1)) 1)
  < double 30.1.
Proof.
  repeat split; vm_compute; reflexivity.
Qed.

(** ** utils.py: the two conversions *)

(** One coordinate of the round trip: the pixel and the ratio it gives. *)
Lemma pixel_ratio_bounds (r : Q) (w : Z) :
  0 <= r -> r <= 1 -> (0 < w)%Z ->
  let px := py_int (fmul r (float_of_int w)) in
  let r' := double (inject_Z px / inject_Z w) in
  r' <= r + float_tolerance /\
  r < r' + 1 / inject_Z w + float_tolerance.
Proof.
  intros Hr0 Hr1 Hw. cbv zeta. unfold fmul, float_of_int.
  assert (HW : 0 < inject_Z w) by (apply inject_Z_pos; exact Hw).
  set (W := inject_Z w) in *.
  assert (HW0 : 0 <= W) by lra.
  destruct (double_bounds W HW0) as [Hwf1 Hwf2].
  set (wf := double W) in *.
  assert (Hwf0 : 0 <= wf).
  { change unit_roundoff with (1 # 9007199254740992) in Hwf1. lra. }
  assert (Hm2 : 0 <= r * wf) by (apply Qmult_le_0_compat; assumption).
  destruct (double_bounds (r * wf) Hm2) as [Hpf1 Hpf2].
  set (pf := double (r * wf)) in *.
  assert (Hpf0 : 0 <= pf).
  { change unit_roundoff with (1 # 9007199254740992) in Hpf1. lra. }
  rewrite (py_int_floor _ Hpf0).
  pose proof (Qfloor_le pf) as Hpx2.
  pose proof (Qlt_floor pf) as Hpx1.
  rewrite inject_Z_plus in Hpx1. change (inject_Z 1) with 1 in Hpx1.
  assert (Hpx0 : 0 <= inject_Z (Qfloor pf)).
  { change 0 with (inject_Z 0). rewrite <- Zle_Qle.
    rewrite <- (Qfloor_Z 0). apply Qfloor_resp_le. exact Hpf0. }
  set (PX := inject_Z (Qfloor pf)) in *.
  assert (Hq0 : 0 <= PX / W).
  { apply Qle_shift_div_l; [exact HW | lra]. }
  destruct (double_bounds (PX / W) Hq0) as [Hr1' Hr2'].
  set (r' := double (PX / W)) in *.
  assert (HqW : PX / W * W == PX) by (field; lra).
  (* the bounds of r' and of r * wf, scaled by the width *)
  assert (Hr'W : (1 - unit_roundoff) * PX <= r' * W
                 /\ r' * W <= (1 + unit_roundoff) * PX).
  { rewrite <- HqW. split.
    - rewrite Qmult_assoc. apply Qmult_le_compat_r; [exact Hr1' | exact HW0].
    - rewrite Qmult_assoc. apply Qmult_le_compat_r; [exact Hr2' | exact HW0]. }
  assert (Hrwf : (1 - unit_roundoff) * (r * W) <= r * wf
                 /\ r * wf <= (1 + unit_roundoff) * (r * W)).
  { assert (H1 : (1 - unit_roundoff) * W * r <= wf * r)
      by (apply Qmult_le_compat_r; assumption).
    assert (H2 : wf * r <= (1 + unit_roundoff) * W * r)
      by (apply Qmult_le_compat_r; assumption).
    split; lra. }
  assert (HrW : r * W <= W).
  { rewrite <- (Qmult_1_l W) at 2. apply Qmult_le_compat_r; assumption. }
  assert (HrW0 : 0 <= r * W) by (apply Qmult_le_0_compat; assumption).
  destruct Hr'W as [Hr'W1 Hr'W2]. destruct Hrwf as [Hrwf1 Hrwf2].
  change unit_roundoff with (1 # 9007199254740992) in *.
  unfold float_tolerance.
  change unit_roundoff with (1 # 9007199254740992).
  split.
  - apply Qmult_le_r with (z := W); [exact HW |]. lra.
  - apply Qmult_lt_r with (z := W); [exact HW |].
    assert (E : (r' + 1 / W + 4 * (1 # 9007199254740992)) * W
                == r' * W + 1 + 4 * (1 # 9007199254740992) * W)
      by (field; lra).
    rewrite E. lra.
Qed.

(** C4 (as stated, refuted): on the configured defensive positions and the
    configured 1920x1080 monitor, the round trip does not return the original
    ratios within a tolerance of [1e-5]; [ratio_to_pixels] truncates to whole
    pixels. *)
Lemma ratio_roundtrip_not_identity :
  ~ roundtrip_within (1 # 100000) config.DEFENSIVE_POSITIONS_RATIOS
      config.MONITOR_width config.MONITOR_height.
Proof.
  intros [out [Hout Hall]].
  vm_compute in Hout. inversion Hout; subst out; clear Hout.
  inversion Hall as [| r r' l l' [Hx _] _]; subst.
  vm_compute in Hx. apply Hx. reflexivity.
Qed.

(** C4 (amended): for ratios in [0,1]x[0,1] and positive frame dimensions,
    [ratio_to_pixels] followed by [pixels_to_ratio] returns without raising
    and gives, for each coordinate, a ratio less than one pixel (1/width,
    1/height) plus the float tolerance [4 * 2^-53] below the original, and at
    most that tolerance above it: the round trip is the original up to one
    pixel of truncation and the rounding of three float operations. *)
Theorem ratio_roundtrip_within_one_pixel
  (ratio_list : list (Q * Q)) (frame_width frame_height : Z) :
  (0 < frame_width)%Z -> (0 < frame_height)%Z ->
  Forall (fun r => (0 <= fst r /\ fst r <= 1) /\ (0 <= snd r /\ snd r <= 1))
    ratio_list ->
  exists out,
    pixels_to_ratio (ratio_to_pixels ratio_list frame_width frame_height)
      frame_width frame_height = Ok out /\
    Forall2 (within_one_pixel frame_width frame_height) ratio_list out.
Proof.
  intros Hw Hh Hall.
  assert (HwQ : Qeq_bool (inject_Z frame_width) 0 = false).
  { destruct (Qeq_bool (inject_Z frame_width) 0) eqn:E; [| reflexivity].
    apply Qeq_bool_iff in E. unfold Qeq in E. simpl in E. lia. }
  assert (HhQ : Qeq_bool (inject_Z frame_height) 0 = false).
  { destruct (Qeq_bool (inject_Z frame_height) 0) eqn:E; [| reflexivity].
    apply Qeq_bool_iff in E. unfold Qeq in E. simpl in E. lia. }
  induction Hall as [| [rx ry] rest [[Hx0 Hx1] [Hy0 Hy1]] _ IH].
  - exists []. split; [reflexivity | constructor].
  - destruct IH as [out [Hout Hrest]].
    cbn [ratio_to_pixels map pixels_to_ratio] in *.
    unfold fdiv at 1 2. rewrite HwQ, HhQ. cbn [bind].
    fold (ratio_to_pixels rest frame_width frame_height).
    rewrite Hout. cbn [bind]. eexists. split; [reflexivity |].
    constructor; [| exact Hrest].
    split; cbn [fst snd]; apply pixel_ratio_bounds; assumption.
Qed.

(** C4, on the configured positions, and on inputs where the rounding
    shows: the double 0.58 on a frame 100 wide gives pixel 57 and comes back
    as 0.57, more than 1/100 below it; and the double [0x1.8888888888888p-7]
    on a frame 1920 wide gives pixel 23 and comes back above itself. *)
Lemma ratio_roundtrip_within_one_pixel_witness :
  (exists out,
     pixels_to_ratio
       (ratio_to_pixels config.DEFENSIVE_POSITIONS_RATIOS 1920 1080) 1920 1080
     = Ok out /\
     Forall2 (within_one_pixel 1920 1080) config.DEFENSIVE_POSITIONS_RATIOS out) /\
  ratio_to_pixels [(double 0.5125, double 0.58)] 1920 100 = [(983, 57)%Z] /\
  pixels_to_ratio [(983, 57)%Z] 1920 100
  = Ok [(double (983 # 1920), double 0.57)] /\
  double 0.57 + 1 / 100 < double 0.58 /\
  double (863189928579345 # 72057594037927936)
  == 863189928579345 # 72057594037927936 /\
  ratio_to_pixels [(863189928579345 # 72057594037927936, 0)] 1920 1080
  = [(23, 0)%Z] /\
  pixels_to_ratio [(23, 0)%Z] 1920 1080
  = Ok [(6905519428634761 # 576460752303423488, 0)] /\
  863189928579345 # 72057594037927936
  < 6905519428634761 # 576460752303423488.
Proof.
  split.
  - apply (ratio_roundtrip_within_one_pixel
             config.DEFENSIVE_POSITIONS_RATIOS 1920 1080).
    + lia.
    + lia.
    + unfold config.DEFENSIVE_POSITIONS_RATIOS.
      repeat (apply Forall_cons || apply Forall_nil); cbn [fst snd];
        repeat split; apply Qle_bool_iff; vm_compute; reflexivity.
  - repeat split; vm_compute; reflexivity.
Defined.

(** ** Lists, indices and bounded histories *)

Lemma py_index_Ok {A : Type} (l : list A) (i : Z) :
  (- Z.of_nat (length l) <= i < Z.of_nat (length l))%Z ->
  exists x, py_index l i = Ok x.
Proof.
  intro Hi. unfold py_index.
  set (j := if (i <? 0)%Z then (i + Z.of_nat (length l))%Z else i).
  assert (Hj : (0 <= j < Z.of_nat (length l))%Z).
  { subst j. destruct (Z.ltb_spec i 0); lia. }
  replace ((0 <=? j)%Z && (j <? Z.of_nat (length l))%Z) with true
    by (symmetry; apply andb_true_iff; split; [apply Z.leb_le | apply Z.ltb_lt]; lia).
  destruct (nth_error l (Z.to_nat j)) as [x |] eqn:E.
  - exists x. reflexivity.
  - apply nth_error_None in E. lia.
Qed.

Lemma py_index_last {A : Type} (l : list A) (x : A) :
  py_index (l ++ [x]) (-1) = Ok x.
Proof.
  unfold py_index. rewrite length_app. simpl length.
  replace (-1 <? 0)%Z with true by reflexivity.
  replace (-1 + Z.of_nat (length l + 1))%Z with (Z.of_nat (length l)) by lia.
  replace ((0 <=? Z.of_nat (length l))%Z
           && (Z.of_nat (length l) <? Z.of_nat (length l + 1))%Z) with true
    by (symmetry; apply andb_true_iff; split; [apply Z.leb_le | apply Z.ltb_lt]; lia).
  rewrite Nat2Z.id, nth_error_app2 by lia.
  rewrite Nat.sub_diag. reflexivity.
Qed.

Lemma py_index_nonempty {A : Type} (l : list A) :
  l <> [] -> exists x, py_index l (-1) = Ok x.
Proof.
  intro Hl. apply py_index_Ok. destruct l; [congruence | simpl length; lia].
Qed.

Lemma py_index_In {A : Type} (l : list A) (i : Z) (x : A) :
  py_index l i = Ok x -> In x l.
Proof.
  unfold py_index. destruct (_ && _); [| discriminate].
  destruct (nth_error l _) eqn:E; [| discriminate].
  intro H. injection H as <-. eapply nth_error_In. exact E.
Qed.

Lemma length_slice_last {A : Type} (k : nat) (l : list A) :
  length (slice_last k l) = Nat.min k (length l).
Proof. unfold slice_last. rewrite length_skipn. lia. Qed.

Lemma length_deque_append {A : Type} (n : nat) (d : list A) (x : A) :
  length (deque_append n d x) = Nat.min n (S (length d)).
Proof.
  unfold deque_append. rewrite length_skipn, length_app. simpl. lia.
Qed.

Lemma deque_append_skipn {A : Type} (n : nat) (d : list A) (x : A) :
  deque_append n d x = skipn (S (length d) - n) d ++ [x] \/ n = 0%nat.
Proof.
  destruct n as [| n]; [right; reflexivity | left].
  unfold deque_append. rewrite length_app. simpl length.
  rewrite skipn_app.
  replace (length d + 1 - S n - length d)%nat with 0%nat by lia.
  replace (length d + 1 - S n)%nat with (S (length d) - S n)%nat by lia.
  reflexivity.
Qed.

Lemma deque_append_last {A : Type} (n : nat) (d : list A) (x : A) :
  (0 < n)%nat -> py_index (deque_append n d x) (-1) = Ok x.
Proof.
  intro Hn. destruct (deque_append_skipn n d x) as [-> | ->]; [| lia].
  apply py_index_last.
Qed.

Lemma deque_append_nonempty {A : Type} (n : nat) (d : list A) (x : A) :
  (0 < n)%nat -> deque_append n d x <> [].
Proof.
  intros Hn E. apply (f_equal (@length A)) in E.
  rewrite length_deque_append in E. simpl in E. lia.
Qed.

(** ** minion.py: what each method changes, and that it returns *)

(** Inversion of a computation that returned. *)
Ltac inv_result :=
  repeat match goal with
    | H : Ok _ = Ok ?y |- _ => injection H as H; try (is_var y; subst y)
    | H : Raise _ = Ok _ |- _ => discriminate H
    | H : bind ?c _ = Ok _ |- _ =>
        let E := fresh "E" in
        destruct c eqn:E; cbn [bind] in H; [| discriminate H]
    | H : (if ?b then _ else _) = Ok _ |- _ =>
        let E := fresh "E" in destruct b eqn:E
    end.

(** Reduction of field accesses on updated tracks: [track_cbn] keeps the
    accesses to a track that is a variable, [track_norm] is for a track given
    by its fields. *)
Ltac track_cbn_in H :=
  cbn [bind negb fst snd
       id positions timestamps creation_time last_seen active hist spawn_side
       current_side general_direction optimal_bridge frame_width frame_height
       total_distance_traveled original_classification is_valid_minion
       consecutive_stationary_frames max_speed predicted_positions velocity
       acceleration
       set_positions set_timestamps set_last_seen set_active set_hist
       set_current_side set_general_direction set_optimal_bridge
       set_total_distance_traveled set_original_classification
       set_is_valid_minion set_consecutive_stationary_frames set_max_speed
       set_predicted_positions set_velocity set_acceleration] in H.

Ltac track_cbn :=
  cbn [bind negb fst snd
       id positions timestamps creation_time last_seen active hist spawn_side
       current_side general_direction optimal_bridge frame_width frame_height
       total_distance_traveled original_classification is_valid_minion
       consecutive_stationary_frames max_speed predicted_positions velocity
       acceleration
       set_positions set_timestamps set_last_seen set_active set_hist
       set_current_side set_general_direction set_optimal_bridge
       set_total_distance_traveled set_original_classification
       set_is_valid_minion set_consecutive_stationary_frames set_max_speed
       set_predicted_positions set_velocity set_acceleration].

Ltac track_norm_in H :=
  cbn [bind] in H;
  cbv [id positions timestamps creation_time last_seen active hist spawn_side
       current_side general_direction optimal_bridge frame_width frame_height
       total_distance_traveled original_classification is_valid_minion
       consecutive_stationary_frames max_speed predicted_positions velocity
       acceleration
       set_positions set_timestamps set_last_seen set_active set_hist
       set_current_side set_general_direction set_optimal_bridge
       set_total_distance_traveled set_original_classification
       set_is_valid_minion set_consecutive_stationary_frames set_max_speed
       set_predicted_positions set_velocity set_acceleration] in H.

Ltac track_norm :=
  cbn [bind];
  cbv [id positions timestamps creation_time last_seen active hist spawn_side
       current_side general_direction optimal_bridge frame_width frame_height
       total_distance_traveled original_classification is_valid_minion
       consecutive_stationary_frames max_speed predicted_positions velocity
       acceleration
       set_positions set_timestamps set_last_seen set_active set_hist
       set_current_side set_general_direction set_optimal_bridge
       set_total_distance_traveled set_original_classification
       set_is_valid_minion set_consecutive_stationary_frames set_max_speed
       set_predicted_positions set_velocity set_acceleration].

(** Case analysis on every test a returned computation went through. *)
Ltac split_conditions H :=
  repeat (track_norm_in H;
          match type of H with
          | Raise _ = Ok _ => discriminate H
          | context [if ?b then _ else _] => destruct b eqn:?
          | context [match ?x with Some _ => _ | None => _ end] =>
              destruct x eqn:?
          | context [bind ?c _] => destruct c eqn:?
          end).

Section TrackFacts.

Context {backend : Backend}.

Lemma estimate_kinematics_frame (self self' : Minion) rp rt :
  estimate_kinematics self rp rt = Ok self' ->
  exists v a, self' = set_velocity v (set_acceleration a self).
Proof.
  unfold estimate_kinematics. intro H. inv_result;
    destruct self; do 2 eexists; reflexivity.
Qed.

Lemma calculate_prediction_frame (self self' : Minion) (current_time : Q) :
  calculate_prediction self current_time = Ok self' ->
  exists v a pp,
    self' = set_predicted_positions pp (set_velocity v (set_acceleration a self)).
Proof.
  unfold calculate_prediction. intro H.
  destruct (_ <? _)%nat.
  - inv_result. destruct self. do 3 eexists. reflexivity.
  - destruct (estimate_kinematics _ _ _) as [m |] eqn:E; cbn [bind] in H;
      [| discriminate].
    apply estimate_kinematics_frame in E. destruct E as [v [a ->]].
    inv_result; destruct self; do 3 eexists; reflexivity.
Qed.

Lemma calculate_direction_and_bridge_frame (self self' : Minion) :
  calculate_direction_and_bridge self = Ok self' ->
  exists gd oc cs ob,
    self' = set_general_direction gd
              (set_original_classification oc
                 (set_current_side cs (set_optimal_bridge ob self))) /\
    ((length (positions self) < 5)%nat -> gd = general_direction self) /\
    (forall c, original_classification self = Some c -> oc = Some c).
Proof.
  unfold calculate_direction_and_bridge. intro H.
  destruct (Nat.ltb_spec (length (positions self)) 5) as [Hlt | Hge].
  - inv_result. destruct self. do 4 eexists.
    split; [reflexivity |]. simpl. split; [reflexivity | intros c Hc; exact Hc].
  - destruct self. split_conditions H;
      injection H as <-;
      (do 4 eexists; split; [reflexivity |]);
      track_norm; track_norm_in Hge;
      (split; [intro; lia | intros c Hc; congruence]).
Qed.

Lemma estimate_kinematics_returns (self : Minion) rp rt :
  length rp = length rt ->
  exists self', estimate_kinematics self rp rt = Ok self'.
Proof.
  intro Hlen. unfold estimate_kinematics.
  destruct (Nat.leb_spec 3 (length rp)) as [H3 | _]; [| eexists; reflexivity].
  destruct (py_index_Ok rt (-1)) as [t_last ->]; [lia |].
  destruct (py_index_Ok rt 0) as [t_first ->]; [lia |].
  cbn [bind].
  destruct (Qltb 0 (t_last - t_first)) eqn:Hspan; [| eexists; reflexivity].
  apply Qltb_true in Hspan.
  destruct (py_index_Ok rp (-1)) as [p_last ->]; [lia |].
  destruct (py_index_Ok rp 0) as [p_first ->]; [lia |].
  cbn [bind]. rewrite !(py_div_pos _ _ Hspan). cbn [bind].
  destruct (Nat.leb_spec 6 (length rp)) as [H6 | _]; [| eexists; reflexivity].
  assert (Hmid : (- Z.of_nat (length rp) <= Z.of_nat (length rp) / 2
                  < Z.of_nat (length rp))%Z).
  { split.
    - pose proof (Z.div_pos (Z.of_nat (length rp)) 2). lia.
    - apply Z.div_lt_upper_bound; lia. }
  destruct (py_index_Ok rt (Z.of_nat (length rp) / 2)) as [t_mid ->];
    [rewrite <- Hlen; exact Hmid |].
  cbn [bind].
  destruct (Qltb 0 (t_mid - t_first) && Qltb 0 (t_last - t_mid)) eqn:Hs;
    [| eexists; reflexivity].
  apply andb_true_iff in Hs. destruct Hs as [Hs1 Hs2].
  apply Qltb_true in Hs1, Hs2.
  destruct (py_index_Ok rp (Z.of_nat (length rp) / 2)) as [p_mid ->];
    [exact Hmid |].
  repeat progress
    (cbn [bind]; rewrite ?(py_div_pos _ _ Hs1), ?(py_div_pos _ _ Hs2)).
  eexists; reflexivity.
Qed.

Lemma calculate_prediction_returns (self : Minion) (current_time : Q) :
  positions self <> [] ->
  length (positions self) = length (timestamps self) ->
  exists self', calculate_prediction self current_time = Ok self'.
Proof.
  intros Hne Hlen. unfold calculate_prediction.
  destruct (_ <? _)%nat; [eauto |].
  destruct (estimate_kinematics_returns self
              (slice_last 10 (positions self)) (slice_last 10 (timestamps self)))
    as [self1 E].
  { rewrite !length_slice_last. lia. }
  rewrite E. cbn [bind].
  apply estimate_kinematics_frame in E. destruct E as [v [a ->]].
  destruct (_ || _); [| eauto].
  destruct (py_index_nonempty (positions self) Hne) as [last_pos Hlast].
  track_cbn. rewrite Hlast. cbn [bind]. eauto.
Qed.

Lemma calculate_direction_and_bridge_returns (self : Minion) :
  frame_height self <> 0%Z ->
  exists self', calculate_direction_and_bridge self = Ok self'.
Proof.
  intro Hh. unfold calculate_direction_and_bridge.
  destruct (Nat.ltb_spec (length (positions self)) 5) as [_ | Hge]; [eauto |].
  destruct (py_index_Ok (positions self) 0) as [start_pos ->]; [lia |].
  destruct (py_index_Ok (positions self) (-1)) as [current_pos ->]; [lia |].
  cbn [bind].
  assert (Hdiv : forall s : Minion, frame_height s = frame_height self ->
            py_div (snd current_pos) (inject_Z (frame_height s))
            = Ok (snd current_pos / inject_Z (frame_height s))).
  { intros s Hs. apply py_div_Ok. rewrite Hs. unfold Qeq. simpl. lia. }
  rewrite Hdiv; [cbn [bind]; eauto |].
  destruct self. track_norm.
  repeat match goal with
    | |- context [if ?b then _ else _] => destruct b; track_norm
    | |- context [match ?x with Some _ => _ | None => _ end] =>
        destruct x; track_norm
    end; reflexivity.
Qed.

Lemma bind_Ok_inv {A B : Type} (c : result A) (k : A -> result B) (b : B) :
  bind c k = Ok b -> exists a, c = Ok a /\ k a = Ok b.
Proof.
  destruct c as [a |]; simpl; intro H; [| discriminate]. exists a. auto.
Qed.

(** Everything [update_position] does to a track, when it returns. *)
Lemma update_position_inv (self self' : Minion) (position : Point)
  (frame : Frame) (mask : Mask) (timestamp : Q) :
  update_position self position frame mask timestamp = Ok self' ->
  exists last_pos t_last,
    py_index (positions self) (-1) = Ok last_pos /\
    py_index (timestamps self) (-1) = Ok t_last /\
    let distance :=
      hypot (fst position - fst last_pos) (snd position - snd last_pos) in
    let time_diff := timestamp - t_last in
    positions self' = deque_append 80 (positions self) position /\
    timestamps self' = deque_append 80 (timestamps self) timestamp /\
    total_distance_traveled self' = total_distance_traveled self + distance /\
    last_seen self' = timestamp /\
    active self' = true /\
    hist self' = compute_hist frame mask position /\
    (id self' = id self /\ creation_time self' = creation_time self /\
     spawn_side self' = spawn_side self /\
     frame_width self' = frame_width self /\
     frame_height self' = frame_height self /\
     is_valid_minion self' = is_valid_minion self) /\
    (if Qltb 0 time_diff then
       max_speed self' = py_max (max_speed self) (distance / time_diff) /\
       consecutive_stationary_frames self' =
         (if Qltb distance config.STATIONARY_THRESHOLD
          then consecutive_stationary_frames self + 1 else 0)%Z
     else
       max_speed self' = max_speed self /\
       consecutive_stationary_frames self' = consecutive_stationary_frames self) /\
    (forall c, original_classification self = Some c ->
               original_classification self' = Some c) /\
    ((length (positions self') < 5)%nat ->
     general_direction self' = general_direction self).
Proof.
  intro H. unfold update_position in H.
  apply bind_Ok_inv in H. destruct H as (last_pos & Epos & H).
  apply bind_Ok_inv in H. destruct H as (t_last & Ets & H).
  apply bind_Ok_inv in H. destruct H as (self1 & Espeed & H).
  apply bind_Ok_inv in H. destruct H as (self2 & Edir & H).
  exists last_pos, t_last. split; [exact Epos |]. split; [exact Ets |].
  cbv zeta.
  apply calculate_prediction_frame in H. destruct H as (v & a & pp & E').
  apply calculate_direction_and_bridge_frame in Edir.
  destruct Edir as (gd & oc & cs & ob & E2 & Hgd & Hoc).
  set (distance := hypot (fst position - fst last_pos) (snd position - snd last_pos)) in *.
  assert (F1 : positions self' = positions self2 /\
               timestamps self' = timestamps self2 /\
               total_distance_traveled self' = total_distance_traveled self2 /\
               last_seen self' = last_seen self2 /\
               active self' = active self2 /\
               hist self' = hist self2 /\
               id self' = id self2 /\
               creation_time self' = creation_time self2 /\
               spawn_side self' = spawn_side self2 /\
               frame_width self' = frame_width self2 /\
               frame_height self' = frame_height self2 /\
               is_valid_minion self' = is_valid_minion self2 /\
               max_speed self' = max_speed self2 /\
               consecutive_stationary_frames self' =
                 consecutive_stationary_frames self2 /\
               original_classification self' = original_classification self2 /\
               general_direction self' = general_direction self2).
  { rewrite E'. repeat split. }
  assert (F2 : positions self2 = deque_append 80 (positions self1) position /\
               timestamps self2 = deque_append 80 (timestamps self1) timestamp /\
               total_distance_traveled self2 =
                 total_distance_traveled self1 + distance /\
               last_seen self2 = timestamp /\
               active self2 = true /\
               hist self2 = compute_hist frame mask position /\
               id self2 = id self1 /\
               creation_time self2 = creation_time self1 /\
               spawn_side self2 = spawn_side self1 /\
               frame_width self2 = frame_width self1 /\
               frame_height self2 = frame_height self1 /\
               is_valid_minion self2 = is_valid_minion self1 /\
               max_speed self2 = max_speed self1 /\
               consecutive_stationary_frames self2 =
                 consecutive_stationary_frames self1 /\
               original_classification self2 = oc /\
               general_direction self2 = gd).
  { rewrite E2. repeat split. }
  assert (F3 : positions self1 = positions self /\
               timestamps self1 = timestamps self /\
               total_distance_traveled self1 = total_distance_traveled self /\
               id self1 = id self /\
               creation_time self1 = creation_time self /\
               spawn_side self1 = spawn_side self /\
               frame_width self1 = frame_width self /\
               frame_height self1 = frame_height self /\
               is_valid_minion self1 = is_valid_minion self /\
               original_classification self1 = original_classification self /\
               general_direction self1 = general_direction self /\
               (if Qltb 0 (timestamp - t_last) then
                  max_speed self1 =
                    py_max (max_speed self) (distance / (timestamp - t_last)) /\
                  consecutive_stationary_frames self1 =
                    (if Qltb distance config.STATIONARY_THRESHOLD
                     then consecutive_stationary_frames self + 1 else 0)%Z
                else
                  max_speed self1 = max_speed self /\
                  consecutive_stationary_frames self1 =
                    consecutive_stationary_frames self)).
  { destruct (Qltb 0 (timestamp - t_last)) eqn:Hdt.
    - apply bind_Ok_inv in Espeed. destruct Espeed as (speed & Ediv & Espeed).
      apply Qltb_true in Hdt. rewrite (py_div_pos _ _ Hdt) in Ediv.
      injection Ediv as <-. injection Espeed as <-.
      destruct (Qltb distance config.STATIONARY_THRESHOLD); repeat split.
    - injection Espeed as <-. repeat split. }
  destruct F1 as (-> & -> & -> & -> & -> & -> & -> & -> & -> & -> & -> & -> & -> & -> & -> & ->).
  destruct F2 as (Hp2 & -> & -> & -> & -> & -> & -> & -> & -> & -> & -> & -> & -> & -> & Hoc2 & Hgd2).
  destruct F3 as (Hp3 & -> & -> & -> & -> & -> & -> & -> & -> & Hoc3 & Hgd3 & Hspeed).
  rewrite Hp2, Hp3, Hoc2, Hgd2.
  assert (Hp : positions
                 (set_hist (compute_hist frame mask position)
                    (set_active true
                       (set_last_seen timestamp
                          (set_timestamps
                             (deque_append 80
                                (timestamps
                                   (set_positions
                                      (deque_append 80
                                         (positions
                                            (set_total_distance_traveled
                                               (total_distance_traveled self1 + distance)
                                               self1))
                                         position)
                                      (set_total_distance_traveled
                                         (total_distance_traveled self1 + distance)
                                         self1)))
                                timestamp)
                             (set_positions
                                (deque_append 80
                                   (positions
                                      (set_total_distance_traveled
                                         (total_distance_traveled self1 + distance)
                                         self1))
                                   position)
                                (set_total_distance_traveled
                                   (total_distance_traveled self1 + distance)
                                   self1))))))
               = deque_append 80 (positions self) position)
    by (rewrite <- Hp3; reflexivity).
  repeat split; auto.
  - intros c Hc. apply Hoc. rewrite <- Hoc3 in Hc. exact Hc.
  - intro Hlt. rewrite <- Hgd3. apply Hgd. rewrite Hp. exact Hlt.
Qed.

Lemma update_position_returns (self : Minion) (position : Point)
  (frame : Frame) (mask : Mask) (timestamp : Q) :
  well_formed self ->
  exists self',
    update_position self position frame mask timestamp = Ok self' /\
    well_formed self'.
Proof.
  intros (Hne & Hlen & Hh).
  assert (Hret : exists self',
             update_position self position frame mask timestamp = Ok self').
  { unfold update_position.
    destruct (py_index_nonempty (positions self) Hne) as [last_pos ->].
    destruct (py_index_nonempty (timestamps self)) as [t_last ->].
    { intro E. rewrite E in Hlen. destruct (positions self); [congruence | discriminate]. }
    cbn [bind].
    set (distance := hypot _ _).
    set (speed_block := if Qltb 0 (timestamp - t_last) then _ else _).
    assert (Hblock : exists self1, speed_block = Ok self1 /\
              positions self1 = positions self /\
              timestamps self1 = timestamps self /\
              frame_height self1 = frame_height self).
    { subst speed_block. destruct (Qltb 0 (timestamp - t_last)) eqn:Hdt.
      - apply Qltb_true in Hdt. rewrite (py_div_pos _ _ Hdt). cbn [bind].
        destruct (Qltb distance config.STATIONARY_THRESHOLD);
          eexists; (split; [reflexivity |]); repeat split.
      - eexists. split; [reflexivity |]. repeat split. }
    destruct Hblock as [self1 [-> [Hp1 [Ht1 Hh1]]]]. cbn [bind].
    match goal with
    | |- exists _, bind (calculate_direction_and_bridge ?m) _ = _ =>
        destruct (calculate_direction_and_bridge_returns m) as [self2 E2];
        [ track_cbn; congruence | rewrite E2; cbn [bind] ];
        apply calculate_direction_and_bridge_frame in E2;
        destruct E2 as [gd [oc [cs [ob [-> _]]]]]
    end.
    apply calculate_prediction_returns; track_cbn.
    - apply deque_append_nonempty. lia.
    - rewrite !length_deque_append. congruence. }
  destruct Hret as [self' Hret]. exists self'. split; [exact Hret |].
  destruct (update_position_inv _ _ _ _ _ _ Hret)
    as (last_pos & t_last & _ & _ & Hp & Ht & _ & _ & _ & _ & Hsame & _).
  destruct Hsame as (_ & _ & _ & _ & Hfh & _).
  unfold well_formed. rewrite Hp, Ht, Hfh. repeat split.
  - apply deque_append_nonempty. lia.
  - rewrite !length_deque_append. congruence.
  - exact Hh.
Qed.

Lemma Minion_init_well_formed id position frame mask frame_width frame_height timestamp :
  frame_height <> 0%Z ->
  well_formed (Minion_init id position frame mask frame_width frame_height timestamp).
Proof.
  intro Hh. unfold well_formed, Minion_init. simpl.
  repeat split; [discriminate | exact Hh].
Qed.

End TrackFacts.

(** ** Track invariants *)

Section TrackTheorems.

Context {backend : Backend}.

Lemma apply_op_inv (self self' : Minion) (op : TrackOp) :
  apply_op self op = Ok self' ->
  (exists o, op = Update o /\ observe self o = Ok self') \/
  (exists t, op = Validate t /\ self' = validate_as_minion self t) \/
  (op = Deactivate /\ self' = set_active false self).
Proof.
  destruct op as [o | t |]; simpl; intro H.
  - left. eauto.
  - right. left. injection H as <-. eauto.
  - right. right. injection H as <-. auto.
Qed.

(** Induction over a sequence of operations that returned. *)
Lemma apply_ops_ind (R : Minion -> Minion -> Prop) :
  (forall m, R m m) ->
  (forall m1 m2 m3, R m1 m2 -> R m2 m3 -> R m1 m3) ->
  (forall m op m', apply_op m op = Ok m' -> R m m') ->
  forall ops m m', apply_ops m ops = Ok m' -> R m m'.
Proof.
  intros Hrefl Htrans Hstep. induction ops as [| op ops IH]; simpl; intros m m' H.
  - injection H as <-. apply Hrefl.
  - destruct (apply_op m op) as [m1 |] eqn:E; cbn [bind] in H; [| discriminate].
    eapply Htrans; [eapply Hstep; exact E | apply IH; exact H].
Qed.

Lemma apply_op_well_formed (self : Minion) (op : TrackOp) :
  well_formed self ->
  exists self', apply_op self op = Ok self' /\ well_formed self'.
Proof.
  intro Hwf. destruct op as [o | t |]; simpl.
  - apply update_position_returns. exact Hwf.
  - eexists. split; [reflexivity | exact Hwf].
  - eexists. split; [reflexivity | exact Hwf].
Qed.

Lemma apply_ops_returns (ops : list TrackOp) (self : Minion) :
  well_formed self ->
  exists self', apply_ops self ops = Ok self' /\ well_formed self'.
Proof.
  revert self. induction ops as [| op ops IH]; simpl; intros self Hwf.
  - eauto.
  - destruct (apply_op_well_formed self op Hwf) as [self1 [-> Hwf1]].
    cbn [bind]. apply IH. exact Hwf1.
Qed.

Lemma deque_append_slice_last {A : Type} (n : nat) (l : list A) (x : A) :
  deque_append n (slice_last n l) x = slice_last n (l ++ [x]).
Proof.
  unfold deque_append, slice_last.
  rewrite !length_app, length_skipn. simpl length.
  set (k := (length l - n)%nat).
  assert (Hk : skipn k (l ++ [x]) = skipn k l ++ [x]).
  { rewrite skipn_app. replace (k - length l)%nat with 0%nat by lia.
    reflexivity. }
  rewrite <- Hk, skipn_skipn. f_equal. lia.
Qed.

Lemma apply_ops_history (ops : list TrackOp) :
  forall (self self' : Minion) (ps : list Point) (ts : list Q),
    positions self = slice_last 80 ps ->
    timestamps self = slice_last 80 ts ->
    apply_ops self ops = Ok self' ->
    positions self' = slice_last 80 (ps ++ observed_positions ops) /\
    timestamps self' = slice_last 80 (ts ++ observed_timestamps ops).
Proof.
  induction ops as [| op ops IH]; simpl; intros self self' ps ts Hp Ht H.
  - injection H as <-. rewrite !app_nil_r. auto.
  - destruct (apply_op self op) as [self1 |] eqn:E; cbn [bind] in H;
      [| discriminate].
    destruct (apply_op_inv _ _ _ E) as [[o [-> Ho]] | [[t [-> ->]] | [-> ->]]].
    + unfold observe in Ho.
      destruct (update_position_inv _ _ _ _ _ _ Ho)
        as (_ & _ & _ & _ & Hp1 & Ht1 & _).
      rewrite Hp, deque_append_slice_last in Hp1.
      rewrite Ht, deque_append_slice_last in Ht1.
      destruct (IH _ _ _ _ Hp1 Ht1 H) as [Hp' Ht'].
      rewrite <- !app_assoc in Hp', Ht'. auto.
    + apply (IH (validate_as_minion self t) self' ps ts); auto.
    + apply (IH (set_active false self) self' ps ts); auto.
Qed.

(** C6: a track built by [Minion.__init__] and taken through any sequence of
    operations keeps as many timestamps as positions, at most 80 of each:
    the histories are the last 80 recorded samples, oldest first.  With a
    non-zero frame height every such sequence returns. *)
Theorem histories_parallel_and_bounded
  (id : Z) (position : Point) (frame : Frame) (mask : Mask)
  (frame_width frame_height : Z) (timestamp : Q) (ops : list TrackOp) :
  let created :=
    Minion_init id position frame mask frame_width frame_height timestamp in
  (frame_height <> 0%Z -> exists self', apply_ops created ops = Ok self') /\
  (forall self', apply_ops created ops = Ok self' ->
     length (positions self') = length (timestamps self') /\
     (length (positions self') <= 80)%nat /\
     positions self' = slice_last 80 (position :: observed_positions ops) /\
     timestamps self' = slice_last 80 (timestamp :: observed_timestamps ops)).
Proof.
  intro created. split.
  - intro Hh.
    destruct (apply_ops_returns ops created) as [self' [H _]].
    + apply Minion_init_well_formed. exact Hh.
    + eauto.
  - intros self' H.
    destruct (apply_ops_history ops created self' [position] [timestamp])
      as [Hp Ht]; [reflexivity | reflexivity | exact H |].
    simpl app in Hp, Ht. rewrite Hp, Ht, !length_slice_last. simpl length.
    assert (Hlen : forall l, length (observed_positions l)
                             = length (observed_timestamps l)).
    { induction l as [| [o | t |] l IHl]; simpl; auto. }
    rewrite (Hlen ops). repeat split; lia.
Qed.

(** C7: [update_position] adds to [total_distance_traveled] the distance
    [hypot] measures between the previous and the new position, which is not
    negative; so no sequence of operations on a track decreases it. *)
Theorem total_distance_never_decreases :
  (forall a b, 0 <= hypot a b) ->
  (forall (self self' : Minion) position frame mask timestamp,
     update_position self position frame mask timestamp = Ok self' ->
     exists last_pos,
       py_index (positions self) (-1) = Ok last_pos /\
       total_distance_traveled self' =
         total_distance_traveled self
         + hypot (fst position - fst last_pos) (snd position - snd last_pos) /\
       0 <= hypot (fst position - fst last_pos) (snd position - snd last_pos) /\
       total_distance_traveled self <= total_distance_traveled self') /\
  (forall (self self' : Minion) (ops : list TrackOp),
     apply_ops self ops = Ok self' ->
     total_distance_traveled self <= total_distance_traveled self').
Proof.
  intro Hnonneg.
  assert (Hstep : forall (self self' : Minion) position frame mask timestamp,
     update_position self position frame mask timestamp = Ok self' ->
     exists last_pos,
       py_index (positions self) (-1) = Ok last_pos /\
       total_distance_traveled self' =
         total_distance_traveled self
         + hypot (fst position - fst last_pos) (snd position - snd last_pos) /\
       0 <= hypot (fst position - fst last_pos) (snd position - snd last_pos) /\
       total_distance_traveled self <= total_distance_traveled self').
  { intros self self' position frame mask timestamp H.
    destruct (update_position_inv _ _ _ _ _ _ H)
      as (last_pos & t_last & Hpos & _ & _ & _ & Htotal & _).
    exists last_pos. split; [exact Hpos |]. split; [exact Htotal |].
    pose proof (Hnonneg (fst position - fst last_pos) (snd position - snd last_pos)).
    split; [assumption |]. rewrite Htotal. lra. }
  split; [exact Hstep |].
  intros self self' ops.
  apply (apply_ops_ind
           (fun m m' => total_distance_traveled m <= total_distance_traveled m')).
  - intro m. apply Qle_refl.
  - intros m1 m2 m3. apply Qle_trans.
  - intros m op m' E.
    destruct (apply_op_inv _ _ _ E) as [[o [-> Ho]] | [[t [-> ->]] | [-> ->]]].
    + destruct (Hstep _ _ _ _ _ _ Ho) as (_ & _ & _ & _ & Hle). exact Hle.
    + apply Qle_refl.
    + apply Qle_refl.
Qed.

Lemma apply_ops_positions_grow (self self' : Minion) (ops : list TrackOp) :
  apply_ops self ops = Ok self' ->
  (length (positions self') < 5)%nat ->
  (length (positions self) < 5)%nat /\
  general_direction self' = general_direction self.
Proof.
  revert self self'.
  apply (apply_ops_ind
           (fun m m' => (length (positions m') < 5)%nat ->
                        (length (positions m) < 5)%nat /\
                        general_direction m' = general_direction m)).
  - auto.
  - intros m1 m2 m3 H12 H23 H3.
    destruct (H23 H3) as [H2 E23]. destruct (H12 H2) as [H1 E12].
    split; [exact H1 | congruence].
  - intros m op m' E Hlt.
    destruct (apply_op_inv _ _ _ E) as [[o [-> Ho]] | [[t [-> ->]] | [-> ->]]].
    + unfold observe in Ho.
      destruct (update_position_inv _ _ _ _ _ _ Ho)
        as (_ & _ & _ & _ & Hp & _ & _ & _ & _ & _ & _ & _ & _ & Hgd).
      split; [| exact (Hgd Hlt)].
      rewrite Hp, length_deque_append in Hlt. lia.
    + auto.
    + auto.
Qed.

(** C8: a track built by [Minion.__init__] and taken through any sequence of
    operations has [general_direction == "unknown"] as long as its history
    holds fewer than 5 samples.  With a non-zero frame height every such
    sequence returns. *)
Theorem direction_unknown_below_five_samples
  (id : Z) (position : Point) (frame : Frame) (mask : Mask)
  (frame_width frame_height : Z) (timestamp : Q) (ops : list TrackOp) :
  let created :=
    Minion_init id position frame mask frame_width frame_height timestamp in
  general_direction created = "unknown"%string /\
  (frame_height <> 0%Z -> exists self', apply_ops created ops = Ok self') /\
  (forall self', apply_ops created ops = Ok self' ->
     (length (positions self') < 5)%nat ->
     general_direction self' = "unknown"%string).
Proof.
  intro created. split; [reflexivity |]. split.
  - intro Hh.
    destruct (apply_ops_returns ops created) as [self' [H _]].
    + apply Minion_init_well_formed. exact Hh.
    + eauto.
  - intros self' H Hlt.
    destruct (apply_ops_positions_grow _ _ _ H Hlt) as [_ ->]. reflexivity.
Qed.

(** C5: once [original_classification] is set, no sequence of operations on
    the track changes it, and [get_strategy_info] reports this value as
    [likely_enemy], whatever [general_direction] has become. *)
Theorem original_classification_frozen :
  (forall (self self' : Minion) (ops : list TrackOp) (c : bool),
     apply_ops self ops = Ok self' ->
     original_classification self = Some c ->
     original_classification self' = Some c) /\
  (forall (self : Minion) (c : bool),
     is_valid_minion self = true ->
     original_classification self = Some c ->
     exists info,
       get_strategy_info self = Some info /\
       StrategyInfo.likely_enemy info = c).
Proof.
  split.
  - intros self self' ops c H. revert self self' H.
    apply (apply_ops_ind
             (fun m m' => original_classification m = Some c ->
                          original_classification m' = Some c)).
    + auto.
    + auto.
    + intros m op m' E Hc.
      destruct (apply_op_inv _ _ _ E) as [[o [-> Ho]] | [[t [-> ->]] | [-> ->]]].
      * unfold observe in Ho.
      destruct (update_position_inv _ _ _ _ _ _ Ho)
          as (_ & _ & _ & _ & _ & _ & _ & _ & _ & _ & _ & _ & Hoc & _).
        exact (Hoc c Hc).
      * exact Hc.
      * exact Hc.
  - intros self c Hvalid Hc. unfold get_strategy_info.
    rewrite Hvalid, Hc. simpl. eexists. split; reflexivity.
Qed.

(** C10: on a well-formed track [update_position] returns for every
    position, frame, mask and timestamp.  When the timestamp is not after the
    last recorded one, [max_speed] and [consecutive_stationary_frames] are
    left as they were, while the step distance is added to the total, the
    position and the timestamp are appended, and [last_seen] and [active]
    are set. *)
Theorem update_position_never_raises
  (self : Minion) (position : Point) (frame : Frame) (mask : Mask)
  (timestamp : Q) :
  well_formed self ->
  exists self' last_pos t_last,
    update_position self position frame mask timestamp = Ok self' /\
    py_index (positions self) (-1) = Ok last_pos /\
    py_index (timestamps self) (-1) = Ok t_last /\
    positions self' = deque_append 80 (positions self) position /\
    timestamps self' = deque_append 80 (timestamps self) timestamp /\
    total_distance_traveled self' =
      total_distance_traveled self
      + hypot (fst position - fst last_pos) (snd position - snd last_pos) /\
    last_seen self' = timestamp /\
    active self' = true /\
    (timestamp <= t_last ->
     max_speed self' = max_speed self /\
     consecutive_stationary_frames self' = consecutive_stationary_frames self).
Proof.
  intro Hwf.
  destruct (update_position_returns self position frame mask timestamp Hwf)
    as [self' [H _]].
  destruct (update_position_inv _ _ _ _ _ _ H)
    as (last_pos & t_last & Hpos & Hts & Hp & Ht & Htotal & Hseen & Hact
        & _ & _ & Hspeed & _).
  exists self', last_pos, t_last. repeat (split; [assumption |]).
  intro Hle.
  destruct (Qltb 0 (timestamp - t_last)) eqn:Hdt; [| exact Hspeed].
  apply Qltb_true in Hdt. lra.
Qed.

End TrackTheorems.

(** ** The track invariants on the example scene *)

Lemma Scene_hypot_nonneg (a b : Q) : 0 <= @hypot Scene.backend a b.
Proof.
  unfold hypot, Scene.backend, Scene.Qsqrt, Qle.
  cbn [Qnum Qden]. rewrite Z.mul_1_r. apply Z.sqrt_nonneg.
Qed.

Lemma Scene_advancing_well_formed : well_formed Scene.advancing.
Proof.
  unfold well_formed. simpl. repeat split; discriminate.
Defined.

Lemma histories_parallel_and_bounded_witness :
  exists self',
    apply_ops Scene.advancing Scene.long_march = Ok self' /\
    length (positions self') = 80%nat /\
    length (timestamps self') = 80%nat.
Proof.
  destruct (histories_parallel_and_bounded (backend := Scene.backend)
              1 (500, 500) (Scene.uniform 1) tt 1920 1080 0 Scene.long_march)
    as [Hreturns Hinv].
  destruct Hreturns as [self' H]; [discriminate |].
  exists self'. split; [exact H |].
  destruct (Hinv self' H) as (_ & _ & Hp & Ht).
  rewrite Hp, Ht. split; reflexivity.
Defined.

Lemma total_distance_never_decreases_witness :
  apply_ops Scene.advancing (Scene.advance ++ Scene.retreat)
  = Ok Scene.retreated /\
  total_distance_traveled Scene.advancing
  <= total_distance_traveled Scene.retreated.
Proof.
  assert (E : apply_ops Scene.advancing (Scene.advance ++ Scene.retreat)
              = Ok Scene.retreated) by (vm_compute; reflexivity).
  split; [exact E |].
  exact (proj2 (total_distance_never_decreases Scene_hypot_nonneg) _ _ _ E).
Defined.

Lemma direction_unknown_below_five_samples_witness :
  apply_ops Scene.jumping [Scene.seen 400 500 2] = Ok Scene.jumped /\
  positions Scene.jumped = [(100, 500); (400, 500)] /\
  general_direction Scene.jumped = "unknown"%string.
Proof.
  assert (E : apply_ops Scene.jumping [Scene.seen 400 500 2] = Ok Scene.jumped)
    by (vm_compute; reflexivity).
  assert (Hpos : positions Scene.jumped = [(100, 500); (400, 500)])
    by (vm_compute; reflexivity).
  split; [exact E |]. split; [exact Hpos |].
  destruct (direction_unknown_below_five_samples (backend := Scene.backend)
              1 (100, 500) (Scene.uniform 1) tt 1920 1080 0
              [Scene.seen 400 500 2])
    as (_ & _ & Hunknown).
  apply (Hunknown Scene.jumped E). rewrite Hpos. simpl. lia.
Defined.

Lemma original_classification_frozen_witness :
  apply_ops Scene.advancing Scene.advance = Ok Scene.classified /\
  general_direction Scene.classified = "right"%string /\
  original_classification Scene.classified = Some true /\
  apply_ops Scene.classified Scene.retreat = Ok Scene.retreated /\
  general_direction Scene.retreated = "left"%string /\
  classify_as_enemy Scene.retreated = false /\
  original_classification Scene.retreated = Some true /\
  exists info,
    get_strategy_info Scene.retreated = Some info /\
    StrategyInfo.likely_enemy info = true.
Proof.
  destruct (original_classification_frozen (backend := Scene.backend))
    as [Hfrozen Hinfo].
  assert (E1 : apply_ops Scene.advancing Scene.advance = Ok Scene.classified)
    by (vm_compute; reflexivity).
  assert (Hc : original_classification Scene.classified = Some true)
    by (vm_compute; reflexivity).
  assert (E2 : apply_ops Scene.classified Scene.retreat = Ok Scene.retreated)
    by (vm_compute; reflexivity).
  assert (Hvalid : is_valid_minion Scene.retreated = true)
    by (vm_compute; reflexivity).
  pose proof (Hfrozen Scene.classified Scene.retreated Scene.retreat true E2 Hc)
    as Hc'.
  split; [exact E1 |]. split; [vm_compute; reflexivity |].
  split; [exact Hc |]. split; [exact E2 |].
  split; [vm_compute; reflexivity |]. split; [vm_compute; reflexivity |].
  split; [exact Hc' |].
  exact (Hinfo Scene.retreated true Hvalid Hc').
Defined.

Lemma update_position_never_raises_witness :
  exists self',
    update_position Scene.advancing (503, 504) (Scene.uniform 1) tt 0 = Ok self' /\
    active self' = true /\
    last_seen self' = 0 /\
    total_distance_traveled self' = 0 + 5 /\
    max_speed self' = max_speed Scene.advancing /\
    consecutive_stationary_frames self' =
      consecutive_stationary_frames Scene.advancing.
Proof.
  destruct (update_position_never_raises (backend := Scene.backend)
              Scene.advancing (503, 504) (Scene.uniform 1) tt 0
              Scene_advancing_well_formed)
    as (self' & last_pos & t_last & H & Hpos & Hts & _ & _ & Htotal & Hseen
        & Hact & Hguard).
  vm_compute in Hpos. injection Hpos as <-.
  vm_compute in Hts. injection Hts as <-.
  exists self'. split; [exact H |]. split; [exact Hact |].
  split; [exact Hseen |]. split; [exact Htotal |].
  apply Hguard. apply Qle_refl.
Defined.

(** ** detector.py: the queries *)

Section DetectorTheorems.

Context {backend : Backend}.

Lemma values_filter (p : Minion -> bool) (tracks : list (Z * Minion)) :
  map snd (filter (fun '(_, minion) => p minion) tracks)
  = filter p (map snd tracks).
Proof.
  induction tracks as [| [k m] rest IH]; simpl; [reflexivity |].
  destruct (p m); simpl; rewrite IH; reflexivity.
Qed.

Lemma filter_filter_ext {A : Type} (p q r : A -> bool) (l : list A) :
  (forall x, r x = p x && q x) ->
  filter q (filter p l) = filter r l.
Proof.
  intro Hr. induction l as [| x l IH]; simpl; [reflexivity |].
  rewrite Hr. destruct (p x); simpl; [| exact IH].
  destruct (q x); rewrite IH; reflexivity.
Qed.

(** C9: [get_active_minions] returns, in registry order, exactly the tracks
    that are both active and valid, and [get_enemy_minions] exactly those of
    them whose classification (the frozen one when set, the one derived from
    the current direction otherwise) is enemy; both leave the detector, and
    with it every track, as it was. *)
Theorem queries_filter_and_preserve (self : MinionDetector) :
  get_active_minions self
  = (filter (fun m => active m && is_valid_minion m) (map snd (minions self)),
     self) /\
  get_enemy_minions self
  = (filter (fun m => active m && is_valid_minion m && classified_enemy m)
       (map snd (minions self)),
     self) /\
  (forall m, In m (fst (get_active_minions self)) <->
             In m (map snd (minions self)) /\
             active m = true /\ is_valid_minion m = true) /\
  (forall m, In m (fst (get_enemy_minions self)) <->
             In m (fst (get_active_minions self)) /\ classified_enemy m = true).
Proof.
  assert (Hactive : get_active_minions self
    = (filter (fun m => active m && is_valid_minion m) (map snd (minions self)),
       self)).
  { unfold get_active_minions.
    rewrite (values_filter (fun m => is_valid_minion m && active m)).
    f_equal. apply filter_ext. intro m. apply andb_comm. }
  assert (Henemy : get_enemy_minions self
    = (filter (fun m => active m && is_valid_minion m && classified_enemy m)
         (map snd (minions self)),
       self)).
  { unfold get_enemy_minions. rewrite Hactive. f_equal.
    apply filter_filter_ext. intro m.
    unfold get_strategy_info, classified_enemy.
    destruct (active m), (is_valid_minion m); reflexivity. }
  split; [exact Hactive |]. split; [exact Henemy |].
  rewrite Hactive, Henemy. simpl fst. split; intro m.
  - rewrite filter_In, andb_true_iff. tauto.
  - rewrite !filter_In, !andb_true_iff. tauto.
Qed.

(** ** detector.py: the spawn pass and the identifier counter *)

Lemma dict_set_fresh {V : Type} (d : list (Z * V)) (k : Z) (v : V) :
  (forall k' v', In (k', v') d -> k' <> k) ->
  dict_set d k v = d ++ [(k, v)].
Proof.
  induction d as [| [k' v'] rest IH]; simpl; intro Hfresh; [reflexivity |].
  destruct (Z.eqb_spec k' k) as [E | _].
  - exfalso. apply (Hfresh k' v'); auto.
  - rewrite IH; [reflexivity |]. intros k'' v'' Hin. apply (Hfresh k'' v''). auto.
Qed.

Lemma dict_del_incl {V : Type} (d d' : list (Z * V)) (k : Z) :
  dict_del d k = Ok d' -> incl d' d.
Proof.
  revert d'. induction d as [| [k' v'] rest IH]; simpl; intros d' H;
    [discriminate |].
  destruct (k' =? k)%Z.
  - injection H as <-. apply incl_tl, incl_refl.
  - destruct (dict_del rest k) as [rest' |]; cbn [bind] in H; [| discriminate].
    injection H as <-. apply incl_cons; [left; reflexivity |].
    apply incl_tl. apply IH. reflexivity.
Qed.

Lemma remove_loop_incl (ks : list Z) (tracks tracks' : list (Z * Minion)) :
  remove_loop tracks ks = Ok tracks' -> incl tracks' tracks.
Proof.
  revert tracks tracks'. induction ks as [| k ks IH]; simpl; intros tracks tracks' H.
  - injection H as <-. apply incl_refl.
  - destruct (dict_del tracks k) as [tracks1 |] eqn:E; cbn [bind] in H;
      [| discriminate].
    eapply incl_tran; [apply (IH _ _ H) | apply (dict_del_incl _ _ _ E)].
Qed.

Lemma status_loop_keys (tracks : list (Z * Minion)) (current_time : Q) :
  map fst (fst (status_loop tracks current_time)) = map fst tracks.
Proof.
  induction tracks as [| [k m] rest IH]; simpl; [reflexivity |].
  destruct (status_loop rest current_time) as [rest' removed]. simpl in IH.
  destruct (Qltb config.REID_MAX_TIME _); simpl; rewrite IH; reflexivity.
Qed.

Lemma associate_loop_keys (tracks : list (Z * Minion)) :
  forall detected used frame mask now tracks' used',
    associate_loop tracks detected used frame mask now = Ok (tracks', used') ->
    map fst tracks' = map fst tracks.
Proof.
  induction tracks as [| [k m] rest IH]; simpl;
    intros detected used frame mask now tracks' used' H.
  - injection H as <- _. reflexivity.
  - destruct (associate_minion m detected used frame mask now) as [[m1 used1] |];
      cbn [bind] in H; [| discriminate].
    destruct (associate_loop rest detected used1 frame mask now)
      as [[rest1 used2] |] eqn:E; cbn [bind] in H; [| discriminate].
    injection H as <- _. simpl. rewrite (IH _ _ _ _ _ _ _ E). reflexivity.
Qed.

Lemma create_loop_mass_spawn (detections : list (Z * Point)) :
  forall self detected used frame mask now,
    _is_mass_spawn_event detected now = true ->
    create_loop detections self detected used frame mask now = self.
Proof.
  induction detections as [| [i [x y]] rest IH]; simpl;
    intros self detected used frame mask now Hmass; [reflexivity |].
  rewrite Hmass. destruct (negb (set_in i used)); apply IH; exact Hmass.
Qed.

Lemma create_loop_spawns (detections : list (Z * Point)) :
  forall self detected used frame mask now,
    _is_mass_spawn_event detected now = false ->
    ids_below self ->
    let fresh :=
      map snd (filter (fun '(i, _) => negb (set_in i used)) detections) in
    let self' := create_loop detections self detected used frame mask now in
    minions self' =
      minions self ++ spawn_from (next_minion_id self) fresh frame mask now /\
    next_minion_id self' = (next_minion_id self + Z.of_nat (length fresh))%Z /\
    ids_below self'.
Proof.
  induction detections as [| [i [x y]] rest IH];
    intros self detected used frame mask now Hmass Hbelow; cbv zeta.
  - simpl. rewrite app_nil_r, Z.add_0_r. auto.
  - simpl create_loop. simpl filter. rewrite Hmass.
    destruct (negb (set_in i used)).
    + simpl map. simpl spawn_from. simpl length.
      set (self1 := {| minions := _; next_minion_id := _ |}).
      assert (Hset : minions self1 =
                minions self ++
                [(next_minion_id self,
                  Minion_init (next_minion_id self) (x, y) frame mask
                    config.MONITOR_width config.MONITOR_height now)]).
      { subst self1. simpl. apply dict_set_fresh.
        intros k' v' Hin. specialize (Hbelow k' v' Hin). lia. }
      assert (Hbelow1 : ids_below self1).
      { intros k m Hin. rewrite Hset in Hin. subst self1. simpl.
        apply in_app_or in Hin. destruct Hin as [Hin | [Hin | []]].
        - specialize (Hbelow k m Hin). lia.
        - injection Hin as <- _. lia. }
      destruct (IH self1 detected used frame mask now Hmass Hbelow1)
        as (Hm & Hn & Hb).
      rewrite Hm, Hn, Hset. subst self1. simpl next_minion_id.
      rewrite <- app_assoc. simpl app.
      repeat split; [lia | exact Hb].
    + apply IH; assumption.
Qed.

(** ** detector.py: the association pass *)

Lemma enumerate_from_In {A : Type} (l : list A) (a : nat) (i : Z) (x : A) :
  In (i, x) (combine (map Z.of_nat (seq a (length l))) l) <->
  exists n, i = Z.of_nat (a + n) /\ nth_error l n = Some x.
Proof.
  revert a. induction l as [| y l IH]; intro a; simpl.
  - split; [intros [] | intros [[| n] [_ H]]; discriminate].
  - split.
    + intros [H | H].
      * injection H as <- <-. exists 0%nat. rewrite Nat.add_0_r. auto.
      * apply IH in H. destruct H as [n [-> Hn]]. exists (S n).
        split; [f_equal; lia | exact Hn].
    + intros [[| n] [-> Hn]]; simpl in Hn.
      * left. injection Hn as <-. rewrite Nat.add_0_r. reflexivity.
      * right. apply IH. exists n. split; [f_equal; lia | exact Hn].
Qed.

Lemma enumerate_In {A : Type} (l : list A) (i : Z) (x : A) :
  In (i, x) (enumerate l) <->
  (0 <= i)%Z /\ nth_error l (Z.to_nat i) = Some x.
Proof.
  unfold enumerate. rewrite enumerate_from_In. split.
  - intros [n [-> Hn]]. simpl. rewrite Nat2Z.id. split; [lia | exact Hn].
  - intros [Hi Hn]. exists (Z.to_nat i). simpl. split; [lia | exact Hn].
Qed.

Lemma py_index_nth {A : Type} (l : list A) (i : Z) (x : A) :
  (0 <= i)%Z -> nth_error l (Z.to_nat i) = Some x -> py_index l i = Ok x.
Proof.
  intros Hi Hn. unfold py_index.
  assert (Hlt : (Z.to_nat i < length l)%nat)
    by (apply nth_error_Some; congruence).
  replace (i <? 0)%Z with false by (symmetry; apply Z.ltb_ge; exact Hi).
  replace ((0 <=? i)%Z && (i <? Z.of_nat (length l))%Z) with true
    by (symmetry; apply andb_true_iff; split;
        [apply Z.leb_le | apply Z.ltb_lt]; lia).
  rewrite Hn. reflexivity.
Qed.

Lemma get_predicted_position_at_time_returns (self : Minion) (target_time : Q) :
  positions self <> [] ->
  exists r, get_predicted_position_at_time self target_time = Ok r.
Proof.
  intro Hne. unfold get_predicted_position_at_time.
  destruct (py_index_nonempty (positions self) Hne) as [last_pos Hlast].
  destruct (match predicted_positions self with [] => true | _ :: _ => false end);
    simpl orb.
  - destruct (0 <? length (positions self))%nat; [| eauto].
    rewrite Hlast. cbn [bind]. eauto.
  - destruct (Nat.ltb_spec (length (timestamps self)) 2) as [_ | Hge].
    + destruct (0 <? length (positions self))%nat; [| eauto].
      rewrite Hlast. cbn [bind]. eauto.
    + rewrite Hlast. cbn [bind].
      destruct (py_index_Ok (timestamps self) (-1)) as [t_last ->]; [lia |].
      cbn [bind]. eauto.
Qed.

Lemma match_distance_returns (minion : Minion) (x y current_time : Q) :
  positions minion <> [] ->
  exists d, match_distance minion x y current_time = Ok d.
Proof.
  intro Hne. unfold match_distance.
  destruct (py_index_nonempty (positions minion) Hne) as [last_pos ->].
  cbn [bind].
  destruct (get_predicted_position_at_time_returns minion current_time Hne)
    as [r ->].
  cbn [bind]. eauto.
Qed.

Lemma match_distance_within (minion : Minion) (x y current_time : Q)
  (last_pos : Point) :
  py_index (positions minion) (-1) = Ok last_pos ->
  hypot (fst last_pos - x) (snd last_pos - y) < config.REID_TOLERANCE ->
  exists d, match_distance minion x y current_time = Ok d /\
            d < config.REID_TOLERANCE.
Proof.
  intros Hlast Hd.
  assert (Hne : positions minion <> []).
  { intro E. rewrite E in Hlast. discriminate. }
  unfold match_distance. rewrite Hlast. cbn [bind].
  destruct (get_predicted_position_at_time_returns minion current_time Hne)
    as [r ->].
  cbn [bind]. eexists. split; [reflexivity |].
  unfold config.REID_TOLERANCE in *.
  destruct r as [p |]; [| exact Hd].
  destruct (Qltb _ config.PREDICTION_TOLERANCE); [| exact Hd].
  set (distance := hypot _ _) in *. lra.
Qed.

(** *** Histograms and the similarity *)

Lemma compute_hist_zeros (frame : Frame) (mask : Mask) (p : Point) :
  compute_hist frame mask p = zeros <-> ~ in_view frame p.
Proof.
  unfold compute_hist, in_view. cbv zeta.
  set (x := py_int (fst p)). set (y := py_int (snd p)).
  set (w := snd (shape frame)). set (h := fst (shape frame)).
  destruct (Z.leb_spec (Z.min w (x + 25)) (Z.max 0 (x - 25))) as [Hx | Hx].
  - cbn [orb]. split; [intros _ Hv; lia | reflexivity].
  - destruct (Z.leb_spec (Z.min h (y + 25)) (Z.max 0 (y - 25))) as [Hy | Hy].
    + cbn [orb]. split; [intros _ Hv; lia | reflexivity].
    + cbn [orb].
      destruct (Z.eqb_spec ((Z.min h (y + 25) - Z.max 0 (y - 25))
                            * (Z.min w (x + 25) - Z.max 0 (x - 25))) 0)
        as [E | _]; [nia |].
      split; [discriminate | intro Hn; exfalso; apply Hn; lia].
Qed.

Lemma compute_hist_in_view (frame : Frame) (mask : Mask) (p : Point) :
  in_view frame p -> exists h, compute_hist frame mask p = float32 h.
Proof.
  intro Hv. destruct (compute_hist frame mask p) as [| h] eqn:E; [| eauto].
  apply compute_hist_zeros in E. contradiction.
Qed.

Lemma similarity_returns (minion : Minion) (frame : Frame) (mask : Mask)
  (p : Point) :
  has_histogram minion -> in_view frame p ->
  exists s, similarity minion frame mask p = Ok s.
Proof.
  intros Hh Hv. unfold similarity. cbv zeta.
  destruct (compute_hist_in_view frame mask p Hv) as [h2 ->].
  unfold has_histogram in Hh. destruct (hist minion) as [| h1]; [congruence |].
  eauto.
Qed.

Lemma similarity_Ok_inv (minion : Minion) (frame : Frame) (mask : Mask)
  (p : Point) (s : Q) :
  similarity minion frame mask p = Ok s ->
  has_histogram minion /\ in_view frame p.
Proof.
  unfold similarity, has_histogram. cbv zeta. intro H.
  destruct (hist minion) as [| h1]; [discriminate |].
  destruct (compute_hist frame mask p) as [| h2] eqn:E; [discriminate |].
  split; [discriminate |].
  destruct (compute_hist_zeros frame mask p) as [_ Hz].
  assert (Hdec : in_view frame p \/ ~ in_view frame p).
  { unfold in_view. lia. }
  destruct Hdec as [Hv | Hn]; [exact Hv |].
  rewrite (Hz Hn) in E. discriminate.
Qed.

Lemma similarity_error (minion : Minion) (frame : Frame) (mask : Mask)
  (p : Point) (e : PyErr) :
  similarity minion frame mask p = Raise e -> e = cv2_error.
Proof.
  unfold similarity. cbv zeta.
  destruct (hist minion), (compute_hist frame mask p); congruence.
Qed.

(** *** The scan of one track *)

(** What the scan returned, from any running best. *)
Lemma find_best_match_inv (minion : Minion) (used : list Z)
  (frame : Frame) (mask : Mask) (now : Q) :
  forall (detections : list (Z * Point)) (best : Z) (dmin smax : Q)
         (idx : Z) (d' s' : Q),
    find_best_match minion detections used frame mask now best dmin smax
    = Ok (idx, d', s') ->
    d' <= dmin /\ smax <= s' /\
    (forall i q d s,
       In (i, q) detections -> set_in i used = false ->
       match_distance minion (fst q) (snd q) now = Ok d ->
       similarity minion frame mask q = Ok s ->
       ~ (d < d' /\ config.HIST_SIMILARITY_THRESHOLD < s /\ s' < s)) /\
    ((idx = best /\ d' = dmin /\ s' = smax) \/
     (exists p,
        In (idx, p) detections /\ set_in idx used = false /\
        match_distance minion (fst p) (snd p) now = Ok d' /\
        similarity minion frame mask p = Ok s' /\
        d' < dmin /\ config.HIST_SIMILARITY_THRESHOLD < s' /\ smax < s')).
Proof.
  induction detections as [| [i [x y]] rest IH];
    intros best dmin smax idx d' s' H.
  - simpl in H. injection H as <- <- <-.
    split; [apply Qle_refl |]. split; [apply Qle_refl |].
    split; [intros i q d s [] | left; auto].
  - simpl find_best_match in H.
    destruct (set_in i used) eqn:Hused.
    + destruct (IH _ _ _ _ _ _ H) as (Hd & Hs & Hall & Hsel).
      split; [exact Hd |]. split; [exact Hs |]. split.
      * intros j q d s [Hin | Hin] Hj Hq Hsq.
        -- injection Hin as -> _. congruence.
        -- exact (Hall j q d s Hin Hj Hq Hsq).
      * destruct Hsel as [Hsel | (p & Hin & Hp)]; [left; exact Hsel |].
        right. exists p. split; [right; exact Hin | exact Hp].
    + apply bind_Ok_inv in H. destruct H as (d0 & Hd0 & H).
      apply bind_Ok_inv in H. destruct H as (s0 & Hs0 & H).
      destruct (Qltb d0 dmin && Qltb config.HIST_SIMILARITY_THRESHOLD s0
                && Qltb smax s0) eqn:Hcond.
      * apply andb_true_iff in Hcond. destruct Hcond as [Hcond Hc3].
        apply andb_true_iff in Hcond. destruct Hcond as [Hc1 Hc2].
        apply Qltb_true in Hc1, Hc2, Hc3.
        destruct (IH _ _ _ _ _ _ H) as (Hd & Hs & Hall & Hsel).
        split; [lra |]. split; [lra |]. split.
        -- intros j q d s [Hin | Hin] Hj Hq Hsq.
           ++ injection Hin as <- <-. cbn [fst snd] in Hq.
              rewrite Hd0 in Hq. injection Hq as <-.
              rewrite Hs0 in Hsq. injection Hsq as <-. lra.
           ++ exact (Hall j q d s Hin Hj Hq Hsq).
        -- right.
           destruct Hsel as [(-> & -> & ->)
                            | (p & Hin & Hu & Hp & Hsp & Hlt & Hfl & Hgt)].
           ++ exists (x, y). split; [left; reflexivity |].
              repeat split; auto.
           ++ exists p. split; [right; exact Hin |].
              repeat split; auto; lra.
      * destruct (IH _ _ _ _ _ _ H) as (Hd & Hs & Hall & Hsel).
        split; [exact Hd |]. split; [exact Hs |]. split.
        -- intros j q d s [Hin | Hin] Hj Hq Hsq.
           ++ injection Hin as <- <-. cbn [fst snd] in Hq.
              rewrite Hd0 in Hq. injection Hq as <-.
              rewrite Hs0 in Hsq. injection Hsq as <-.
              intros (H1 & H2 & H3).
              assert (Htrue : Qltb d0 dmin
                              && Qltb config.HIST_SIMILARITY_THRESHOLD s0
                              && Qltb smax s0 = true).
              { rewrite !andb_true_iff. repeat split; apply Qltb_true; lra. }
              congruence.
           ++ exact (Hall j q d s Hin Hj Hq Hsq).
        -- destruct Hsel as [Hsel | (p & Hin & Hp)]; [left; exact Hsel |].
           right. exists p. split; [right; exact Hin | exact Hp].
Qed.

(** The scan returns when the track carries a histogram and every detection
    is in view; no other exception than [cv2.error] can leave it. *)
Lemma find_best_match_returns (minion : Minion) (used : list Z)
  (frame : Frame) (mask : Mask) (now : Q) :
  positions minion <> [] -> has_histogram minion ->
  forall (detections : list (Z * Point)) (best : Z) (dmin smax : Q),
    (forall i q, In (i, q) detections -> in_view frame q) ->
    exists r,
      find_best_match minion detections used frame mask now best dmin smax
      = Ok r.
Proof.
  intros Hne Hh.
  induction detections as [| [i [x y]] rest IH]; intros best dmin smax Hview.
  - simpl. eauto.
  - assert (Hrest : forall j q, In (j, q) rest -> in_view frame q)
      by (intros j q Hin; apply (Hview j); right; exact Hin).
    simpl find_best_match. destruct (set_in i used); [apply IH; exact Hrest |].
    destruct (match_distance_returns minion x y now Hne) as [d0 ->].
    cbn [bind].
    destruct (similarity_returns minion frame mask (x, y) Hh) as [s0 ->];
      [apply (Hview i); left; reflexivity |].
    cbn [bind]. destruct (_ && _); apply IH; exact Hrest.
Qed.

Lemma find_best_match_error (minion : Minion) (used : list Z)
  (frame : Frame) (mask : Mask) (now : Q) :
  positions minion <> [] ->
  forall (detections : list (Z * Point)) (best : Z) (dmin smax : Q) (e : PyErr),
    find_best_match minion detections used frame mask now best dmin smax
    = Raise e ->
    e = cv2_error.
Proof.
  intro Hne.
  induction detections as [| [i [x y]] rest IH]; intros best dmin smax e H.
  - discriminate.
  - simpl find_best_match in H. destruct (set_in i used); [exact (IH _ _ _ _ H) |].
    destruct (match_distance_returns minion x y now Hne) as [d0 Hd0].
    rewrite Hd0 in H. cbn [bind] in H.
    destruct (similarity minion frame mask (x, y)) as [s0 | e0] eqn:Es;
      cbn [bind] in H.
    + destruct (_ && _); exact (IH _ _ _ _ H).
    + injection H as <-. exact (similarity_error _ _ _ _ _ Es).
Qed.

(** The scan goes through the detections in order: scanning one more
    detection is offering it to the running best of the scan so far. *)
Lemma find_best_match_snoc (minion : Minion) (used : list Z)
  (frame : Frame) (mask : Mask) (now : Q) (c : Z * Point) :
  forall (detections : list (Z * Point)) (best : Z) (dmin smax : Q),
    find_best_match minion (detections ++ [c]) used frame mask now
      best dmin smax
    = (running <-
         find_best_match minion detections used frame mask now best dmin smax ;;
       offer minion used frame mask now running c).
Proof.
  induction detections as [| [i [x y]] rest IH]; intros best dmin smax.
  - destruct c as [j [u v]]. unfold offer.
    cbn [app find_best_match bind fst snd].
    destruct (set_in j used); [reflexivity |].
    destruct (match_distance minion u v now) as [d |]; cbn [bind];
      [| reflexivity].
    destruct (similarity minion frame mask (u, v)) as [s |]; cbn [bind];
      [| reflexivity].
    destruct (_ && _); reflexivity.
  - change (((i, (x, y)) :: rest) ++ [c]) with ((i, (x, y)) :: (rest ++ [c])).
    cbn [find_best_match].
    destruct (set_in i used); [apply IH |].
    destruct (match_distance minion x y now) as [d |]; cbn [bind];
      [| reflexivity].
    destruct (similarity minion frame mask (x, y)) as [s |]; cbn [bind];
      [| reflexivity].
    destruct (_ && _); apply IH.
Qed.

Lemma enumerate_from_snoc {A : Type} (l : list A) (x : A) :
  forall a : nat,
    combine (map Z.of_nat (seq a (length (l ++ [x])))) (l ++ [x])
    = combine (map Z.of_nat (seq a (length l))) l
      ++ [(Z.of_nat (a + length l), x)].
Proof.
  induction l as [| y l IH]; intro a; simpl.
  - rewrite Nat.add_0_r. reflexivity.
  - rewrite IH. replace (S a + length l)%nat with (a + S (length l))%nat by lia.
    reflexivity.
Qed.

Lemma enumerate_snoc {A : Type} (l : list A) (x : A) :
  enumerate (l ++ [x]) = enumerate l ++ [(Z.of_nat (length l), x)].
Proof. unfold enumerate. apply (enumerate_from_snoc l x 0). Qed.

Lemma floor_positive : 0 < config.HIST_SIMILARITY_THRESHOLD.
Proof. reflexivity. Qed.

(** What [associate_minion] did with an active track, when it returned:
    either no detection is eligible and nothing changed, or the track was
    updated with an eligible detection that no other eligible detection
    beats on both distance and similarity. *)
Lemma associate_minion_inv (minion minion' : Minion) (detected : list Point)
  (used used' : list Z) (frame : Frame) (mask : Mask) (now : Q) :
  active minion = true ->
  associate_minion minion detected used frame mask now = Ok (minion', used') ->
  exists idx dmin smax,
    find_best_match minion (enumerate detected) used frame mask now
      (-1)%Z config.REID_TOLERANCE 0 = Ok (idx, dmin, smax) /\
    ((idx = (-1)%Z /\ minion' = minion /\ used' = used /\
      forall j q d s, ~ candidate minion detected used frame mask now j q d s)
     \/
     (exists p,
        candidate minion detected used frame mask now idx p dmin smax /\
        update_position minion p frame mask now = Ok minion' /\
        used' = set_add idx used /\
        forall j q d s,
          candidate minion detected used frame mask now j q d s ->
          ~ (d < dmin /\ smax < s))).
Proof.
  intros Hact H. unfold associate_minion in H. rewrite Hact in H.
  cbn [negb] in H.
  apply bind_Ok_inv in H. destruct H as ([[idx dmin] smax] & Hrun & H).
  exists idx, dmin, smax. split; [exact Hrun |].
  destruct (find_best_match_inv _ _ _ _ _ _ _ _ _ _ _ _ Hrun)
    as (Hd & Hs & Hall & Hsel).
  pose proof floor_positive as Hfloor.
  destruct Hsel as [(-> & -> & ->) | (p & Hin & Hu & Hp & Hsp & Hlt & Hfl & Hgt)].
  - cbn [Z.eqb negb] in H. injection H as <- <-. left.
    split; [reflexivity |]. split; [reflexivity |]. split; [reflexivity |].
    intros j q d s (Hj & Hnth & Hju & Hm & Hsq & Hdl & Hsl).
    apply (Hall j q d s); [apply enumerate_In; auto | exact Hju | exact Hm
                          | exact Hsq |].
    repeat split; lra.
  - apply enumerate_In in Hin. destruct Hin as [Hidx Hnth].
    replace (idx =? -1)%Z with false in H
      by (symmetry; apply Z.eqb_neq; lia).
    cbn [negb] in H. rewrite (py_index_nth _ _ _ Hidx Hnth) in H.
    cbn [bind] in H. destruct p as [x y].
    apply bind_Ok_inv in H. destruct H as (m1 & Hupd & H).
    injection H as <- <-. right. exists (x, y).
    split; [| split; [exact Hupd | split; [reflexivity |]]].
    + unfold candidate. repeat split; auto.
    + intros j q d s (Hj & Hnth' & Hju & Hm & Hsq & Hdl & Hsl) [H1 H2].
      apply (Hall j q d s); [apply enumerate_In; auto | exact Hju | exact Hm
                            | exact Hsq |].
      repeat split; assumption.
Qed.

(** [associate_minion] returns on a well-formed track that carries a
    histogram when every detection is in view; the updated track carries a
    histogram again. *)
Lemma associate_minion_returns (minion : Minion) (detected : list Point)
  (used : list Z) (frame : Frame) (mask : Mask) (now : Q) :
  well_formed minion -> has_histogram minion ->
  Forall (in_view frame) detected ->
  exists minion' used',
    associate_minion minion detected used frame mask now = Ok (minion', used') /\
    well_formed minion' /\ has_histogram minion' /\ id minion' = id minion.
Proof.
  intros Hwf Hh Hview. pose proof Hwf as (Hne & _ & _).
  unfold associate_minion.
  destruct (active minion); cbn [negb]; [| exists minion, used; auto].
  assert (Hview' : forall i q, In (i, q) (enumerate detected) -> in_view frame q).
  { intros i q Hin. apply enumerate_In in Hin. destruct Hin as [_ Hnth].
    apply nth_error_In in Hnth. rewrite Forall_forall in Hview. auto. }
  destruct (find_best_match_returns minion used frame mask now Hne Hh
              (enumerate detected) (-1)%Z config.REID_TOLERANCE 0 Hview')
    as ([[idx dmin] smax] & Hrun).
  rewrite Hrun. cbn [bind].
  destruct (find_best_match_inv _ _ _ _ _ _ _ _ _ _ _ _ Hrun)
    as (_ & _ & _ & Hsel).
  destruct Hsel as [(-> & _ & _) | (p & Hin & _)].
  - cbn [Z.eqb negb]. exists minion, used. auto.
  - pose proof (Hview' _ _ Hin) as Hp.
    apply enumerate_In in Hin. destruct Hin as [Hidx Hnth].
    replace (idx =? -1)%Z with false by (symmetry; apply Z.eqb_neq; lia).
    cbn [negb]. rewrite (py_index_nth _ _ _ Hidx Hnth). cbn [bind].
    destruct p as [x y].
    destruct (update_position_returns minion (x, y) frame mask now Hwf)
      as (minion' & Hupd & Hwf').
    rewrite Hupd. cbn [bind]. exists minion', (set_add idx used).
    split; [reflexivity |]. split; [exact Hwf' |].
    destruct (update_position_inv _ _ _ _ _ _ Hupd)
      as (_ & _ & _ & _ & _ & _ & _ & _ & _ & Hhist & Hsame & _).
    split; [| destruct Hsame as (Hid & _); exact Hid].
    unfold has_histogram. rewrite Hhist.
    destruct (compute_hist_in_view frame mask (x, y) Hp) as [h ->].
    discriminate.
Qed.

(** No other exception than [cv2.error] leaves [associate_minion] on a
    well-formed track. *)
Lemma associate_minion_error (minion : Minion) (detected : list Point)
  (used : list Z) (frame : Frame) (mask : Mask) (now : Q) (e : PyErr) :
  well_formed minion ->
  associate_minion minion detected used frame mask now = Raise e ->
  e = cv2_error.
Proof.
  intros Hwf H. pose proof Hwf as (Hne & _ & _).
  unfold associate_minion in H.
  destruct (active minion); cbn [negb] in H; [| discriminate].
  destruct (find_best_match minion (enumerate detected) used frame mask now
              (-1)%Z config.REID_TOLERANCE 0) as [[[idx dmin] smax] | e0] eqn:Hrun;
    cbn [bind] in H.
  - destruct (find_best_match_inv _ _ _ _ _ _ _ _ _ _ _ _ Hrun)
      as (_ & _ & _ & Hsel).
    destruct Hsel as [(-> & _ & _) | (p & Hin & _)].
    + cbn [Z.eqb negb] in H. discriminate.
    + apply enumerate_In in Hin. destruct Hin as [Hidx Hnth].
      replace (idx =? -1)%Z with false in H
        by (symmetry; apply Z.eqb_neq; lia).
      cbn [negb] in H. rewrite (py_index_nth _ _ _ Hidx Hnth) in H.
      cbn [bind] in H. destruct p as [x y].
      destruct (update_position_returns minion (x, y) frame mask now Hwf)
        as (minion' & Hupd & _).
      rewrite Hupd in H. discriminate.
  - injection H as <-. exact (find_best_match_error _ _ _ _ _ Hne _ _ _ _ _ Hrun).
Qed.

Lemma associate_minion_rejects (minion : Minion) (p : Point) (used : list Z)
  (frame : Frame) (mask : Mask) (now : Q) (s : Q) :
  well_formed minion ->
  similarity minion frame mask p = Ok s ->
  s <= config.HIST_SIMILARITY_THRESHOLD ->
  associate_minion minion [p] used frame mask now = Ok (minion, used).
Proof.
  intros Hwf Hsim Hle. pose proof Hwf as (Hne & _ & _).
  unfold associate_minion.
  destruct (active minion); cbn [negb]; [| reflexivity].
  destruct p as [x y]. cbn [enumerate length seq map combine find_best_match].
  destruct (set_in (Z.of_nat 0) used); [reflexivity |].
  destruct (match_distance_returns minion x y now Hne) as [d ->].
  cbn [bind]. rewrite Hsim. cbn [bind].
  replace (Qltb config.HIST_SIMILARITY_THRESHOLD s) with false
    by (symmetry; apply Qltb_false; exact Hle).
  rewrite andb_false_r. reflexivity.
Qed.

Lemma associate_minion_accepts (minion : Minion) (p last_pos : Point)
  (frame : Frame) (mask : Mask) (now : Q) (s : Q) :
  well_formed minion -> active minion = true ->
  py_index (positions minion) (-1) = Ok last_pos ->
  hypot (fst last_pos - fst p) (snd last_pos - snd p) < config.REID_TOLERANCE ->
  similarity minion frame mask p = Ok s ->
  config.HIST_SIMILARITY_THRESHOLD < s ->
  exists minion',
    update_position minion p frame mask now = Ok minion' /\
    associate_minion minion [p] [] frame mask now = Ok (minion', [0%Z]).
Proof.
  intros Hwf Hact Hlast Hdist Hsim Hgt.
  destruct (match_distance_within minion (fst p) (snd p) now last_pos Hlast Hdist)
    as (d & Hd & Hdl).
  destruct (update_position_returns minion p frame mask now Hwf)
    as (minion' & Hupd & _).
  exists minion'. split; [exact Hupd |].
  pose proof floor_positive as Hfloor.
  unfold associate_minion. rewrite Hact. cbn [negb].
  destruct p as [x y]. cbn [fst snd] in Hd.
  cbn [enumerate length seq map combine find_best_match set_in existsb].
  rewrite Hd. cbn [bind]. rewrite Hsim. cbn [bind].
  replace (Qltb d config.REID_TOLERANCE) with true
    by (symmetry; apply Qltb_true; exact Hdl).
  replace (Qltb config.HIST_SIMILARITY_THRESHOLD s) with true
    by (symmetry; apply Qltb_true; exact Hgt).
  replace (Qltb 0 s) with true by (symmetry; apply Qltb_true; lra).
  cbn [andb bind Z.of_nat Z.eqb negb].
  change (py_index [(x, y)] 0) with (Ok (x, y) : result Point).
  cbn [bind]. rewrite Hupd. reflexivity.
Qed.

(** C1 (amended): for an active track the association pass scans the
    detections in detection order: the scan of no detection is the start
    (no match, the re-identification tolerance, similarity 0), and scanning
    one more detection offers it to the running best of the scan so far,
    which it replaces exactly when it is unused, nearer than the running
    minimum distance (halved within the prediction tolerance) and more
    similar than both the floor and the running best.  When the pass
    returns, the track is matched exactly when some detection is eligible,
    and it is updated with an eligible detection that no other eligible
    detection beats on both distance and similarity, which is marked used.
    On a well-formed track the pass returns whenever the track carries a
    histogram and every detection is in view, and no exception other than
    [cv2.error] (a degenerate region) can leave it.  In particular, with two active tracks and one detection within
    tolerance of the first, of similarity above the floor to the first and
    not above it to the second, only the first is updated, in either
    registry order. *)
Theorem association_scans_in_detection_order :
  (forall (minion : Minion) detected used frame mask now p,
     find_best_match minion (enumerate []) used frame mask now
       (-1)%Z config.REID_TOLERANCE 0
     = Ok ((-1)%Z, config.REID_TOLERANCE, 0) /\
     find_best_match minion (enumerate (detected ++ [p])) used frame mask now
       (-1)%Z config.REID_TOLERANCE 0
     = (running <-
          find_best_match minion (enumerate detected) used frame mask now
            (-1)%Z config.REID_TOLERANCE 0 ;;
        offer minion used frame mask now running
          (Z.of_nat (length detected), p))) /\
  (forall (minion minion' : Minion) detected used used' frame mask now,
     active minion = true ->
     associate_minion minion detected used frame mask now
     = Ok (minion', used') ->
     exists idx dmin smax,
       find_best_match minion (enumerate detected) used frame mask now
         (-1)%Z config.REID_TOLERANCE 0 = Ok (idx, dmin, smax) /\
       ((idx = (-1)%Z /\ minion' = minion /\ used' = used /\
         forall j q d s, ~ candidate minion detected used frame mask now j q d s)
        \/
        (exists p,
           candidate minion detected used frame mask now idx p dmin smax /\
           update_position minion p frame mask now = Ok minion' /\
           used' = set_add idx used /\
           forall j q d s,
             candidate minion detected used frame mask now j q d s ->
             ~ (d < dmin /\ smax < s)))) /\
  (forall (minion : Minion) detected used frame mask now,
     well_formed minion ->
     (has_histogram minion -> Forall (in_view frame) detected ->
      exists minion' used',
        associate_minion minion detected used frame mask now
        = Ok (minion', used')) /\
     (forall e,
        associate_minion minion detected used frame mask now = Raise e ->
        e = cv2_error)) /\
  (forall (A B : Minion) (ka kb : Z) (p last_pos : Point) frame mask now sA sB,
     well_formed A -> well_formed B ->
     active A = true -> active B = true ->
     py_index (positions A) (-1) = Ok last_pos ->
     hypot (fst last_pos - fst p) (snd last_pos - snd p)
       < config.REID_TOLERANCE ->
     similarity A frame mask p = Ok sA ->
     config.HIST_SIMILARITY_THRESHOLD < sA ->
     similarity B frame mask p = Ok sB ->
     sB <= config.HIST_SIMILARITY_THRESHOLD ->
     exists A',
       update_position A p frame mask now = Ok A' /\
       associate_loop [(ka, A); (kb, B)] [p] [] frame mask now
       = Ok ([(ka, A'); (kb, B)], [0%Z]) /\
       associate_loop [(kb, B); (ka, A)] [p] [] frame mask now
       = Ok ([(kb, B); (ka, A')], [0%Z])).
Proof.
  split; [| split; [| split]].
  - intros minion detected used frame mask now p. split; [reflexivity |].
    rewrite enumerate_snoc. apply find_best_match_snoc.
  - intros minion minion' detected used used' frame mask now Hact Hrun.
    exact (associate_minion_inv _ _ _ _ _ _ _ _ Hact Hrun).
  - intros minion detected used frame mask now Hwf. split.
    + intros Hh Hview.
      destruct (associate_minion_returns minion detected used frame mask now
                  Hwf Hh Hview) as (minion' & used' & Hrun & _).
      exists minion', used'. exact Hrun.
    + intros e H. exact (associate_minion_error _ _ _ _ _ _ _ Hwf H).
  - intros A B ka kb p last_pos frame mask now sA sB HwfA HwfB HactA HactB
      Hlast Hdist HsimA HgtA HsimB HleB.
    destruct (associate_minion_accepts A p last_pos frame mask now sA
                HwfA HactA Hlast Hdist HsimA HgtA) as (A' & Hupd & HA).
    exists A'. split; [exact Hupd |]. split.
    + cbn [associate_loop]. rewrite HA. cbn [bind].
      rewrite (associate_minion_rejects B p [0%Z] frame mask now sB
                 HwfB HsimB HleB).
      reflexivity.
    + cbn [associate_loop].
      rewrite (associate_minion_rejects B p [] frame mask now sB
                 HwfB HsimB HleB).
      cbn [bind]. rewrite HA. reflexivity.
Qed.

(** C2 (general form of the divergence): the association pass skips every
    inactive track, whatever the detections are; such a track comes out of
    the pass unchanged, at the same place of the registry. *)
Theorem inactive_track_is_never_associated :
  (forall (minion : Minion) detected used frame mask now,
     active minion = false ->
     associate_minion minion detected used frame mask now = Ok (minion, used)) /\
  (forall tracks detected used frame mask now tracks' used',
     associate_loop tracks detected used frame mask now = Ok (tracks', used') ->
     forall n k (minion : Minion),
       nth_error tracks n = Some (k, minion) ->
       active minion = false ->
       nth_error tracks' n = Some (k, minion)).
Proof.
  assert (Hskip : forall (minion : Minion) detected used frame mask now,
     active minion = false ->
     associate_minion minion detected used frame mask now = Ok (minion, used)).
  { intros minion detected used frame mask now Hact.
    unfold associate_minion. rewrite Hact. reflexivity. }
  split; [exact Hskip |].
  induction tracks as [| [k0 m0] rest IH];
    intros detected used frame mask now tracks' used' H n k minion Hnth Hact.
  - destruct n; discriminate.
  - cbn [associate_loop] in H.
    apply bind_Ok_inv in H. destruct H as ([m1 used1] & E1 & H).
    apply bind_Ok_inv in H. destruct H as ([rest1 used2] & E2 & H).
    injection H as <- <-.
    destruct n as [| n]; simpl in Hnth |- *.
    + injection Hnth as -> ->. rewrite (Hskip _ _ _ _ _ _ Hact) in E1.
      injection E1 as <- _. reflexivity.
    + exact (IH _ _ _ _ _ _ _ E2 n k minion Hnth Hact).
Qed.

End DetectorTheorems.

(** ** The detector on the example scene *)

Lemma Scene_track_a_well_formed : well_formed Scene.track_a.
Proof. unfold well_formed. simpl. repeat split; discriminate. Defined.

Lemma Scene_track_b_well_formed : well_formed Scene.track_b.
Proof. unfold well_formed. simpl. repeat split; discriminate. Defined.

(** C1 (as stated, refuted): the track at (100, 100) is offered a detection
    10 pixels away of similarity 0.5 and one 50 pixels away of similarity
    0.9; both are eligible, and the scan keeps the first. *)
Lemma association_not_most_similar :
  ~ selects_most_similar Scene.lone Scene.two_detections [] Scene.two_tone tt 1.
Proof.
  intro H.
  destruct (H 0%Z (50 # 10) (1 # 2)) with (j := 1%Z) (q := (150, 100) : Point)
    (d := 250 # 10) (s := 9 # 10) as [_ Hle].
  - vm_compute. reflexivity.
  - unfold candidate. repeat split; try (vm_compute; reflexivity).
    vm_compute. discriminate.
  - vm_compute in Hle. apply Hle. reflexivity.
Qed.

(** C1 on the scene: the two-track scenario in either registry order; the
    two detections of the refutation in the two detection orders, where the
    scan keeps whichever comes first; and a detection beyond the edge of the
    frame, on which the pass raises. *)
Lemma association_scans_in_detection_order_witness :
  (exists A',
     update_position Scene.track_a Scene.halfway (Scene.uniform (3 # 5)) tt 1
     = Ok A' /\
     associate_loop [(1%Z, Scene.track_a); (2%Z, Scene.track_b)]
       [Scene.halfway] [] (Scene.uniform (3 # 5)) tt 1
     = Ok ([(1%Z, A'); (2%Z, Scene.track_b)], [0%Z]) /\
     associate_loop [(2%Z, Scene.track_b); (1%Z, Scene.track_a)]
       [Scene.halfway] [] (Scene.uniform (3 # 5)) tt 1
     = Ok ([(2%Z, Scene.track_b); (1%Z, A')], [0%Z])) /\
  find_best_match Scene.lone (enumerate Scene.two_detections) []
    Scene.two_tone tt 1 (-1)%Z config.REID_TOLERANCE 0
  = Ok (0%Z, 50 # 10, 1 # 2) /\
  find_best_match Scene.lone (enumerate (rev Scene.two_detections)) []
    Scene.two_tone tt 1 (-1)%Z config.REID_TOLERANCE 0
  = Ok (0%Z, 250 # 10, 9 # 10) /\
  associate_minion Scene.lone [Scene.off_screen] [] (Scene.uniform 1) tt 1
  = Raise cv2_error.
Proof.
  split; [| split; [| split]]; try (vm_compute; reflexivity).
  apply (proj2 (proj2 (proj2
           (association_scans_in_detection_order (backend := Scene.backend))))
           Scene.track_a Scene.track_b 1%Z 2%Z Scene.halfway (100, 100)
           (Scene.uniform (3 # 5)) tt 1 (3 # 5) (5 # 25)).
  - exact Scene_track_a_well_formed.
  - exact Scene_track_b_well_formed.
  - reflexivity.
  - reflexivity.
  - vm_compute. reflexivity.
  - vm_compute. reflexivity.
  - vm_compute. reflexivity.
  - vm_compute. reflexivity.
  - vm_compute. reflexivity.
  - vm_compute. discriminate.
Defined.

Lemma inactive_track_is_never_associated_witness :
  Scene.after_silence = Ok Scene.silent /\
  nth_error (minions Scene.silent) 0 = Some (1%Z, Scene.forgotten) /\
  active Scene.forgotten = false /\
  match_distance Scene.forgotten 100 500 7 = Ok (0 # 10) /\
  similarity Scene.forgotten (Scene.uniform 1) tt (100, 500) = Ok 1 /\
  exists tracks',
    associate_loop (minions Scene.silent) [(100, 500)] [] (Scene.uniform 1) tt 7
    = Ok (tracks', []) /\
    nth_error tracks' 0 = Some (1%Z, Scene.forgotten).
Proof.
  assert (Hnth : nth_error (minions Scene.silent) 0 = Some (1%Z, Scene.forgotten))
    by (vm_compute; reflexivity).
  assert (Hact : active Scene.forgotten = false) by (vm_compute; reflexivity).
  assert (Eloop : associate_loop (minions Scene.silent) [(100, 500)] []
                    (Scene.uniform 1) tt 7 = Ok (minions Scene.silent, []))
    by (vm_compute; reflexivity).
  split; [vm_compute; reflexivity |]. split; [exact Hnth |].
  split; [exact Hact |]. split; [vm_compute; reflexivity |].
  split; [vm_compute; reflexivity |].
  exists (minions Scene.silent). split; [exact Eloop |].
  exact (proj2 (inactive_track_is_never_associated (backend := Scene.backend))
           _ _ _ _ _ _ _ _ Eloop 0%nat 1%Z Scene.forgotten Hnth Hact).
Defined.

(** C2 (the failing input): after the silence the track is inactive and
    retained; the detection that comes back at its position, at distance 0
    and similarity 1, is not associated to it but spawns track 2, and track 1
    stays inactive with its old [last_seen]. *)
Lemma returning_detection_spawns_new_track :
  Scene.after_return = Ok Scene.returned /\
  map (fun '(k, m) => (k, active m, last_seen m, positions m))
      (minions Scene.returned)
  = [(1%Z, false, 0, [(100, 500)]); (2%Z, true, 7, [(100, 500)])].
Proof.
  split; vm_compute; reflexivity.
Qed.

(** * Further properties of the tracker *)

(** ** minion.py: fields that never change, and the speed ceiling *)

Section MoreTrackTheorems.

Context {backend : Backend}.

Lemma py_max_ge_left (a b : Q) : a <= py_max a b.
Proof.
  unfold py_max. destruct (Qltb a b) eqn:E; [| apply Qle_refl].
  apply Qltb_true in E. apply Qlt_le_weak. exact E.
Qed.

(** X1: no operation on a track changes its identifier, its creation time,
    its spawn side or the frame size it was created with. *)
Theorem identity_fields_are_constant
  (self self' : Minion) (ops : list TrackOp) :
  apply_ops self ops = Ok self' ->
  id self' = id self /\
  creation_time self' = creation_time self /\
  spawn_side self' = spawn_side self /\
  frame_width self' = frame_width self /\
  frame_height self' = frame_height self.
Proof.
  revert self self'.
  apply (apply_ops_ind
           (fun m m' => id m' = id m /\
                        creation_time m' = creation_time m /\
                        spawn_side m' = spawn_side m /\
                        frame_width m' = frame_width m /\
                        frame_height m' = frame_height m)).
  - intro m. repeat split.
  - intros m1 m2 m3 (A1 & A2 & A3 & A4 & A5) (B1 & B2 & B3 & B4 & B5).
    repeat split; congruence.
  - intros m op m' E.
    destruct (apply_op_inv _ _ _ E) as [[o [-> Ho]] | [[t [-> ->]] | [-> ->]]].
    + unfold observe in Ho.
      destruct (update_position_inv _ _ _ _ _ _ Ho)
        as (_ & _ & _ & _ & _ & _ & _ & _ & _ & _ & Hsame & _).
      destruct Hsame as (H1 & H2 & H3 & H4 & H5 & _). auto.
    + repeat split.
    + repeat split.
Qed.

Lemma apply_ops_max_speed (self self' : Minion) (ops : list TrackOp) :
  apply_ops self ops = Ok self' -> max_speed self <= max_speed self'.
Proof.
  revert self self'.
  apply (apply_ops_ind (fun m m' => max_speed m <= max_speed m')).
  - intro m. apply Qle_refl.
  - intros m1 m2 m3. apply Qle_trans.
  - intros m op m' E.
    destruct (apply_op_inv _ _ _ E) as [[o [-> Ho]] | [[t [-> ->]] | [-> ->]]].
    + unfold observe in Ho.
      destruct (update_position_inv _ _ _ _ _ _ Ho)
        as (last_pos & t_last & _ & _ & _ & _ & _ & _ & _ & _ & _ & Hspeed & _).
      cbv zeta in Hspeed.
      destruct (Qltb 0 (obs_timestamp o - t_last)).
      * destruct Hspeed as [-> _]. apply py_max_ge_left.
      * destruct Hspeed as [-> _]. apply Qle_refl.
    + apply Qle_refl.
    + apply Qle_refl.
Qed.

(** X2: [max_speed] never decreases, so a track that has once been measured
    at 200 px/s or more is invalid at every later validation, whatever
    happens to it in between. *)
Theorem speed_glitch_invalidates_for_good
  (self self' : Minion) (ops : list TrackOp) (current_time : Q) :
  200 <= max_speed self ->
  apply_ops self (ops ++ [Validate current_time]) = Ok self' ->
  max_speed self <= max_speed self' /\ is_valid_minion self' = false.
Proof.
  intros Hfast H.
  assert (Hsplit : exists mid, apply_ops self ops = Ok mid /\
                               self' = validate_as_minion mid current_time).
  { clear Hfast. revert self H. induction ops as [| op ops IH]; intros self H.
    - simpl in H. injection H as <-. exists self. auto.
    - simpl in H. apply bind_Ok_inv in H. destruct H as (m1 & E1 & H).
      destruct (IH m1 H) as (mid & Hmid & ->).
      exists mid. split; [| reflexivity]. simpl. rewrite E1. exact Hmid. }
  destruct Hsplit as (mid & Hmid & ->).
  pose proof (apply_ops_max_speed _ _ _ Hmid) as Hle.
  split; [exact Hle |].
  unfold validate_as_minion. simpl.
  assert (Hslow : Qltb (max_speed mid) 200 = false)
    by (apply Qltb_false; lra).
  rewrite Hslow. rewrite !andb_false_r. reflexivity.
Qed.

End MoreTrackTheorems.

(** ** minion.py: the stages of [update_position] *)

Section UpdateStagesFacts.

Context {backend : Backend}.

Lemma update_position_stages (self : Minion) (position : Point)
  (frame : Frame) (mask : Mask) (timestamp : Q) :
  update_position self position frame mask timestamp =
  (last_pos <- py_index (positions self) (-1) ;;
   t_last <- py_index (timestamps self) (-1) ;;
   let distance :=
     hypot (fst position - fst last_pos) (snd position - snd last_pos) in
   self1 <- speed_metrics self distance (timestamp - t_last) ;;
   self2 <- calculate_direction_and_bridge
              (record_sample self1 position frame mask timestamp distance) ;;
   calculate_prediction self2 timestamp).
Proof. reflexivity. Qed.

Lemma update_position_stages_inv (self self' : Minion) (position : Point)
  (frame : Frame) (mask : Mask) (timestamp : Q) :
  update_position self position frame mask timestamp = Ok self' ->
  exists last_pos t_last self1 self2,
    py_index (positions self) (-1) = Ok last_pos /\
    py_index (timestamps self) (-1) = Ok t_last /\
    speed_metrics self
      (hypot (fst position - fst last_pos) (snd position - snd last_pos))
      (timestamp - t_last) = Ok self1 /\
    calculate_direction_and_bridge
      (record_sample self1 position frame mask timestamp
         (hypot (fst position - fst last_pos) (snd position - snd last_pos)))
    = Ok self2 /\
    calculate_prediction self2 timestamp = Ok self'.
Proof.
  rewrite update_position_stages. intro H.
  apply bind_Ok_inv in H. destruct H as (last_pos & Epos & H).
  apply bind_Ok_inv in H. destruct H as (t_last & Ets & H).
  cbv zeta in H.
  apply bind_Ok_inv in H. destruct H as (self1 & Espeed & H).
  apply bind_Ok_inv in H. destruct H as (self2 & Edir & H).
  exists last_pos, t_last, self1, self2. auto.
Qed.

End UpdateStagesFacts.

(** ** minion.py: the direction analysis *)

Section DirectionFacts.

Context {backend : Backend}.

Lemma calculate_direction_and_bridge_short (self : Minion) :
  (length (positions self) < 5)%nat ->
  calculate_direction_and_bridge self = Ok self.
Proof.
  intro Hlt. unfold calculate_direction_and_bridge.
  apply Nat.ltb_lt in Hlt. rewrite Hlt. reflexivity.
Qed.

Lemma calculate_direction_and_bridge_long (self self' : Minion) :
  (5 <= length (positions self))%nat ->
  calculate_direction_and_bridge self = Ok self' ->
  exists start_pos current_pos,
    py_index (positions self) 0 = Ok start_pos /\
    py_index (positions self) (-1) = Ok current_pos /\
    general_direction self' =
      (if Qltb 50 (Qabs (fst current_pos - fst start_pos))
       then if Qltb 0 (fst current_pos - fst start_pos) then "right" else "left"
       else general_direction self)%string /\
    original_classification self' =
      match original_classification self with
      | Some c => Some c
      | None => if String.eqb (general_direction self') "unknown" then None
                else Some (classify_as_enemy self')
      end /\
    current_side self' =
      (if Qltb (fst current_pos) (inject_Z (frame_width self) / 2)
       then "left" else "right")%string /\
    (optimal_bridge self' = "top"%string \/ optimal_bridge self' = "bottom"%string).
Proof.
  intros Hge H. unfold calculate_direction_and_bridge in H.
  apply Nat.ltb_ge in Hge. rewrite Hge in H.
  apply bind_Ok_inv in H. destruct H as (start_pos & Estart & H).
  apply bind_Ok_inv in H. destruct H as (current_pos & Ecur & H).
  exists start_pos, current_pos. split; [exact Estart |]. split; [exact Ecur |].
  cbv zeta in H.
  apply bind_Ok_inv in H. destruct H as (vertical_ratio & _ & H).
  clear Estart Ecur Hge.
  destruct self as [i0 ps ts ct ls ac hi ss cs0 gd0 ob0 fw fh td oc0 iv csf ms pp0 v0 a0].
  track_norm_in H. track_norm.
  unfold classify_as_enemy in *. track_norm_in H.
  destruct (Qltb 50 (Qabs (fst current_pos - fst start_pos)));
    [destruct (Qltb 0 (fst current_pos - fst start_pos)) |];
    track_norm_in H;
    destruct oc0 as [c |]; track_norm_in H;
    try (destruct (String.eqb gd0 "unknown") eqn:Egd; track_norm_in H);
    cbn [String.eqb Ascii.eqb Bool.eqb negb] in H;
    destruct (Qltb (fst current_pos) (inject_Z fw / 2));
    destruct (Qltb vertical_ratio 0.35);
    try destruct (Qltb 0.65 vertical_ratio);
    try destruct (Qle_bool (snd current_pos - snd start_pos) 0);
    injection H as <-; track_norm;
    cbn [String.eqb Ascii.eqb Bool.eqb negb]; rewrite ?Egd;
    repeat split; auto.
Qed.

End DirectionFacts.

(** ** minion.py: what an update does to the derived fields *)

Section DerivedFieldFacts.

Context {backend : Backend}.

Lemma speed_metrics_frame (self self1 : Minion) (distance time_diff : Q) :
  speed_metrics self distance time_diff = Ok self1 ->
  exists ms c,
    self1 = set_consecutive_stationary_frames c (set_max_speed ms self).
Proof.
  unfold speed_metrics. intro H.
  destruct (Qltb 0 time_diff).
  - apply bind_Ok_inv in H. destruct H as (speed & _ & H). cbv zeta in H.
    destruct (Qltb distance config.STATIONARY_THRESHOLD);
      injection H as <-; do 2 eexists; reflexivity.
  - injection H as <-. destruct self. do 2 eexists. reflexivity.
Qed.

Lemma calculate_prediction_short (self : Minion) (current_time : Q) :
  (length (positions self) < 5)%nat ->
  calculate_prediction self current_time = Ok self.
Proof.
  intro Hlt. unfold calculate_prediction, config.MIN_POINTS_FOR_PREDICTION.
  apply Nat.ltb_lt in Hlt. rewrite Hlt. reflexivity.
Qed.

Lemma calculate_prediction_long (self self' : Minion) (current_time : Q) :
  (5 <= length (positions self))%nat ->
  calculate_prediction self current_time = Ok self' ->
  exists last_pos,
    py_index (positions self) (-1) = Ok last_pos /\
    predicted_positions self' =
      (if moving self'
       then map (predicted_sample self' last_pos current_time)
                (np_arange 0.1 config.PREDICTION_TIME 0.1)
       else []).
Proof.
  intros Hge H.
  destruct (py_index_Ok (positions self) (-1)) as [last_pos Hlast]; [lia |].
  exists last_pos. split; [exact Hlast |].
  unfold calculate_prediction, config.MIN_POINTS_FOR_PREDICTION in H.
  apply Nat.ltb_ge in Hge. rewrite Hge in H. cbv zeta in H.
  apply bind_Ok_inv in H. destruct H as (self1 & Ekin & H).
  apply estimate_kinematics_frame in Ekin. destruct Ekin as (v & a & ->).
  assert (Hpos : positions
                   (set_predicted_positions []
                      (set_velocity v (set_acceleration a self)))
                 = positions self) by reflexivity.
  rewrite Hpos, Hlast in H. clear Hpos.
  unfold moving.
  destruct self as [i0 ps ts ct ls ac hi ss cs0 gd0 ob0 fw fh td oc0 iv csf ms pp0 v0 a0].
  track_norm_in H.
  destruct (Qltb 1 (Qabs (fst v)) || Qltb 1 (Qabs (snd v))) eqn:Emove;
    track_norm_in H; injection H as <-; track_norm; rewrite Emove; reflexivity.
Qed.

Lemma update_position_short (self self' : Minion) (position : Point)
  (frame : Frame) (mask : Mask) (timestamp : Q) :
  update_position self position frame mask timestamp = Ok self' ->
  (length (positions self') < 5)%nat ->
  derived_fields self' = derived_fields self.
Proof.
  intros H Hlt.
  destruct (update_position_inv _ _ _ _ _ _ H)
    as (_ & _ & _ & _ & Hp & _).
  destruct (update_position_stages_inv _ _ _ _ _ _ H)
    as (last_pos & t_last & self1 & self2 & _ & _ & Espeed & Edir & Epred).
  apply speed_metrics_frame in Espeed. destruct Espeed as (ms & c & ->).
  assert (Hshort : (length (positions
             (record_sample
                (set_consecutive_stationary_frames c (set_max_speed ms self))
                position frame mask timestamp
                (hypot (fst position - fst last_pos)
                   (snd position - snd last_pos)))) < 5)%nat).
  { rewrite Hp in Hlt. exact Hlt. }
  rewrite (calculate_direction_and_bridge_short _ Hshort) in Edir.
  injection Edir as <-.
  rewrite (calculate_prediction_short _ timestamp Hshort) in Epred.
  injection Epred as <-. reflexivity.
Qed.

Lemma apply_ops_short (self self' : Minion) (ops : list TrackOp) :
  apply_ops self ops = Ok self' ->
  (length (positions self') < 5)%nat ->
  (length (positions self) < 5)%nat /\
  derived_fields self' = derived_fields self.
Proof.
  revert self self'.
  apply (apply_ops_ind
           (fun m m' => (length (positions m') < 5)%nat ->
                        (length (positions m) < 5)%nat /\
                        derived_fields m' = derived_fields m)).
  - auto.
  - intros m1 m2 m3 H12 H23 H3.
    destruct (H23 H3) as [H2 E23]. destruct (H12 H2) as [H1 E12].
    split; [exact H1 | congruence].
  - intros m op m' E Hlt.
    destruct (apply_op_inv _ _ _ E) as [[o [-> Ho]] | [[t [-> ->]] | [-> ->]]].
    + unfold observe in Ho. split.
      * destruct (update_position_inv _ _ _ _ _ _ Ho)
          as (_ & _ & _ & _ & Hp & _).
        rewrite Hp, length_deque_append in Hlt. lia.
      * exact (update_position_short _ _ _ _ _ _ Ho Hlt).
    + auto.
    + auto.
Qed.

Lemma apply_ops_spawn_side (self self' : Minion) (ops : list TrackOp) :
  apply_ops self ops = Ok self' -> spawn_side self' = spawn_side self.
Proof.
  revert self self'.
  apply (apply_ops_ind (fun m m' => spawn_side m' = spawn_side m)).
  - reflexivity.
  - intros m1 m2 m3 A B. congruence.
  - intros m op m' E.
    destruct (apply_op_inv _ _ _ E) as [[o [-> Ho]] | [[t [-> ->]] | [-> ->]]];
      [| reflexivity | reflexivity].
    unfold observe in Ho.
    destruct (update_position_inv _ _ _ _ _ _ Ho)
      as (_ & _ & _ & _ & _ & _ & _ & _ & _ & _ & Hsame & _).
    destruct Hsame as (_ & _ & H3 & _). exact H3.
Qed.

(** X3: until a track holds 5 samples, every field derived from its history
    keeps its initial value: [current_side] is still the spawn side wherever
    the track has moved, the direction and the bridge are "unknown", nothing
    is classified or predicted, and velocity and acceleration are zero. *)
Theorem derived_fields_wait_for_five_samples
  (id : Z) (position : Point) (frame : Frame) (mask : Mask)
  (frame_width frame_height : Z) (timestamp : Q) (ops : list TrackOp)
  (self' : Minion) :
  apply_ops
    (Minion_init id position frame mask frame_width frame_height timestamp) ops
  = Ok self' ->
  (length (positions self') < 5)%nat ->
  current_side self' = spawn_side self' /\
  general_direction self' = "unknown"%string /\
  optimal_bridge self' = "unknown"%string /\
  original_classification self' = None /\
  predicted_positions self' = [] /\
  velocity self' = (0, 0) /\
  acceleration self' = (0, 0).
Proof.
  intros H Hlt.
  destruct (apply_ops_short _ _ _ H Hlt) as [_ Hd].
  pose proof (apply_ops_spawn_side _ _ _ H) as Hs.
  unfold derived_fields in Hd. simpl in Hd.
  injection Hd as -> -> -> -> -> -> ->. rewrite Hs. repeat split.
Qed.

End DerivedFieldFacts.

(** ** minion.py: direction and classification *)

Section ClassificationFacts.

Context {backend : Backend}.

Lemma classify_as_enemy_known (self : Minion) :
  general_direction self <> "unknown"%string ->
  classify_as_enemy self = String.eqb (general_direction self) "right".
Proof.
  intro Hk. unfold classify_as_enemy.
  destruct (String.eqb_spec (general_direction self) "unknown");
    [contradiction | reflexivity].
Qed.

Lemma update_position_classification (self self' : Minion) (position : Point)
  (frame : Frame) (mask : Mask) (timestamp : Q) :
  update_position self position frame mask timestamp = Ok self' ->
  classified_iff_directed self ->
  classified_iff_directed self' /\
  (general_direction self <> "unknown"%string ->
   general_direction self' <> "unknown"%string) /\
  (forall c, original_classification self = None ->
             original_classification self' = Some c ->
             c = String.eqb (general_direction self') "right").
Proof.
  intros H [Hval Hiff].
  destruct (update_position_inv _ _ _ _ _ _ H)
    as (_ & _ & _ & _ & Hp & _).
  destruct (Nat.lt_ge_cases (length (positions self')) 5) as [Hlt | Hge].
  - pose proof (update_position_short _ _ _ _ _ _ H Hlt) as Hd.
    unfold derived_fields in Hd. injection Hd as _ Hgd _ Hoc _ _ _.
    unfold classified_iff_directed. rewrite Hgd, Hoc.
    repeat split; try tauto. intros c Hnone Hsome. congruence.
  - destruct (update_position_stages_inv _ _ _ _ _ _ H)
      as (last_pos & t_last & self1 & self2 & _ & _ & Espeed & Edir & Epred).
    apply speed_metrics_frame in Espeed. destruct Espeed as (ms & c0 & ->).
    apply calculate_prediction_frame in Epred.
    destruct Epred as (v & a & pp & ->).
    rewrite Hp in Hge.
    match type of Edir with
    | calculate_direction_and_bridge ?X = _ =>
        assert (HgeX : (5 <= length (positions X))%nat) by exact Hge
    end.
    destruct (calculate_direction_and_bridge_long _ _ HgeX Edir)
      as (start_pos & current_pos & _ & _ & Hgd & Hoc & _).
    cbn [general_direction original_classification record_sample
         set_hist set_active set_last_seen set_timestamps set_positions
         set_total_distance_traveled set_consecutive_stationary_frames
         set_max_speed] in Hgd, Hoc.
    unfold classified_iff_directed.
    cbn [general_direction original_classification set_predicted_positions
         set_velocity set_acceleration].
    assert (Hnew : general_direction self2 = general_direction self \/
                   general_direction self2 = "right"%string \/
                   general_direction self2 = "left"%string).
    { rewrite Hgd. destruct (Qltb 50 _); [destruct (Qltb 0 _) |]; auto. }
    assert (Hcls : general_direction self2 <> "unknown"%string ->
                   classify_as_enemy self2
                   = String.eqb (general_direction self2) "right")
      by apply classify_as_enemy_known.
    clear Hgd. unfold direction_value in *.
    assert (Hdv : direction_value (general_direction self2)).
    { unfold direction_value.
      destruct Hnew as [E | [E | E]]; rewrite E; auto. }
    destruct (original_classification self) as [c |] eqn:Eoc.
    + assert (Hk : general_direction self <> "unknown"%string).
      { intro E. apply Hiff in E. discriminate. }
      rewrite Hoc.
      assert (Hk2 : general_direction self2 <> "unknown"%string).
      { destruct Hnew as [-> | [-> | ->]]; [exact Hk | |]; discriminate. }
      split; [split; [exact Hdv | split; [discriminate | contradiction]] |].
      split; [intros _; exact Hk2 | intros c' Hnone; discriminate].
    + assert (Hu : general_direction self = "unknown"%string)
        by (apply Hiff; reflexivity).
      rewrite Hoc.
      destruct (String.eqb_spec (general_direction self2) "unknown") as [E | Hk2].
      * split; [split; [exact Hdv | split; [intros _; exact E | reflexivity]] |].
        split; [intro Hk; contradiction | intros c' _ Hsome; discriminate].
      * split; [split; [exact Hdv | split; [discriminate | contradiction]] |].
        split; [intros _; exact Hk2 |].
        intros c' _ Hsome. injection Hsome as <-. apply Hcls. exact Hk2.
Qed.

Lemma apply_ops_classification (self self' : Minion) (ops : list TrackOp) :
  apply_ops self ops = Ok self' ->
  classified_iff_directed self ->
  classified_iff_directed self' /\
  (general_direction self <> "unknown"%string ->
   general_direction self' <> "unknown"%string).
Proof.
  revert self self'.
  apply (apply_ops_ind
           (fun m m' => classified_iff_directed m ->
                        classified_iff_directed m' /\
                        (general_direction m <> "unknown"%string ->
                         general_direction m' <> "unknown"%string))).
  - auto.
  - intros m1 m2 m3 H12 H23 H1.
    destruct (H12 H1) as [H2 K12]. destruct (H23 H2) as [H3 K23]. auto.
  - intros m op m' E Hm.
    destruct (apply_op_inv _ _ _ E) as [[o [-> Ho]] | [[t [-> ->]] | [-> ->]]].
    + unfold observe in Ho.
      destruct (update_position_classification _ _ _ _ _ _ Ho Hm)
        as (H1 & H2 & _). auto.
    + auto.
    + auto.
Qed.

(** X4: on every track built by [Minion.__init__] and taken through any
    operations, [general_direction] is "unknown", "left" or "right", and
    [original_classification] is set exactly when the direction is known;
    once known, the direction never goes back to "unknown". *)
Theorem classified_exactly_when_direction_known
  (id : Z) (position : Point) (frame : Frame) (mask : Mask)
  (frame_width frame_height : Z) (timestamp : Q)
  (ops more : list TrackOp) (self' self'' : Minion) :
  apply_ops
    (Minion_init id position frame mask frame_width frame_height timestamp) ops
  = Ok self' ->
  apply_ops self' more = Ok self'' ->
  direction_value (general_direction self') /\
  (original_classification self' = None <->
   general_direction self' = "unknown"%string) /\
  (general_direction self' <> "unknown"%string ->
   general_direction self'' <> "unknown"%string).
Proof.
  intros H Hmore.
  assert (Hinit : classified_iff_directed
            (Minion_init id position frame mask frame_width frame_height
               timestamp)).
  { unfold classified_iff_directed, direction_value. simpl. tauto. }
  destruct (apply_ops_classification _ _ _ H Hinit) as [[Hv Hiff] _].
  destruct (apply_ops_classification _ _ _ Hmore (conj Hv Hiff)) as [_ Hk].
  auto.
Qed.

(** X5: when an update sets [original_classification], the value it freezes
    is whether the direction it has just found is "right" (the player side
    being "left"): a track first seen moving right is an enemy for good, one
    first seen moving left never is. *)
Theorem classification_records_first_direction
  (self self' : Minion) (position : Point) (frame : Frame) (mask : Mask)
  (timestamp : Q) (c : bool) :
  classified_iff_directed self ->
  update_position self position frame mask timestamp = Ok self' ->
  original_classification self = None ->
  original_classification self' = Some c ->
  general_direction self' <> "unknown"%string /\
  c = String.eqb (general_direction self') "right".
Proof.
  intros Hinv H Hnone Hsome.
  destruct (update_position_classification _ _ _ _ _ _ H Hinv)
    as ([_ Hiff] & _ & Hc).
  split; [| exact (Hc c Hnone Hsome)].
  intro E. apply Hiff in E. congruence.
Qed.

End ClassificationFacts.

(** ** minion.py: the predicted trajectory *)

Lemma py_clamp_bounds (hi v : Q) :
  0 <= hi -> 0 <= py_max 0 (py_min hi v) /\ py_max 0 (py_min hi v) <= hi.
Proof.
  intro Hhi. unfold py_max, py_min.
  destruct (Qltb v hi) eqn:E1.
  - apply Qltb_true in E1. destruct (Qltb 0 v) eqn:E2.
    + apply Qltb_true in E2. split; lra.
    + split; lra.
  - apply Qltb_false in E1. destruct (Qltb 0 hi) eqn:E2; split; lra.
Qed.

Lemma np_arange_positive (start stop step dt : Q) :
  0 < start -> 0 <= step -> In dt (np_arange start stop step) -> 0 < dt.
Proof.
  intros Hstart Hstep Hin. unfold np_arange in Hin.
  apply in_map_iff in Hin. destruct Hin as (i & <- & _).
  assert (0 <= inject_Z (Z.of_nat i) * step).
  { apply Qmult_le_0_compat; [| exact Hstep].
    change 0 with (inject_Z 0). rewrite <- Zle_Qle. lia. }
  lra.
Qed.

Section PredictionFacts.

Context {backend : Backend}.

Lemma predicted_samples_in_frame (self : Minion) (last_pos : Point)
  (current_time : Q) :
  (0 <= frame_width self)%Z -> (0 <= frame_height self)%Z ->
  Forall (fun s : Q * Q * Q =>
            (0 <= fst (fst s) /\ fst (fst s) <= inject_Z (frame_width self)) /\
            (0 <= snd (fst s) /\ snd (fst s) <= inject_Z (frame_height self)) /\
            current_time < snd s)
    (map (predicted_sample self last_pos current_time)
         (np_arange 0.1 config.PREDICTION_TIME 0.1)).
Proof.
  intros Hw Hh. apply Forall_forall. intros s Hin.
  apply in_map_iff in Hin. destruct Hin as (dt & <- & Hdt).
  apply np_arange_positive in Hdt; [| lra | lra].
  assert (HwQ : 0 <= inject_Z (frame_width self))
    by (change 0 with (inject_Z 0); rewrite <- Zle_Qle; exact Hw).
  assert (HhQ : 0 <= inject_Z (frame_height self))
    by (change 0 with (inject_Z 0); rewrite <- Zle_Qle; exact Hh).
  unfold predicted_sample. cbn [fst snd].
  split; [apply py_clamp_bounds; exact HwQ |].
  split; [apply py_clamp_bounds; exact HhQ | lra].
Qed.

Lemma update_position_predictions (self self' : Minion) (position : Point)
  (frame : Frame) (mask : Mask) (timestamp : Q) :
  update_position self position frame mask timestamp = Ok self' ->
  (0 <= frame_width self)%Z -> (0 <= frame_height self)%Z ->
  ((length (positions self) < 5)%nat -> predicted_positions self = []) ->
  predictions_in_frame self' /\
  ((length (positions self') < 5)%nat -> predicted_positions self' = []).
Proof.
  intros H Hw Hh Hempty.
  destruct (update_position_inv _ _ _ _ _ _ H)
    as (_ & _ & _ & _ & Hp & _ & _ & Hseen & _ & _ & Hsame & _).
  destruct Hsame as (_ & _ & _ & Hfw & Hfh & _).
  destruct (Nat.lt_ge_cases (length (positions self')) 5) as [Hlt | Hge].
  - pose proof (update_position_short _ _ _ _ _ _ H Hlt) as Hd.
    unfold derived_fields in Hd. injection Hd as _ _ _ _ Hpp _ _.
    assert (Hnone : predicted_positions self' = []).
    { rewrite Hpp. apply Hempty.
      rewrite Hp, length_deque_append in Hlt. lia. }
    split; [| intros _; exact Hnone].
    unfold predictions_in_frame. rewrite Hnone. constructor.
  - split; [| intro Hlt; lia].
    destruct (update_position_stages_inv _ _ _ _ _ _ H)
      as (last_pos & t_last & self1 & self2 & _ & _ & _ & _ & Epred).
    assert (Hge2 : (5 <= length (positions self2))%nat).
    { pose proof Epred as Ef. apply calculate_prediction_frame in Ef.
      destruct Ef as (v & a & pp & Ef). rewrite Ef in Hge. exact Hge. }
    destruct (calculate_prediction_long _ _ _ Hge2 Epred)
      as (last & _ & Hpp).
    unfold predictions_in_frame. rewrite Hpp, Hseen.
    destruct (moving self'); [| constructor].
    apply predicted_samples_in_frame; congruence.
Qed.

(** X6: on every track created with a frame of non-negative size, after any
    operations, each predicted sample lies inside the frame and carries a
    timestamp later than the track's last sighting; below 5 samples there is
    no prediction at all. *)
Theorem predictions_stay_in_frame
  (id : Z) (position : Point) (frame : Frame) (mask : Mask)
  (width height : Z) (timestamp : Q) (ops : list TrackOp)
  (self' : Minion) :
  (0 <= width)%Z -> (0 <= height)%Z ->
  apply_ops (Minion_init id position frame mask width height timestamp) ops
  = Ok self' ->
  predictions_in_frame self' /\
  ((length (positions self') < 5)%nat -> predicted_positions self' = []).
Proof.
  intros Hw Hh H.
  set (created := Minion_init id position frame mask width height timestamp)
    in *.
  assert (Hinv : forall m m',
    apply_ops m ops = Ok m' ->
    ((0 <= frame_width m)%Z /\ (0 <= frame_height m)%Z /\
     predictions_in_frame m /\
     ((length (positions m) < 5)%nat -> predicted_positions m = [])) ->
    ((0 <= frame_width m')%Z /\ (0 <= frame_height m')%Z /\
     predictions_in_frame m' /\
     ((length (positions m') < 5)%nat -> predicted_positions m' = []))).
  { apply (apply_ops_ind
      (fun m m' =>
         ((0 <= frame_width m)%Z /\ (0 <= frame_height m)%Z /\
          predictions_in_frame m /\
          ((length (positions m) < 5)%nat -> predicted_positions m = [])) ->
         ((0 <= frame_width m')%Z /\ (0 <= frame_height m')%Z /\
          predictions_in_frame m' /\
          ((length (positions m') < 5)%nat -> predicted_positions m' = [])))).
    - auto.
    - auto.
    - intros m op m' E (Hfw & Hfh & Hin & Hnone).
      destruct (apply_op_inv _ _ _ E) as [[o [-> Ho]] | [[t [-> ->]] | [-> ->]]].
      + unfold observe in Ho.
        destruct (update_position_inv _ _ _ _ _ _ Ho)
          as (_ & _ & _ & _ & _ & _ & _ & _ & _ & _ & Hsame & _).
        destruct Hsame as (_ & _ & _ & Hfw' & Hfh' & _).
        destruct (update_position_predictions _ _ _ _ _ _ Ho Hfw Hfh Hnone)
          as [H1 H2].
        rewrite Hfw', Hfh'. auto.
      + auto.
      + auto. }
  destruct (Hinv created self' H) as (_ & _ & H1 & H2); [| auto].
  subst created. simpl. repeat split; auto.
  unfold predictions_in_frame. simpl. constructor.
Qed.

End PredictionFacts.

(** ** minion.py: the point-in-time prediction *)

Section PredictionQueryFacts.

Context {backend : Backend}.

(** X7: [get_predicted_position_at_time] answers with the last known position
    whenever the track has no stored prediction, whatever the target time;
    asked about the time of the last sample it answers with (a position
    equal to) the last position; on an empty history without prediction it
    answers [None], and with a stored prediction and two timestamps but no
    position it raises [IndexError]. *)
Theorem predicted_position_query :
  (forall (self : Minion) (target_time : Q) (last_pos : Point),
     py_index (positions self) (-1) = Ok last_pos ->
     predicted_positions self = [] ->
     get_predicted_position_at_time self target_time = Ok (Some last_pos)) /\
  (forall (self : Minion) (last_pos : Point) (t_last : Q),
     py_index (positions self) (-1) = Ok last_pos ->
     py_index (timestamps self) (-1) = Ok t_last ->
     exists p,
       get_predicted_position_at_time self t_last = Ok (Some p) /\
       fst p == fst last_pos /\ snd p == snd last_pos) /\
  (forall (self : Minion) (target_time : Q),
     positions self = [] ->
     predicted_positions self = [] \/ (length (timestamps self) < 2)%nat ->
     get_predicted_position_at_time self target_time = Ok None) /\
  (forall (self : Minion) (target_time : Q),
     positions self = [] ->
     predicted_positions self <> [] -> (2 <= length (timestamps self))%nat ->
     get_predicted_position_at_time self target_time = Raise IndexError).
Proof.
  split; [| split; [| split]].
  - intros self target_time last_pos Hlast Hnone.
    unfold get_predicted_position_at_time. rewrite Hnone. cbn [orb].
    assert (Hpos : (0 <? length (positions self))%nat = true).
    { apply Nat.ltb_lt. destruct (positions self); [discriminate | simpl; lia]. }
    rewrite Hpos, Hlast. reflexivity.
  - intros self last_pos t_last Hlast Hts.
    assert (Hpos : (0 <? length (positions self))%nat = true).
    { apply Nat.ltb_lt. destruct (positions self); [discriminate | simpl; lia]. }
    unfold get_predicted_position_at_time.
    destruct (match predicted_positions self with [] => true | _ :: _ => false end
              || (length (timestamps self) <? 2)%nat).
    + rewrite Hpos, Hlast. cbn [bind]. exists last_pos.
      split; [reflexivity | split; reflexivity].
    + rewrite Hlast, Hts. cbn [bind]. eexists. split; [reflexivity |].
      cbn [fst snd]. split; ring.
  - intros self target_time Hempty Hcase.
    unfold get_predicted_position_at_time.
    destruct Hcase as [-> | Hlt].
    + cbn [orb]. rewrite Hempty. reflexivity.
    + apply Nat.ltb_lt in Hlt. rewrite Hlt, orb_true_r, Hempty. reflexivity.
  - intros self target_time Hempty Hpp Hts.
    unfold get_predicted_position_at_time. rewrite Hempty.
    destruct (predicted_positions self); [contradiction |].
    apply Nat.ltb_ge in Hts. rewrite Hts. reflexivity.
Qed.

End PredictionQueryFacts.

(** ** detector.py: the status pass *)

Lemma StronglySorted_lt_NoDup (ks : list Z) :
  StronglySorted Z.lt ks -> NoDup ks.
Proof.
  induction 1 as [| k ks _ IH Hall]; constructor; [| exact IH].
  intro Hin. rewrite Forall_forall in Hall. specialize (Hall k Hin). lia.
Qed.

Lemma StronglySorted_lt_app (l1 l2 : list Z) :
  StronglySorted Z.lt l1 -> StronglySorted Z.lt l2 ->
  (forall x y, In x l1 -> In y l2 -> (x < y)%Z) ->
  StronglySorted Z.lt (l1 ++ l2).
Proof.
  intros H1 H2 Hlt. induction H1 as [| k ks _ IH Hall]; simpl; [exact H2 |].
  constructor.
  - apply IH. intros x y Hx Hy. apply Hlt; [right; exact Hx | exact Hy].
  - apply Forall_app. split; [exact Hall |].
    apply Forall_forall. intros y Hy. apply Hlt; [left; reflexivity | exact Hy].
Qed.

Lemma StronglySorted_keys_filter {V : Type} (f : Z * V -> bool)
  (l : list (Z * V)) :
  StronglySorted Z.lt (map fst l) ->
  StronglySorted Z.lt (map fst (filter f l)).
Proof.
  induction l as [| [k v] rest IH]; simpl; intro H; [constructor |].
  apply StronglySorted_inv in H. destruct H as [Hrest Hall].
  destruct (f (k, v)); simpl; [| exact (IH Hrest)].
  constructor; [exact (IH Hrest) |].
  rewrite Forall_forall in *. intros y Hy. apply Hall.
  apply in_map_iff in Hy. destruct Hy as (x & <- & Hx).
  apply filter_In in Hx. apply in_map. tauto.
Qed.

Section StatusPassFacts.

Context {backend : Backend}.

Lemma status_loop_spec (tracks : list (Z * Minion)) (current_time : Q) :
  status_loop tracks current_time =
  (map (fun '(k, m) => (k, aged current_time m)) tracks,
   map fst (filter (fun '(_, m) => too_old current_time m) tracks)).
Proof.
  induction tracks as [| [k m] rest IH]; [reflexivity |].
  cbn [status_loop]. rewrite IH. cbn [map filter].
  unfold too_old, aged.
  destruct (Qltb config.MOVEMENT_MEMORY (current_time - last_seen m)).
  - change (last_seen (validate_as_minion (set_active false m) current_time))
      with (last_seen m).
    destruct (Qltb config.REID_MAX_TIME (current_time - last_seen m));
      reflexivity.
  - change (last_seen (validate_as_minion m current_time)) with (last_seen m).
    destruct (Qltb config.REID_MAX_TIME (current_time - last_seen m));
      reflexivity.
Qed.

Lemma remove_loop_keep (ks : list Z) :
  forall (k : Z) (m : Minion) (rest kept : list (Z * Minion)),
    ~ In k ks ->
    remove_loop rest ks = Ok kept ->
    remove_loop ((k, m) :: rest) ks = Ok ((k, m) :: kept).
Proof.
  induction ks as [| k1 ks IH]; simpl; intros k m rest kept Hnot H.
  - injection H as <-. reflexivity.
  - apply bind_Ok_inv in H. destruct H as (rest1 & Edel & H).
    destruct (Z.eqb_spec k k1) as [E | _]; [exfalso; apply Hnot; auto |].
    rewrite Edel. cbn [bind]. apply IH; [| exact H].
    intro Hin. apply Hnot. auto.
Qed.

Lemma remove_loop_filter (f : Minion -> bool) (tracks : list (Z * Minion)) :
  NoDup (map fst tracks) ->
  remove_loop tracks (map fst (filter (fun '(_, m) => f m) tracks))
  = Ok (filter (fun '(_, m) => negb (f m)) tracks).
Proof.
  induction tracks as [| [k m] rest IH]; simpl; intro Hnd; [reflexivity |].
  apply NoDup_cons_iff in Hnd. destruct Hnd as [Hnot Hnd].
  destruct (f m); simpl.
  - rewrite Z.eqb_refl. cbn [bind]. exact (IH Hnd).
  - apply remove_loop_keep; [| exact (IH Hnd)].
    intro Hin. apply Hnot. apply in_map_iff in Hin.
    destruct Hin as (x & <- & Hx). apply filter_In in Hx.
    apply in_map. tauto.
Qed.

Lemma update_minion_status_spec (self : MinionDetector) (current_time : Q) :
  NoDup (map fst (minions self)) ->
  _update_minion_status self current_time =
  Ok {| minions :=
          map (fun '(k, m) => (k, aged current_time m))
              (filter (fun '(_, m) => negb (too_old current_time m))
                      (minions self));
        next_minion_id := next_minion_id self |}.
Proof.
  intro Hnd. unfold _update_minion_status. rewrite status_loop_spec.
  set (tracks := minions self) in *.
  assert (Hremoved :
    map fst (filter (fun '(_, m) => too_old current_time m) tracks)
    = map fst (filter (fun '(_, m) => too_old current_time m)
                 (map (fun '(k, m) => (k, aged current_time m)) tracks))).
  { clear Hnd. induction tracks as [| [k m] rest IH]; simpl; [reflexivity |].
    assert (Hsame : too_old current_time (aged current_time m)
                    = too_old current_time m).
    { unfold too_old, aged.
      destruct (Qltb config.MOVEMENT_MEMORY (current_time - last_seen m));
        reflexivity. }
    rewrite Hsame. destruct (too_old current_time m); simpl; rewrite IH;
      reflexivity. }
  rewrite Hremoved.
  rewrite (remove_loop_filter (too_old current_time)).
  - cbn [bind]. f_equal. f_equal.
    clear Hnd Hremoved. induction tracks as [| [k m] rest IH]; simpl;
      [reflexivity |].
    assert (Hsame : too_old current_time (aged current_time m)
                    = too_old current_time m).
    { unfold too_old, aged.
      destruct (Qltb config.MOVEMENT_MEMORY (current_time - last_seen m));
        reflexivity. }
    rewrite Hsame. destruct (too_old current_time m); simpl; rewrite IH;
      reflexivity.
  - rewrite map_map.
    replace (map (fun x : Z * Minion =>
                    fst (let '(k, m) := x in (k, aged current_time m))) tracks)
      with (map fst tracks); [exact Hnd |].
    apply map_ext. intros [k m]. reflexivity.
Qed.

End StatusPassFacts.

(** ** detector.py: a whole cycle *)

Section CycleFacts.

Context {backend : Backend}.

(** What [associate_minion] keeps of a track, when it returns. *)
Lemma associate_minion_keeps (minion minion' : Minion) (detected : list Point)
  (used used' : list Z) (frame : Frame) (mask : Mask) (now : Q) :
  well_formed minion ->
  associate_minion minion detected used frame mask now = Ok (minion', used') ->
  well_formed minion' /\ id minion' = id minion /\
  (has_histogram minion -> has_histogram minion').
Proof.
  intros Hwf H. destruct (active minion) eqn:Hact.
  - destruct (associate_minion_inv _ _ _ _ _ _ _ _ Hact H)
      as (idx & dmin & smax & _ & Hcases).
    destruct Hcases as [(_ & -> & _) | (p & Hcand & Hupd & _)]; [auto |].
    destruct (update_position_returns minion p frame mask now Hwf)
      as (m2 & Hupd2 & Hwf2).
    rewrite Hupd in Hupd2. injection Hupd2 as <-.
    split; [exact Hwf2 |].
    destruct (update_position_inv _ _ _ _ _ _ Hupd)
      as (_ & _ & _ & _ & _ & _ & _ & _ & _ & Hhist & Hsame & _).
    destruct Hsame as (Hid & _). split; [exact Hid |]. intros _.
    destruct Hcand as (_ & _ & _ & _ & Hsim & _).
    apply similarity_Ok_inv in Hsim. destruct Hsim as [_ Hview].
    unfold has_histogram. rewrite Hhist.
    destruct (compute_hist_in_view frame mask p Hview) as [h ->]. discriminate.
  - unfold associate_minion in H. rewrite Hact in H. cbn [negb] in H.
    injection H as <- _. auto.
Qed.

Lemma associate_loop_inv (tracks : list (Z * Minion)) :
  forall (detected : list Point) (used : list Z) (frame : Frame) (mask : Mask)
         (now : Q) (tracks' : list (Z * Minion)) (used' : list Z),
    (forall k minion, In (k, minion) tracks ->
                      well_formed minion /\ id minion = k) ->
    associate_loop tracks detected used frame mask now = Ok (tracks', used') ->
    map fst tracks' = map fst tracks /\
    (forall k minion, In (k, minion) tracks' ->
                      well_formed minion /\ id minion = k) /\
    ((forall k minion, In (k, minion) tracks -> has_histogram minion) ->
     forall k minion, In (k, minion) tracks' -> has_histogram minion).
Proof.
  induction tracks as [| [k m] rest IH];
    intros detected used frame mask now tracks' used' Hall H.
  - simpl in H. injection H as <- _.
    split; [reflexivity |]. split; [intros k0 m0 [] | intros _ k0 m0 []].
  - cbn [associate_loop] in H.
    apply bind_Ok_inv in H. destruct H as ([m1 used1] & E1 & H).
    apply bind_Ok_inv in H. destruct H as ([rest1 used2] & E2 & H).
    injection H as <- <-.
    destruct (Hall k m (or_introl eq_refl)) as [Hwf Hid].
    destruct (associate_minion_keeps _ _ _ _ _ _ _ _ Hwf E1)
      as (Hwf1 & Hid1 & Hh1).
    destruct (IH _ _ _ _ _ _ _
                (fun k0 m0 Hin => Hall k0 m0 (or_intror Hin)) E2)
      as (Hk & Hall' & Hh').
    split; [simpl; rewrite Hk; reflexivity |]. split.
    + intros k0 m0 [Hin | Hin].
      * injection Hin as <- <-. split; [exact Hwf1 | congruence].
      * exact (Hall' k0 m0 Hin).
    + intros Hh k0 m0 [Hin | Hin].
      * injection Hin as <- <-. apply Hh1. apply (Hh k). left. reflexivity.
      * apply (Hh' (fun k1 m1 Hin1 => Hh k1 m1 (or_intror Hin1)) k0 m0 Hin).
Qed.

Lemma associate_loop_returns (tracks : list (Z * Minion)) :
  forall (detected : list Point) (used : list Z) (frame : Frame) (mask : Mask)
         (now : Q),
    (forall k minion, In (k, minion) tracks -> well_formed minion) ->
    (forall k minion, In (k, minion) tracks -> has_histogram minion) ->
    Forall (in_view frame) detected ->
    exists tracks' used',
      associate_loop tracks detected used frame mask now = Ok (tracks', used').
Proof.
  induction tracks as [| [k m] rest IH];
    intros detected used frame mask now Hall Hh Hview.
  - simpl. eauto.
  - destruct (associate_minion_returns m detected used frame mask now
                (Hall k m (or_introl eq_refl)) (Hh k m (or_introl eq_refl))
                Hview) as (m' & used1 & E1 & _).
    destruct (IH detected used1 frame mask now
                (fun k0 m0 Hin => Hall k0 m0 (or_intror Hin))
                (fun k0 m0 Hin => Hh k0 m0 (or_intror Hin)) Hview)
      as (rest' & used2 & E2).
    cbn [associate_loop]. rewrite E1. cbn [bind]. rewrite E2. cbn [bind].
    eauto.
Qed.

Lemma associate_loop_error (tracks : list (Z * Minion)) :
  forall (detected : list Point) (used : list Z) (frame : Frame) (mask : Mask)
         (now : Q) (e : PyErr),
    (forall k minion, In (k, minion) tracks -> well_formed minion) ->
    associate_loop tracks detected used frame mask now = Raise e ->
    e = cv2_error.
Proof.
  induction tracks as [| [k m] rest IH];
    intros detected used frame mask now e Hall H.
  - discriminate.
  - cbn [associate_loop] in H.
    destruct (associate_minion m detected used frame mask now)
      as [[m1 used1] | e1] eqn:E1; cbn [bind] in H.
    + destruct (associate_loop rest detected used1 frame mask now)
        as [[rest1 used2] | e2] eqn:E2; cbn [bind] in H; [discriminate |].
      injection H as <-.
      exact (IH _ _ _ _ _ _ (fun k0 m0 Hin => Hall k0 m0 (or_intror Hin)) E2).
    + injection H as <-.
      exact (associate_minion_error _ _ _ _ _ _ _
               (Hall k m (or_introl eq_refl)) E1).
Qed.

Lemma spawn_from_ok (points : list Point) :
  forall (next_id : Z) (frame : Frame) (mask : Mask) (now : Q),
    (forall k minion, In (k, minion) (spawn_from next_id points frame mask now) ->
                      well_formed minion /\ id minion = k /\ (next_id <= k)%Z) /\
    StronglySorted Z.lt (map fst (spawn_from next_id points frame mask now)).
Proof.
  induction points as [| p rest IH]; intros next_id frame mask now; simpl.
  - split; [intros k minion [] | constructor].
  - destruct (IH (next_id + 1)%Z frame mask now) as [Hall Hsorted]. split.
    + intros k minion [Hin | Hin].
      * injection Hin as <- <-.
        split; [apply Minion_init_well_formed; discriminate |].
        split; [reflexivity | lia].
      * destruct (Hall k minion Hin) as (H1 & H2 & H3).
        split; [exact H1 | split; [exact H2 | lia]].
    + constructor; [exact Hsorted |].
      apply Forall_forall. intros k Hin. apply in_map_iff in Hin.
      destruct Hin as ([k0 m0] & <- & Hin0).
      destruct (Hall k0 m0 Hin0) as (_ & _ & Hle). simpl. lia.
Qed.

Lemma create_new_minions_ok (self : MinionDetector) (detected : list Point)
  (used : list Z) (frame : Frame) (mask : Mask) (now : Q) :
  registry_ok self ->
  registry_ok (_create_new_minions self detected used frame mask now).
Proof.
  intros (Hall & Hsorted & Hbelow). unfold _create_new_minions.
  destruct (_is_mass_spawn_event detected now) eqn:Hmass.
  - rewrite create_loop_mass_spawn by exact Hmass.
    exact (conj Hall (conj Hsorted Hbelow)).
  - destruct (create_loop_spawns (enumerate detected) self detected used
                frame mask now Hmass Hbelow) as (Hm & _ & Hb).
    cbv zeta in Hm, Hb.
    set (self' := create_loop (enumerate detected) self detected used
                    frame mask now) in *.
    set (fresh := map snd (filter (fun '(i, _) => negb (set_in i used))
                             (enumerate detected))) in *.
    destruct (spawn_from_ok fresh (next_minion_id self) frame mask now)
      as [Hnew Hnew_sorted].
    split; [| split; [| exact Hb]].
    + intros k minion Hin. rewrite Hm in Hin. apply in_app_or in Hin.
      destruct Hin as [Hin | Hin]; [exact (Hall k minion Hin) |].
      destruct (Hnew k minion Hin) as (H1 & H2 & _). auto.
    + rewrite Hm, map_app. apply StronglySorted_lt_app; auto.
      intros x y Hx Hy.
      apply in_map_iff in Hx. destruct Hx as ([kx mx] & <- & Hx).
      apply in_map_iff in Hy. destruct Hy as ([ky my] & <- & Hy).
      specialize (Hbelow kx mx Hx).
      destruct (Hnew ky my Hy) as (_ & _ & Hle). simpl. lia.
Qed.

Lemma aged_ok (now : Q) (minion : Minion) :
  well_formed minion -> well_formed (aged now minion) /\
                        id (aged now minion) = id minion.
Proof.
  intro Hwf. unfold aged.
  destruct (Qltb config.MOVEMENT_MEMORY (now - last_seen minion));
    split; try reflexivity; exact Hwf.
Qed.

Lemma registry_ok_init : registry_ok MinionDetector_init.
Proof.
  split; [intros k m [] | split; [constructor | intros k m []]].
Qed.

Lemma aged_histogram (now : Q) (minion : Minion) :
  has_histogram minion -> has_histogram (aged now minion).
Proof.
  unfold aged, has_histogram.
  destruct (Qltb config.MOVEMENT_MEMORY (now - last_seen minion)); auto.
Qed.

(** A spawned track was last seen at the time of the cycle, so the status
    pass of that cycle keeps it; it carries a histogram when its detection
    is in view. *)
Lemma spawn_from_seen (points : list Point) :
  forall (next_id : Z) (frame : Frame) (mask : Mask) (now : Q) k minion,
    In (k, minion) (spawn_from next_id points frame mask now) ->
    too_old now minion = false /\
    (Forall (in_view frame) points -> has_histogram minion).
Proof.
  induction points as [| p rest IH]; intros next_id frame mask now k minion Hin;
    simpl in Hin; [destruct Hin |].
  destruct Hin as [Hin | Hin].
  - injection Hin as <- <-. split.
    + unfold too_old, Minion_init. cbn [last_seen].
      apply Qltb_false. unfold config.REID_MAX_TIME. lra.
    + intro Hview. inversion Hview as [| ? ? Hp _]; subst.
      unfold has_histogram, Minion_init. cbn [hist].
      destruct (compute_hist_in_view frame mask p Hp) as [h ->]. discriminate.
  - destruct (IH _ _ _ _ _ _ Hin) as [H1 H2]. split; [exact H1 |].
    intro Hview. inversion Hview; subst. auto.
Qed.

Lemma unused_detections_in_view (frame : Frame) (detected : list Point)
  (used : list Z) :
  Forall (in_view frame) detected ->
  Forall (in_view frame) (unused_detections detected used).
Proof.
  intro Hview. unfold unused_detections. rewrite Forall_forall in *.
  intros p Hin. apply in_map_iff in Hin. destruct Hin as ([i q] & <- & Hin).
  apply filter_In in Hin. destruct Hin as [Hin _].
  apply enumerate_In in Hin. destruct Hin as [_ Hnth].
  apply Hview. eapply nth_error_In. exact Hnth.
Qed.

Lemma spawn_from_length (points : list Point) :
  forall (next_id : Z) (frame : Frame) (mask : Mask) (now : Q),
    length (spawn_from next_id points frame mask now) = length points.
Proof.
  induction points as [| p rest IH]; intros; simpl; [reflexivity |].
  f_equal. apply IH.
Qed.

(** A cycle that returned, taken apart: the association pass returned a
    registry with the same identifiers; the registry after the cycle is what
    the status pass keeps of it, followed by the tracks spawned, aged. *)
Lemma cycle_inv (self self' : MinionDetector) (detected : list Point)
  (frame : Frame) (mask : Mask) (now : Q) :
  registry_ok self ->
  update_minion_tracking self detected frame mask now = Ok self' ->
  exists self1 used,
    _associate_detections_to_existing_minions self detected [] frame mask now
    = Ok (self1, used) /\
    registry_ok self1 /\
    next_minion_id self1 = next_minion_id self /\
    map fst (minions self1) = map fst (minions self) /\
    (histograms_ok self -> histograms_ok self1) /\
    minions self'
    = kept now (minions self1)
      ++ map (fun '(k, m) => (k, aged now m))
           (spawned self detected used frame mask now) /\
    next_minion_id self'
    = (next_minion_id self
       + Z.of_nat (length (spawned self detected used frame mask now)))%Z /\
    registry_ok self'.
Proof.
  intros (Hall & Hsorted & Hbelow) H.
  unfold update_minion_tracking in H.
  apply bind_Ok_inv in H. destruct H as ([self1 used] & E1 & H).
  exists self1, used. split; [exact E1 |].
  unfold _associate_detections_to_existing_minions in E1.
  apply bind_Ok_inv in E1. destruct E1 as ([tracks1 used1] & Eloop & E1).
  injection E1 as <- <-.
  destruct (associate_loop_inv _ _ _ _ _ _ _ _ Hall Eloop)
    as (Hkeys & Hall1 & Hhist1).
  set (self1 := {| minions := tracks1; next_minion_id := next_minion_id self |})
    in *.
  assert (Hok1 : registry_ok self1).
  { split; [exact Hall1 |]. split; [simpl; rewrite Hkeys; exact Hsorted |].
    intros k m Hin. simpl in Hin |- *.
    assert (Hk : In k (map fst (minions self))).
    { rewrite <- Hkeys. apply (in_map fst) in Hin. exact Hin. }
    apply in_map_iff in Hk. destruct Hk as ([k' m'] & <- & Hin').
    exact (Hbelow k' m' Hin'). }
  split; [exact Hok1 |]. split; [reflexivity |]. split; [exact Hkeys |].
  split; [exact Hhist1 |].
  pose proof (create_new_minions_ok self1 detected used1 frame mask now Hok1)
    as (Hall2 & Hsorted2 & Hbelow2).
  assert (Hspawn :
    minions (_create_new_minions self1 detected used1 frame mask now)
    = minions self1 ++ spawned self detected used1 frame mask now /\
    next_minion_id (_create_new_minions self1 detected used1 frame mask now)
    = (next_minion_id self
       + Z.of_nat (length (spawned self detected used1 frame mask now)))%Z).
  { unfold _create_new_minions, spawned.
    destruct (_is_mass_spawn_event detected now) eqn:Hmass.
    - rewrite create_loop_mass_spawn by exact Hmass.
      unfold _is_mass_spawn_event in Hmass. rewrite Hmass.
      rewrite app_nil_r. simpl length. split; [reflexivity |].
      subst self1. simpl. lia.
    - destruct (create_loop_spawns (enumerate detected) self1 detected used1
                  frame mask now Hmass (proj2 (proj2 Hok1))) as (Hm & Hn & _).
      cbv zeta in Hm, Hn.
      unfold _is_mass_spawn_event in Hmass. rewrite Hmass.
      split; [exact Hm |]. rewrite spawn_from_length. exact Hn. }
  destruct Hspawn as [Hm2 Hn2].
  set (self2 := _create_new_minions self1 detected used1 frame mask now) in *.
  pose proof (update_minion_status_spec self2 now
                (StronglySorted_lt_NoDup _ Hsorted2)) as Estatus.
  rewrite Estatus in H. injection H as <-. cbn [minions next_minion_id].
  assert (Hfresh : filter (fun '(_, m) => negb (too_old now m))
                     (spawned self detected used1 frame mask now)
                   = spawned self detected used1 frame mask now).
  { apply forallb_filter_id. apply forallb_forall. intros [k m] Hin.
    unfold spawned in Hin.
    destruct (config.MASS_SPAWN_THRESHOLD <? length detected)%nat;
      [destruct Hin |].
    destruct (spawn_from_seen _ _ _ _ _ _ _ Hin) as [-> _]. reflexivity. }
  split.
  { unfold kept. rewrite Hm2, filter_app, map_app, Hfresh. reflexivity. }
  split; [exact Hn2 |].
  split; [| split].
  - intros k m Hin. cbn [minions] in Hin. apply in_map_iff in Hin.
    destruct Hin as ([k0 m0] & Heq & Hin). injection Heq as <- <-.
    apply filter_In in Hin. destruct Hin as [Hin _].
    destruct (Hall2 k0 m0 Hin) as [Hwf Hid].
    destruct (aged_ok now m0 Hwf) as [Hwf' Hid'].
    split; [exact Hwf' | congruence].
  - cbn [minions]. rewrite map_map.
    replace (map (fun x : Z * Minion =>
                    fst (let '(k, m) := x in (k, aged now m)))
                 (filter (fun '(_, m) => negb (too_old now m)) (minions self2)))
      with (map fst (filter (fun '(_, m) => negb (too_old now m))
                       (minions self2)))
      by (apply map_ext; intros [k m]; reflexivity).
    apply StronglySorted_keys_filter. exact Hsorted2.
  - intros k m Hin. cbn [minions next_minion_id] in *.
    apply in_map_iff in Hin.
    destruct Hin as ([k0 m0] & Heq & Hin). injection Heq as <- _.
    apply filter_In in Hin. destruct Hin as [Hin _].
    exact (Hbelow2 k0 m0 Hin).
Qed.

(** On a well-kept registry whose tracks carry histograms, a cycle on
    detections in view returns, and the tracks carry histograms again. *)
Lemma cycle_returns (self : MinionDetector) (detected : list Point)
  (frame : Frame) (mask : Mask) (now : Q) :
  registry_ok self -> histograms_ok self -> Forall (in_view frame) detected ->
  exists self',
    update_minion_tracking self detected frame mask now = Ok self' /\
    histograms_ok self'.
Proof.
  intros Hok Hh Hview. pose proof Hok as (Hall & Hsorted & Hbelow).
  destruct (associate_loop_returns (minions self) detected [] frame mask now
              (fun k m Hin => proj1 (Hall k m Hin)) Hh Hview)
    as (tracks1 & used1 & Eloop).
  destruct (associate_loop_inv _ _ _ _ _ _ _ _ Hall Eloop)
    as (Hkeys & Hall1 & Hhist1).
  set (self1 := {| minions := tracks1; next_minion_id := next_minion_id self |}).
  assert (Hok1 : registry_ok self1).
  { split; [exact Hall1 |]. split; [simpl; rewrite Hkeys; exact Hsorted |].
    intros k m Hin. simpl in Hin |- *.
    assert (Hk : In k (map fst (minions self))).
    { rewrite <- Hkeys. apply (in_map fst) in Hin. exact Hin. }
    apply in_map_iff in Hk. destruct Hk as ([k' m'] & <- & Hin').
    exact (Hbelow k' m' Hin'). }
  pose proof (create_new_minions_ok self1 detected used1 frame mask now Hok1)
    as (_ & Hsorted2 & _).
  set (self2 := _create_new_minions self1 detected used1 frame mask now) in *.
  pose proof (update_minion_status_spec self2 now
                (StronglySorted_lt_NoDup _ Hsorted2)) as Estatus.
  assert (Hrun : update_minion_tracking self detected frame mask now
                 = Ok {| minions := kept now (minions self2);
                         next_minion_id := next_minion_id self2 |}).
  { unfold update_minion_tracking, _associate_detections_to_existing_minions.
    rewrite Eloop. cbn [bind]. fold self1. fold self2. exact Estatus. }
  eexists. split; [exact Hrun |].
  destruct (cycle_inv _ _ _ _ _ _ Hok Hrun)
    as (self1' & used' & E1 & _ & _ & _ & Hh1 & Hm & _).
  intros k m Hin. rewrite Hm in Hin. apply in_app_or in Hin.
  destruct Hin as [Hin | Hin].
  - unfold kept in Hin. apply in_map_iff in Hin.
    destruct Hin as ([k0 m0] & Heq & Hin). injection Heq as <- <-.
    apply filter_In in Hin. destruct Hin as [Hin _].
    apply aged_histogram. exact (Hh1 Hh k0 m0 Hin).
  - apply in_map_iff in Hin.
    destruct Hin as ([k0 m0] & Heq & Hin). injection Heq as <- <-.
    apply aged_histogram. unfold spawned in Hin.
    destruct (config.MASS_SPAWN_THRESHOLD <? length detected)%nat;
      [destruct Hin |].
    destruct (spawn_from_seen _ _ _ _ _ _ _ Hin) as [_ Hhist].
    apply Hhist. apply unused_detections_in_view. exact Hview.
Qed.

(** No exception other than [cv2.error] leaves a cycle on a well-kept
    registry. *)
Lemma cycle_error (self : MinionDetector) (detected : list Point)
  (frame : Frame) (mask : Mask) (now : Q) (e : PyErr) :
  registry_ok self ->
  update_minion_tracking self detected frame mask now = Raise e ->
  e = cv2_error.
Proof.
  intros Hok H. pose proof Hok as (Hall & Hsorted & Hbelow).
  unfold update_minion_tracking, _associate_detections_to_existing_minions in H.
  destruct (associate_loop (minions self) detected [] frame mask now)
    as [[tracks1 used1] | e1] eqn:Eloop; cbn [bind] in H.
  - exfalso.
    destruct (associate_loop_inv _ _ _ _ _ _ _ _ Hall Eloop)
      as (Hkeys & Hall1 & _).
    set (self1 := {| minions := tracks1;
                     next_minion_id := next_minion_id self |}) in *.
    assert (Hok1 : registry_ok self1).
    { split; [exact Hall1 |]. split; [simpl; rewrite Hkeys; exact Hsorted |].
      intros k m Hin. simpl in Hin |- *.
      assert (Hk : In k (map fst (minions self))).
      { rewrite <- Hkeys. apply (in_map fst) in Hin. exact Hin. }
      apply in_map_iff in Hk. destruct Hk as ([k' m'] & <- & Hin').
      exact (Hbelow k' m' Hin'). }
    pose proof (create_new_minions_ok self1 detected used1 frame mask now Hok1)
      as (_ & Hsorted2 & _).
    rewrite (update_minion_status_spec _ now
               (StronglySorted_lt_NoDup _ Hsorted2)) in H.
    discriminate.
  - injection H as <-.
    exact (associate_loop_error _ _ _ _ _ _ _
             (fun k m Hin => proj1 (Hall k m Hin)) Eloop).
Qed.

(** X8: the initial registry is well kept (every track well formed and filed
    under its own identifier, identifiers increasing along the registry and
    below the counter) and its tracks carry histograms.  On such a registry
    a tracking cycle whose detections are all in view of the frame returns
    without raising and leaves such a registry.  Whatever the detections, a
    cycle on a well-kept registry that returns leaves it well kept, and the
    only exception that can leave it is [cv2.error] (from a degenerate
    histogram region): never IndexError, ZeroDivisionError or KeyError. *)
Theorem tracking_cycle_raises_only_cv2_error :
  (registry_ok MinionDetector_init /\ histograms_ok MinionDetector_init) /\
  (forall (self : MinionDetector) (detected : list Point) (frame : Frame)
          (mask : Mask) (now : Q),
     registry_ok self -> histograms_ok self ->
     Forall (in_view frame) detected ->
     exists self',
       update_minion_tracking self detected frame mask now = Ok self' /\
       registry_ok self' /\ histograms_ok self') /\
  (forall (self self' : MinionDetector) (detected : list Point) (frame : Frame)
          (mask : Mask) (now : Q),
     registry_ok self ->
     update_minion_tracking self detected frame mask now = Ok self' ->
     registry_ok self') /\
  (forall (self : MinionDetector) (detected : list Point) (frame : Frame)
          (mask : Mask) (now : Q) (e : PyErr),
     registry_ok self ->
     update_minion_tracking self detected frame mask now = Raise e ->
     e = cv2_error).
Proof.
  split; [split; [exact registry_ok_init | intros k m []] |].
  split; [| split].
  - intros self detected frame mask now Hok Hh Hview.
    destruct (cycle_returns self detected frame mask now Hok Hh Hview)
      as (self' & Hrun & Hh').
    exists self'. split; [exact Hrun |]. split; [| exact Hh'].
    destruct (cycle_inv _ _ _ _ _ _ Hok Hrun)
      as (_ & _ & _ & _ & _ & _ & _ & _ & _ & Hok').
    exact Hok'.
  - intros self self' detected frame mask now Hok Hrun.
    destruct (cycle_inv _ _ _ _ _ _ Hok Hrun)
      as (_ & _ & _ & _ & _ & _ & _ & _ & _ & Hok').
    exact Hok'.
  - intros self detected frame mask now e Hok H.
    exact (cycle_error _ _ _ _ _ _ Hok H).
Qed.


Lemma spawn_from_tracks (points : list Point) :
  forall (next_id : Z) (frame : Frame) (mask : Mask) (now : Q),
    map fst (spawn_from next_id points frame mask now)
    = map (fun i => (next_id + Z.of_nat i)%Z) (seq 0 (length points)) /\
    Forall2 (fun p track => id (snd track) = fst track /\
                            positions (snd track) = [p])
      points (spawn_from next_id points frame mask now).
Proof.
  induction points as [| p rest IH]; intros next_id frame mask now; simpl.
  - split; [reflexivity | constructor].
  - destruct (IH (next_id + 1)%Z frame mask now) as [Hk Hall]. split.
    + rewrite Z.add_0_r. f_equal. rewrite Hk, <- seq_shift, map_map.
      apply map_ext. intro i. lia.
    + constructor; [split; reflexivity | exact Hall].
Qed.

Lemma map_fst_aged (now : Q) (tracks : list (Z * Minion)) :
  map fst (map (fun '(k, m) => (k, aged now m)) tracks) = map fst tracks.
Proof.
  rewrite map_map. apply map_ext. intros [k m]. reflexivity.
Qed.

(** The identifiers after a cycle: those the cycle found, or new ones from
    the counter upwards. *)
Lemma cycle_keys (self self' : MinionDetector) (detected : list Point)
  (frame : Frame) (mask : Mask) (now : Q) :
  registry_ok self ->
  update_minion_tracking self detected frame mask now = Ok self' ->
  registry_ok self' /\
  (next_minion_id self <= next_minion_id self')%Z /\
  forall k minion,
    In (k, minion) (minions self') ->
    In k (map fst (minions self)) \/
    (next_minion_id self <= k < next_minion_id self')%Z.
Proof.
  intros Hok H.
  destruct (cycle_inv _ _ _ _ _ _ Hok H)
    as (self1 & used & _ & _ & _ & Hkeys & _ & Hm & Hn & Hok').
  split; [exact Hok' |]. split; [rewrite Hn; lia |].
  intros k minion Hin. rewrite Hm in Hin. apply in_app_or in Hin.
  destruct Hin as [Hin | Hin].
  - left. rewrite <- Hkeys. unfold kept in Hin. apply in_map_iff in Hin.
    destruct Hin as ([k0 m0] & Heq & Hin). injection Heq as <- _.
    apply filter_In in Hin. destruct Hin as [Hin _].
    apply (in_map fst) in Hin. exact Hin.
  - right. rewrite Hn. apply (in_map fst) in Hin.
    rewrite map_fst_aged in Hin. cbn [fst] in Hin.
    unfold spawned in Hin |- *.
    destruct (config.MASS_SPAWN_THRESHOLD <? length detected)%nat;
      [destruct Hin |].
    rewrite (proj1 (spawn_from_tracks _ _ _ _ _)) in Hin.
    rewrite spawn_from_length.
    apply in_map_iff in Hin. destruct Hin as (i & <- & Hi).
    apply in_seq in Hi. lia.
Qed.

Lemma run_cycles_keys
  (cycles : list (list Point * Frame * Mask * Q)) :
  forall self self' : MinionDetector,
    registry_ok self ->
    run_cycles self cycles = Ok self' ->
    registry_ok self' /\
    (next_minion_id self <= next_minion_id self')%Z /\
    forall k minion,
      In (k, minion) (minions self') ->
      In k (map fst (minions self)) \/
      (next_minion_id self <= k < next_minion_id self')%Z.
Proof.
  induction cycles as [| [[[detected frame] mask] now] rest IH];
    intros self self' Hok H.
  - simpl in H. injection H as <-. split; [exact Hok |]. split; [lia |].
    intros k minion Hin. left. apply (in_map fst) in Hin. exact Hin.
  - cbn [run_cycles] in H.
    apply bind_Ok_inv in H. destruct H as (self1 & E1 & H).
    destruct (cycle_keys _ _ _ _ _ _ Hok E1) as (Hok1 & Hn1 & Hk1).
    destruct (IH _ _ Hok1 H) as (Hok' & Hn' & Hk').
    split; [exact Hok' |]. split; [lia |].
    intros k minion Hin. destruct (Hk' k minion Hin) as [Hold | Hnew].
    + apply in_map_iff in Hold. destruct Hold as ([k0 m0] & <- & Hin0).
      destruct (Hk1 k0 m0 Hin0) as [Hold | Hnew]; [left; exact Hold |].
      right. cbn [fst]. lia.
    + right. lia.
Qed.

(** C3: the spawn pass, and the identifiers over whole cycles.
    The spawn pass on its own: when the number of detections exceeds the
    mass-spawn threshold it leaves the detector as it is; otherwise, on a
    registry whose identifiers are all below the counter, it appends one
    track per unused detection, in detection order, numbered from the
    counter upwards (each filed under its own identifier, at its detection),
    and moves the counter past them.
    A whole cycle on a well-kept registry, when it returns: the association
    pass returned a registry of the same identifiers and a set of used
    detections; above the threshold the registry after the cycle is what the
    status pass keeps of the associated tracks, with no new track and the
    counter unchanged; at or below the threshold it is those tracks followed
    by one new track for every detection the association pass left unused,
    numbered from the counter, and the counter has moved past them.  Such a
    cycle returns whenever the tracks carry histograms and the detections
    are in view.
    Over any run of cycles from a well-kept registry (the initial detector
    is one) the counter never decreases and every identifier in the registry
    is either one that was there at the start or one at or above the counter
    of the start: an identifier below the counter that has left the registry
    never comes back. *)
Theorem spawn_pass_and_identifiers :
  (forall self detected used frame mask now,
     (config.MASS_SPAWN_THRESHOLD < length detected)%nat ->
     _create_new_minions self detected used frame mask now = self) /\
  (forall self detected used frame mask now,
     (length detected <= config.MASS_SPAWN_THRESHOLD)%nat ->
     ids_below self ->
     let fresh := unused_detections detected used in
     let self' := _create_new_minions self detected used frame mask now in
     minions self' =
       minions self ++ spawn_from (next_minion_id self) fresh frame mask now /\
     next_minion_id self' = (next_minion_id self + Z.of_nat (length fresh))%Z /\
     ids_below self') /\
  (forall next_id points frame mask now,
     map fst (spawn_from next_id points frame mask now)
     = map (fun i => (next_id + Z.of_nat i)%Z) (seq 0 (length points)) /\
     Forall2 (fun p track => id (snd track) = fst track /\
                             positions (snd track) = [p])
       points (spawn_from next_id points frame mask now)) /\
  (forall self self' detected frame mask now,
     registry_ok self ->
     update_minion_tracking self detected frame mask now = Ok self' ->
     exists self1 used,
       _associate_detections_to_existing_minions self detected [] frame mask
         now = Ok (self1, used) /\
       map fst (minions self1) = map fst (minions self) /\
       ((config.MASS_SPAWN_THRESHOLD < length detected)%nat ->
        minions self' = kept now (minions self1) /\
        next_minion_id self' = next_minion_id self) /\
       ((length detected <= config.MASS_SPAWN_THRESHOLD)%nat ->
        let fresh := unused_detections detected used in
        minions self'
        = kept now (minions self1)
          ++ map (fun '(k, m) => (k, aged now m))
               (spawn_from (next_minion_id self) fresh frame mask now) /\
        map fst (minions self')
        = map fst (kept now (minions self1))
          ++ map (fun i => (next_minion_id self + Z.of_nat i)%Z)
               (seq 0 (length fresh)) /\
        next_minion_id self'
        = (next_minion_id self + Z.of_nat (length fresh))%Z) /\
       registry_ok self') /\
  (forall self detected frame mask now,
     registry_ok self -> histograms_ok self ->
     Forall (in_view frame) detected ->
     exists self', update_minion_tracking self detected frame mask now
                   = Ok self') /\
  registry_ok MinionDetector_init /\
  (forall self self' cycles,
     registry_ok self ->
     run_cycles self cycles = Ok self' ->
     registry_ok self' /\
     (next_minion_id self <= next_minion_id self')%Z /\
     forall k minion,
       In (k, minion) (minions self') ->
       In k (map fst (minions self)) \/
       (next_minion_id self <= k < next_minion_id self')%Z).
Proof.
  split; [| split; [| split; [| split; [| split; [| split]]]]].
  - intros self detected used frame mask now Hmass.
    apply create_loop_mass_spawn. apply Nat.ltb_lt. exact Hmass.
  - intros self detected used frame mask now Hsmall Hbelow.
    apply create_loop_spawns; [| exact Hbelow].
    apply Nat.ltb_ge. exact Hsmall.
  - intros next_id points frame mask now. apply spawn_from_tracks.
  - intros self self' detected frame mask now Hok H.
    destruct (cycle_inv _ _ _ _ _ _ Hok H)
      as (self1 & used & E1 & _ & _ & Hkeys & _ & Hm & Hn & Hok').
    exists self1, used. split; [exact E1 |]. split; [exact Hkeys |].
    unfold spawned in Hm, Hn.
    split; [| split; [| exact Hok']].
    + intro Hmass. apply Nat.ltb_lt in Hmass. rewrite Hmass in Hm, Hn.
      cbn [map length] in Hm, Hn. rewrite app_nil_r in Hm.
      split; [exact Hm |]. rewrite Hn. simpl. lia.
    + intro Hsmall. apply Nat.ltb_ge in Hsmall. rewrite Hsmall in Hm, Hn.
      cbv zeta. rewrite spawn_from_length in Hn.
      split; [exact Hm |]. split; [| exact Hn].
      rewrite Hm, map_app, map_fst_aged.
      rewrite (proj1 (spawn_from_tracks _ _ _ _ _)). reflexivity.
  - intros self detected frame mask now Hok Hh Hview.
    destruct (cycle_returns self detected frame mask now Hok Hh Hview)
      as (self' & Hrun & _).
    exists self'. exact Hrun.
  - exact registry_ok_init.
  - intros self self' cycles Hok H. exact (run_cycles_keys cycles _ _ Hok H).
Qed.

End CycleFacts.

(** ** utils.py: clamping and interpolation *)

Lemma py_min_cases (value max_value : Q) :
  (max_value < value /\ py_min value max_value = max_value) \/
  (value <= max_value /\ py_min value max_value = value).
Proof.
  unfold py_min. destruct (Qltb max_value value) eqn:E.
  - left. apply Qltb_true in E. auto.
  - right. apply Qltb_false in E. auto.
Qed.

Lemma py_max_cases (min_value m : Q) :
  (min_value < m /\ py_max min_value m = m) \/
  (m <= min_value /\ py_max min_value m = min_value).
Proof.
  unfold py_max. destruct (Qltb min_value m) eqn:E.
  - left. apply Qltb_true in E. auto.
  - right. apply Qltb_false in E. auto.
Qed.

Lemma clamp_ordered (value min_value max_value : Q) :
  min_value <= max_value ->
  (min_value <= clamp value min_value max_value /\
   clamp value min_value max_value <= max_value) /\
  (min_value <= value /\ value <= max_value ->
   clamp value min_value max_value == value) /\
  (value <= min_value -> clamp value min_value max_value = min_value) /\
  (max_value < value -> clamp value min_value max_value == max_value).
Proof.
  intro Hle. unfold clamp.
  destruct (py_min_cases value max_value) as [(Hv & ->) | (Hv & ->)].
  - destruct (py_max_cases min_value max_value) as [(Hm & ->) | (Hm & ->)].
    + split; [split; lra |]. split; [intro; lra |].
      split; [intro; exfalso; lra | intro; lra].
    + split; [split; lra |]. split; [intro; lra |].
      split; [intro; reflexivity | intro; lra].
  - destruct (py_max_cases min_value value) as [(Hm & ->) | (Hm & ->)].
    + split; [split; lra |]. split; [intro; lra |].
      split; [intro; exfalso; lra | intro; exfalso; lra].
    + split; [split; lra |]. split; [intro; lra |].
      split; [intro; reflexivity | intro; exfalso; lra].
Qed.

(** X10: with [min_value <= max_value], [clamp] returns a value of the
    interval, equal to [value] when [value] is already inside; with the
    bounds the wrong way round it returns [min_value] whatever the value. *)
Theorem clamp_spec (value min_value max_value : Q) :
  (min_value <= max_value ->
   (min_value <= clamp value min_value max_value /\
    clamp value min_value max_value <= max_value) /\
   (min_value <= value /\ value <= max_value ->
    clamp value min_value max_value == value) /\
   (value <= min_value -> clamp value min_value max_value = min_value) /\
   (max_value < value -> clamp value min_value max_value == max_value)) /\
  (max_value < min_value -> clamp value min_value max_value = min_value).
Proof.
  split; [apply clamp_ordered |].
  intro Hlt. unfold clamp.
  destruct (py_min_cases value max_value) as [(Hv & ->) | (Hv & ->)].
  - destruct (py_max_cases min_value max_value) as [(Hm & ->) | (Hm & ->)];
      [exfalso; lra | reflexivity].
  - destruct (py_max_cases min_value value) as [(Hm & ->) | (Hm & ->)];
      [exfalso; lra | reflexivity].
Qed.

(** X11: for a frame of at least one pixel each way, [clamp_position] puts
    every point inside the rectangle of valid pixel coordinates, as
    [point_in_rect] tests it. *)
Theorem clamp_position_lands_in_frame
  (position : Point) (frame_width frame_height : Z) :
  (1 <= frame_width)%Z -> (1 <= frame_height)%Z ->
  point_in_rect (clamp_position position frame_width frame_height)
    (0, 0, inject_Z (frame_width - 1), inject_Z (frame_height - 1)) = true.
Proof.
  intros Hw Hh.
  assert (HwQ : 0 <= inject_Z (frame_width - 1))
    by (change 0 with (inject_Z 0); rewrite <- Zle_Qle; lia).
  assert (HhQ : 0 <= inject_Z (frame_height - 1))
    by (change 0 with (inject_Z 0); rewrite <- Zle_Qle; lia).
  destruct (clamp_ordered (fst position) 0 (inject_Z (frame_width - 1)) HwQ)
    as [[Hx0 Hx1] _].
  destruct (clamp_ordered (snd position) 0 (inject_Z (frame_height - 1)) HhQ)
    as [[Hy0 Hy1] _].
  unfold point_in_rect, clamp_position.
  rewrite !andb_true_iff, !Qle_bool_iff. repeat split; lra.
Qed.

Lemma mul_unit_bound (d r b : Q) :
  0 <= r -> r <= 1 -> - b <= d -> d <= b -> - b <= d * r /\ d * r <= b.
Proof.
  intros Hr0 Hr1 Hlo Hhi.
  assert (Hb : 0 <= b) by lra.
  destruct (Qlt_le_dec d 0) as [Hneg | Hpos].
  - assert (H1 : d * r <= 0 * r) by (apply Qmult_le_compat_r; lra).
    assert (H2 : r * (- d) <= 1 * (- d)) by (apply Qmult_le_compat_r; lra).
    split; lra.
  - assert (H1 : 0 * r <= d * r) by (apply Qmult_le_compat_r; lra).
    assert (H2 : r * d <= 1 * d) by (apply Qmult_le_compat_r; lra).
    split; lra.
Qed.

(** One coordinate of the interpolation, in doubles, against the exact
    value: three roundings, each within [2^-53] of what it rounds. *)
Lemma interpolation_error (x1 x2 r : Q) :
  0 <= r -> r <= 1 ->
  Qabs (fadd x1 (fmul (fsub x2 x1) r) - (x1 + (x2 - x1) * r))
  <= float_tolerance * (Qabs x1 + Qabs x2).
Proof.
  intros Hr0 Hr1. unfold fadd, fmul, fsub.
  pose proof (Qabs_nonneg x1) as Ha1. pose proof (Qabs_nonneg x2) as Ha2.
  pose proof (Qle_Qabs x1) as Hx1. pose proof (Qle_Qabs (- x1)) as Hx1'.
  pose proof (Qle_Qabs x2) as Hx2. pose proof (Qle_Qabs (- x2)) as Hx2'.
  rewrite Qabs_opp in Hx1', Hx2'.
  set (a1 := Qabs x1) in *. set (a2 := Qabs x2) in *.
  pose proof (double_error (x2 - x1)) as E1.
  set (d := double (x2 - x1)) in *.
  assert (HD : Qabs (x2 - x1) <= a1 + a2)
    by (apply Qabs_Qle_condition; split; lra).
  assert (E1' : - ((1 # 9007199254740992) * (a1 + a2)) <= d - (x2 - x1)
                /\ d - (x2 - x1) <= (1 # 9007199254740992) * (a1 + a2)).
  { apply Qabs_Qle_condition.
    change unit_roundoff with (1 # 9007199254740992) in E1. lra. }
  destruct E1' as [E1a E1b].
  destruct (mul_unit_bound (d - (x2 - x1)) r _ Hr0 Hr1 E1a E1b) as [P1a P1b].
  assert (P1 : (d - (x2 - x1)) * r == d * r - (x2 - x1) * r) by ring.
  rewrite P1 in P1a, P1b.
  destruct (mul_unit_bound (x2 - x1) r (a1 + a2) Hr0 Hr1) as [P2a P2b];
    [lra | lra |].
  pose proof (double_error (d * r)) as E2.
  set (m := double (d * r)) in *.
  set (dr := d * r) in *. set (Dr := (x2 - x1) * r) in *.
  assert (Hdr : Qabs dr <= 2 * (a1 + a2))
    by (apply Qabs_Qle_condition; split; lra).
  assert (E2' : - ((1 # 9007199254740992) * (2 * (a1 + a2))) <= m - dr
                /\ m - dr <= (1 # 9007199254740992) * (2 * (a1 + a2))).
  { apply Qabs_Qle_condition.
    change unit_roundoff with (1 # 9007199254740992) in E2. lra. }
  destruct E2' as [E2a E2b].
  assert (E2s : Qabs (m - dr) <= (1 # 9007199254740992) * Qabs dr)
    by exact E2.
  apply Qabs_Qle_condition in E2s. destruct E2s as [E2c E2d].
  pose proof (Qabs_nonneg dr) as Hdr0.
  assert (Hdr1 : Qabs dr <= (a1 + a2) + (1 # 9007199254740992) * (a1 + a2))
    by (apply Qabs_Qle_condition; split; lra).
  pose proof (double_error (x1 + m)) as E3.
  set (s := double (x1 + m)) in *.
  assert (Hexact : - (a1 + a2) <= x1 + Dr /\ x1 + Dr <= a1 + a2).
  { destruct (mul_unit_bound x2 r a2 Hr0 Hr1) as [Q1 Q2]; [lra | lra |].
    destruct (mul_unit_bound x1 (1 - r) a1) as [Q3 Q4]; [lra | lra | lra | lra |].
    assert (Q5 : x1 + Dr == x1 * (1 - r) + x2 * r) by (unfold Dr; ring).
    rewrite Q5. split; lra. }
  destruct Hexact as [Hex1 Hex2].
  assert (Hsum : Qabs (x1 + m) <= 2 * (a1 + a2))
    by (apply Qabs_Qle_condition; split; lra).
  change unit_roundoff with (1 # 9007199254740992) in E3.
  apply Qabs_Qle_condition in E3. destruct E3 as [E3a E3b].
  pose proof (Qabs_nonneg (x1 + m)) as Hsum0.
  assert (Hsum1 : Qabs (x1 + m)
                  <= (a1 + a2) + (3 # 9007199254740992) * (a1 + a2))
    by (apply Qabs_Qle_condition; split; lra).
  apply Qabs_Qle_condition. unfold float_tolerance.
  change unit_roundoff with (1 # 9007199254740992).
  split; lra.
Qed.

(** X12: [interpolate_position] clamps the ratio to [0, 1] and interpolates
    in double precision.  A ratio of 0 or less gives [pos1] rounded to a
    double, so [pos1] itself when its coordinates are doubles.  In general
    each coordinate is within [4 * 2^-53 * (|pos1| + |pos2|)] of the exact
    interpolation at the clamped ratio, which lies between the two
    positions; for a ratio of 1 or more that is a value this close to
    [pos2], not always [pos2] itself: from 1774.1 to 30.1 at ratio 1 the
    result is below 30.1. *)
Theorem interpolate_position_spec (pos1 pos2 : Point) (ratio : Q) :
  let p := interpolate_position pos1 pos2 ratio in
  let r := clamp ratio 0 1 in
  let bound_x := float_tolerance * (Qabs (fst pos1) + Qabs (fst pos2)) in
  let bound_y := float_tolerance * (Qabs (snd pos1) + Qabs (snd pos2)) in
  (ratio <= 0 ->
   fst p = double (fst pos1) /\ snd p = double (snd pos1)) /\
  (1 <= ratio ->
   Qabs (fst p - fst pos2) <= bound_x /\
   Qabs (snd p - snd pos2) <= bound_y) /\
  (0 <= r /\ r <= 1) /\
  Qabs (fst p - (fst pos1 + (fst pos2 - fst pos1) * r)) <= bound_x /\
  Qabs (snd p - (snd pos1 + (snd pos2 - snd pos1) * r)) <= bound_y /\
  fst (interpolate_position (double (17741 # 10), 0) (double (301 # 10), 0) 1)
  < double (301 # 10).
Proof.
  intros p r bound_x bound_y. subst p r bound_x bound_y.
  unfold interpolate_position. cbn [fst snd].
  assert (Hunit : 0 <= 1) by lra.
  destruct (clamp_ordered ratio 0 1 Hunit) as ([Hlo Hhi] & Hin & Hzero & Hone).
  split; [| split; [| split; [| split; [| split]]]].
  - intro Hle. rewrite (Hzero Hle). unfold fadd, fmul, fsub.
    assert (E : forall x1 x2, double (x1 + double (double (x2 - x1) * 0))
                              = double x1).
    { intros x1 x2.
      rewrite (double_compat (double (x2 - x1) * 0) 0) by ring.
      change (double 0) with 0. apply double_compat. ring. }
    split; apply E.
  - intro Hge.
    assert (Hr : clamp ratio 0 1 == 1).
    { destruct (Qlt_le_dec 1 ratio) as [Hgt | Hle]; [exact (Hone Hgt) |].
      rewrite Hin; [| split; lra]. lra. }
    pose proof (interpolation_error (fst pos1) (fst pos2) _ Hlo Hhi) as Hx.
    pose proof (interpolation_error (snd pos1) (snd pos2) _ Hlo Hhi) as Hy.
    set (r := clamp ratio 0 1) in *.
    set (px := fadd (fst pos1) (fmul (fsub (fst pos2) (fst pos1)) r)) in *.
    set (py := fadd (snd pos1) (fmul (fsub (snd pos2) (snd pos1)) r)) in *.
    clearbody px py.
    assert (Ex : fst pos1 + (fst pos2 - fst pos1) * r == fst pos2)
      by (rewrite Hr; ring).
    assert (Ey : snd pos1 + (snd pos2 - snd pos1) * r == snd pos2)
      by (rewrite Hr; ring).
    split.
    + apply Qabs_Qle_condition in Hx. apply Qabs_Qle_condition. lra.
    + apply Qabs_Qle_condition in Hy. apply Qabs_Qle_condition. lra.
  - split; assumption.
  - apply interpolation_error; assumption.
  - apply interpolation_error; assumption.
  - vm_compute. reflexivity.
Qed.

(** ** utils.py: windows over a history *)

Lemma length_py_slice {A : Type} (l : list A) (start stop : Z) :
  (0 <= start <= stop)%Z -> (stop <= Z.of_nat (length l))%Z ->
  length (py_slice l start stop) = Z.to_nat (stop - start).
Proof.
  intros Hs He. unfold py_slice.
  replace (start <? 0)%Z with false by (symmetry; apply Z.ltb_ge; lia).
  replace (stop <? 0)%Z with false by (symmetry; apply Z.ltb_ge; lia).
  rewrite length_firstn, length_skipn. lia.
Qed.

Lemma length_py_tail {A : Type} (l : list A) (window : Z) :
  (0 <= window)%Z ->
  length (py_tail l window) =
  if (window =? 0)%Z then length l else Nat.min (Z.to_nat window) (length l).
Proof.
  intro Hw. unfold py_tail, py_slice.
  replace (Z.of_nat (length l) <? 0)%Z with false
    by (symmetry; apply Z.ltb_ge; lia).
  rewrite Z.min_id.
  destruct (Z.eqb_spec window 0) as [-> | Hne].
  - simpl. rewrite Z.min_l by lia. rewrite length_firstn, length_skipn. simpl. lia.
  - replace (- window <? 0)%Z with true by (symmetry; apply Z.ltb_lt; lia).
    rewrite length_firstn, length_skipn. lia.
Qed.

(** X13: for a window size of 0 or more, [calculate_movement_vector] returns
    for all histories, of equal length or not, without raising; the vector is
    (0, 0) when either history has fewer than 2 entries. *)
Theorem calculate_movement_vector_returns
  (positions : list Point) (timestamps : list Q) (window_size : Z) :
  (0 <= window_size)%Z ->
  exists v,
    calculate_movement_vector positions timestamps window_size = Ok v /\
    ((length positions < 2)%nat \/ (length timestamps < 2)%nat -> v = (0, 0)).
Proof.
  intro Hw. unfold calculate_movement_vector.
  destruct (Nat.ltb_spec (length positions) 2) as [Hp | Hp].
  - exists (0, 0). auto.
  - destruct (Nat.ltb_spec (length timestamps) 2) as [Ht | Ht].
    + exists (0, 0). auto.
    + cbn [orb]. cbv zeta.
      destruct (Nat.ltb_spec (length (py_tail positions window_size)) 2)
        as [Hrp | Hrp].
      * exists (0, 0). split; [reflexivity | intros [H | H]; lia].
      * assert (Hrt : (2 <= length (py_tail timestamps window_size))%nat).
        { rewrite (length_py_tail positions _ Hw) in Hrp.
          rewrite (length_py_tail timestamps _ Hw).
          destruct (window_size =? 0)%Z; lia. }
        destruct (py_index_Ok (py_tail timestamps window_size) (-1))
          as [t_last ->]; [lia |].
        destruct (py_index_Ok (py_tail timestamps window_size) 0)
          as [t_first ->]; [lia |].
        cbn [bind].
        destruct (Qle_bool (t_last - t_first) 0) eqn:Etime.
        -- exists (0, 0). split; [reflexivity | intros [H | H]; lia].
        -- assert (Hpos : 0 < t_last - t_first).
           { apply Qnot_le_lt. intro Hle. apply Qle_bool_iff in Hle. congruence. }
           destruct (py_index_Ok (py_tail positions window_size) (-1))
             as [p_last ->]; [lia |].
           destruct (py_index_Ok (py_tail positions window_size) 0)
             as [p_first ->]; [lia |].
           cbn [bind]. rewrite !(py_div_pos _ _ Hpos). cbn [bind].
           eexists. split; [reflexivity | intros [H | H]; lia].
Qed.

Lemma smooth_loop_returns (positions : list Point) (half_window : Z)
  (indices : list nat) :
  (0 <= half_window)%Z ->
  Forall (fun i => (i < length positions)%nat) indices ->
  exists out,
    smooth_loop positions half_window indices = Ok out /\
    length out = length indices.
Proof.
  intros Hh Hall. induction Hall as [| i rest Hi _ IH].
  - exists []. auto.
  - destruct IH as (out & Hout & Hlen). cbn [smooth_loop]. cbv zeta.
    set (start := Z.max 0 (Z.of_nat i - half_window)).
    set (stop := Z.min (Z.of_nat (length positions))
                       (Z.of_nat i + half_window + 1)).
    assert (Hsize : length (py_slice positions start stop)
                    = Z.to_nat (stop - start))
      by (apply length_py_slice; subst start stop; lia).
    assert (Hnz : ~ inject_Z (Z.of_nat (length (py_slice positions start stop)))
                    == 0).
    { unfold Qeq. simpl. rewrite Hsize. subst start stop. lia. }
    rewrite !(py_div_Ok _ _ Hnz). cbn [bind]. rewrite Hout. cbn [bind].
    eexists. split; [reflexivity |]. simpl. rewrite Hlen. reflexivity.
Qed.

(** X14: for a window size of 0 or more, [smooth_positions] returns without
    raising (no window is empty, so no average divides by zero) as many
    positions as it was given; a list shorter than the window is returned as
    it is. *)
Theorem smooth_positions_returns (positions : list Point) (window_size : Z) :
  (0 <= window_size)%Z ->
  exists out,
    smooth_positions positions window_size = Ok out /\
    length out = length positions /\
    ((Z.of_nat (length positions) < window_size)%Z -> out = positions).
Proof.
  intro Hw. unfold smooth_positions.
  destruct (Z.ltb_spec (Z.of_nat (length positions)) window_size) as [Hlt | Hge].
  - exists positions. auto.
  - destruct (smooth_loop_returns positions (window_size / 2)
                (seq 0 (length positions))) as (out & Hout & Hlen).
    + apply Z.div_pos; lia.
    + apply Forall_forall. intros i Hi. apply in_seq in Hi. lia.
    + exists out. split; [exact Hout |].
      split; [rewrite Hlen; apply length_seq | intro; lia].
Qed.

Section SpeedFacts.

Context {backend : Backend}.

(** X15: [calculate_speed] never raises; when [time2] is not after [time1]
    the speed is 0, otherwise it is the distance over the elapsed time,
    which is not negative as long as [hypot] is not. *)
Theorem calculate_speed_spec
  (position1 position2 : Point) (time1 time2 : Q) :
  (forall a b, 0 <= hypot a b) ->
  exists speed,
    calculate_speed position1 position2 time1 time2 = Ok speed /\
    0 <= speed /\
    (time2 <= time1 -> speed = 0) /\
    (time1 < time2 ->
     speed = distance_2d position1 position2 / (time2 - time1)).
Proof.
  intro Hnonneg. unfold calculate_speed. cbv zeta.
  destruct (Qle_bool (time2 - time1) 0) eqn:E.
  - apply Qle_bool_iff in E. exists 0.
    split; [reflexivity |]. split; [lra |].
    split; [reflexivity | intro; exfalso; lra].
  - assert (Hpos : 0 < time2 - time1).
    { apply Qnot_le_lt. intro Hle. apply Qle_bool_iff in Hle. congruence. }
    rewrite (py_div_pos _ _ Hpos). eexists. split; [reflexivity |].
    split; [| split; [intro; exfalso; lra | reflexivity]].
    apply Qle_shift_div_l; [exact Hpos |].
    unfold distance_2d. rewrite Qmult_0_l. apply Hnonneg.
Qed.

End SpeedFacts.

(** One coordinate of [ratio_to_pixels]: the product is rounded to a double
    before it is truncated, which cannot carry it past the frame size as
    long as that is below [2^53]. *)
Lemma ratio_pixel_in_frame (r : Q) (w : Z) :
  (0 <= w < 2 ^ 53)%Z -> 0 <= r -> r <= 1 ->
  (0 <= py_int (fmul r (float_of_int w)) <= w)%Z /\
  (r == 1 -> py_int (fmul r (float_of_int w)) = w).
Proof.
  intros [Hw0 Hw1] Hr0 Hr1. unfold fmul, float_of_int.
  assert (EW : double (inject_Z w) == inject_Z w) by (apply double_int; lia).
  assert (HwQ : 0 <= inject_Z w)
    by (change 0 with (inject_Z 0); rewrite <- Zle_Qle; exact Hw0).
  assert (HwB : inject_Z w < 9007199254740992).
  { change 9007199254740992 with (inject_Z (2 ^ 53)).
    rewrite <- Zlt_Qlt. exact Hw1. }
  assert (Hx : r * double (inject_Z w) == r * inject_Z w)
    by (rewrite EW; reflexivity).
  rewrite (double_compat _ _ Hx).
  assert (Hx0 : 0 <= r * inject_Z w) by (apply Qmult_le_0_compat; lra).
  assert (Hx1 : r * inject_Z w <= 1 * inject_Z w)
    by (apply Qmult_le_compat_r; lra).
  set (x := r * inject_Z w) in *.
  destruct (double_bounds x Hx0) as [_ B2].
  pose proof (double_nonneg x Hx0) as B0.
  change unit_roundoff with (1 # 9007199254740992) in B2.
  rewrite (py_int_floor _ B0). split; [split |].
  - rewrite <- (Qfloor_Z 0). apply Qfloor_resp_le. exact B0.
  - pose proof (Qfloor_le (double x)) as F.
    assert (Hlt : inject_Z (Qfloor (double x)) < inject_Z (w + 1)).
    { rewrite inject_Z_plus. change (inject_Z 1) with 1.
      set (dx := double x) in *. clearbody dx. lra. }
    rewrite <- Zlt_Qlt in Hlt. lia.
  - intro E.
    assert (Ex : x == inject_Z w) by (unfold x; rewrite E; ring).
    rewrite (double_compat _ _ Ex), EW. apply Qfloor_Z.
Qed.

(** X16: for ratios in [0,1]x[0,1] and a frame of non-negative size below
    [2^53] (where the size is itself a double), [ratio_to_pixels] returns as
    many pixels as ratios, each with 0 <= x <= frame_width and
    0 <= y <= frame_height; a ratio of exactly 1 gives the frame size
    itself, one past the last pixel. *)
Theorem ratio_to_pixels_in_frame
  (ratio_list : list (Q * Q)) (frame_width frame_height : Z) :
  (0 <= frame_width < 2 ^ 53)%Z -> (0 <= frame_height < 2 ^ 53)%Z ->
  Forall (fun r => (0 <= fst r /\ fst r <= 1) /\ (0 <= snd r /\ snd r <= 1))
    ratio_list ->
  Forall2 (fun r px =>
             (0 <= fst px <= frame_width)%Z /\
             (0 <= snd px <= frame_height)%Z /\
             (fst r == 1 -> fst px = frame_width) /\
             (snd r == 1 -> snd px = frame_height))
    ratio_list (ratio_to_pixels ratio_list frame_width frame_height).
Proof.
  intros Hw Hh Hall.
  induction Hall as [| [rx ry] rest [[Hx0 Hx1] [Hy0 Hy1]] _ IH]; simpl.
  - constructor.
  - constructor; [| exact IH]. cbn [fst snd].
    destruct (ratio_pixel_in_frame rx frame_width Hw Hx0 Hx1) as [Hxr Hxe].
    destruct (ratio_pixel_in_frame ry frame_height Hh Hy0 Hy1) as [Hyr Hye].
    auto.
Qed.

(** ** Contours and exclusion zones *)

Section ContourFacts.

Context {backend : Backend} {vision : Vision}.

Lemma in_zones_utils (x y : Q) (zones : list (Q * Q * Q)) :
  in_zones x y zones = is_in_exclusion_zone x y zones.
Proof.
  induction zones as [| [[cx cy] r] rest IH]; simpl; [reflexivity |].
  rewrite IH. reflexivity.
Qed.

Lemma is_in_exclusion_zone_clear (x y : Q) (zones : list (Q * Q * Q)) :
  is_in_exclusion_zone x y zones = false <-> clear_of_zones (x, y) zones.
Proof.
  unfold clear_of_zones.
  induction zones as [| [[cx cy] r] rest IH]; simpl.
  - split; [constructor | reflexivity].
  - destruct (Qle_bool (distance_2d (x, y) (cx, cy)) r) eqn:E.
    + split; [discriminate |]. intro H. inversion H as [| ? ? Hlt _]; subst.
      cbn [fst snd] in Hlt. apply Qle_bool_iff in E.
      exfalso. apply (Qlt_not_le _ _ Hlt E).
    + rewrite IH. split.
      * intro H. constructor; [| exact H]. cbn [fst snd].
        apply Qnot_le_lt. intro Hle. apply Qle_bool_iff in Hle. congruence.
      * intro H. inversion H; subst. assumption.
Qed.

(** X17: the detector's exclusion zones are the ones [create_exclusion_zones]
    builds for the monitor, and [find_contours] is [filter_detections_by_area]
    (with the configured area bounds) followed by the removal of the points
    [is_in_exclusion_zone] accepts; every position it returns is farther from
    the centre of each zone than the radius, and it returns no more
    positions than it was given contours. *)
Theorem find_contours_spec (contours : list Contour) :
  exclusion_zones
  = create_exclusion_zones config.MONITOR_width config.MONITOR_height /\
  find_contours contours
  = filter (fun p => negb (is_in_exclusion_zone (fst p) (snd p)
                             (create_exclusion_zones config.MONITOR_width
                                config.MONITOR_height)))
           (filter_detections_by_area contours MINION_MIN_AREA MINION_MAX_AREA) /\
  Forall (fun p => clear_of_zones p exclusion_zones) (find_contours contours) /\
  (length (find_contours contours) <= length contours)%nat.
Proof.
  assert (Hzones : exclusion_zones
                   = create_exclusion_zones config.MONITOR_width
                       config.MONITOR_height) by reflexivity.
  split; [exact Hzones |]. rewrite <- Hzones.
  induction contours as [| contour rest (IHeq & IHclear & IHlen)].
  - simpl. split; [reflexivity | split; [constructor | lia]].
  - cbn [find_contours filter_detections_by_area]. cbv zeta.
    destruct (Qltb MINION_MIN_AREA (contourArea contour)
              && Qltb (contourArea contour) MINION_MAX_AREA).
    + destruct (fst (minEnclosingCircle contour)) as [x y].
      cbn [filter fst snd]. unfold _is_in_exclusion_zone.
      rewrite in_zones_utils.
      destruct (is_in_exclusion_zone x y exclusion_zones) eqn:E; cbn [negb].
      * split; [exact IHeq | split; [exact IHclear | simpl; lia]].
      * split; [rewrite IHeq; reflexivity |].
        split; [| simpl; lia].
        constructor; [| exact IHclear].
        apply is_in_exclusion_zone_clear. exact E.
    + split; [exact IHeq | split; [exact IHclear | simpl; lia]].
Qed.

End ContourFacts.

(** ** The detector's statistics and helper functions *)

Section HelperFacts.

Context {backend : Backend}.

Lemma filter_length_implies {A : Type} (f g : A -> bool) (l : list A) :
  (forall x, f x = true -> g x = true) ->
  (length (filter f l) <= length (filter g l))%nat.
Proof.
  intro Himp. induction l as [| x l IH]; simpl; [lia |].
  destruct (f x) eqn:Ef.
  - rewrite (Himp x Ef). simpl. lia.
  - destruct (g x); simpl; lia.
Qed.

Lemma likely_enemy_valid (m : Minion) :
  likely_enemy m = true -> is_valid_minion m = true.
Proof.
  unfold likely_enemy, get_strategy_info.
  destruct (is_valid_minion m); [reflexivity | discriminate].
Qed.

(** X18: [get_detection_stats] leaves the detector as it is, and its counts
    are consistent: 0 <= enemy <= active <= total, the inactive count is what
    is left of the total and is not negative, and [next_id] is the counter. *)
Theorem detection_stats_consistent (self : MinionDetector) :
  let '(stats, self') := get_detection_stats self in
  self' = self /\
  (0 <= DetectionStats.enemy_minions stats
     <= DetectionStats.active_minions stats)%Z /\
  (DetectionStats.active_minions stats
     <= DetectionStats.total_minions stats)%Z /\
  (0 <= DetectionStats.inactive_minions stats)%Z /\
  (DetectionStats.active_minions stats + DetectionStats.inactive_minions stats
   = DetectionStats.total_minions stats)%Z /\
  DetectionStats.total_minions stats = Z.of_nat (length (minions self)) /\
  DetectionStats.next_id stats = next_minion_id self.
Proof.
  unfold get_detection_stats, get_enemy_minions, get_active_minions.
  cbn [DetectionStats.enemy_minions DetectionStats.active_minions
       DetectionStats.total_minions DetectionStats.inactive_minions
       DetectionStats.next_id].
  set (valid := filter _ (minions self)).
  set (enemy := filter _ (map snd valid)).
  assert (H1 : (length enemy <= length (map snd valid))%nat)
    by apply filter_length_le.
  assert (H2 : (length valid <= length (minions self))%nat)
    by apply filter_length_le.
  rewrite length_map in *.
  split; [reflexivity |]. lia.
Qed.

Lemma py_index_last_rev {A : Type} (l : list A) :
  l <> [] ->
  exists x rest, rev l = x :: rest /\ py_index l (-1) = Ok x.
Proof.
  intro Hl. destruct (exists_last Hl) as (l' & x & ->).
  exists x, (rev l'). split; [apply rev_unit | apply py_index_last].
Qed.

Lemma py_index_error {A : Type} (l : list A) (i : Z) (e : PyErr) :
  py_index l i = Raise e -> e = IndexError.
Proof.
  unfold py_index. destruct (_ && _); [| congruence].
  destruct (nth_error l _); congruence.
Qed.

Lemma sum_lifetimes_returns (minions : list Minion) :
  forall total,
    Forall (fun m => timestamps m <> []) minions ->
    exists total', sum_lifetimes minions total = Ok total'.
Proof.
  induction minions as [| m rest IH]; intros total Hall; simpl.
  - eauto.
  - inversion Hall as [| ? ? Hm Hrest]; subst.
    destruct (py_index_nonempty _ Hm) as [t ->]. cbn [bind]. apply IH, Hrest.
Qed.

Lemma sum_lifetimes_raises (minions : list Minion) :
  forall total,
    Exists (fun m => timestamps m = []) minions ->
    sum_lifetimes minions total = Raise IndexError.
Proof.
  induction minions as [| m rest IH]; intros total Hex; simpl.
  - inversion Hex.
  - destruct (py_index (timestamps m) (-1)) as [t | e] eqn:E; cbn [bind].
    + apply IH. inversion Hex as [? ? Hm | ? ? Hrest]; subst; [| exact Hrest].
      rewrite Hm in E. discriminate.
    + rewrite (py_index_error _ _ _ E). reflexivity.
Qed.

(** X19: [analyze_detection_quality] answers all zeros on an empty list; on
    tracks that each have a timestamp it returns without raising, with
    0 <= enemy_ratio <= valid_ratio <= 1; a track without a timestamp makes
    it raise IndexError. *)
Theorem analyze_detection_quality_spec (minions : list Minion) :
  (minions = [] ->
   analyze_detection_quality minions
   = Ok (DetectionQuality.mk 0 0 0 0)) /\
  (minions <> [] ->
   Forall (fun m => timestamps m <> []) minions ->
   exists quality,
     analyze_detection_quality minions = Ok quality /\
     0 <= DetectionQuality.enemy_ratio quality /\
     DetectionQuality.enemy_ratio quality
       <= DetectionQuality.valid_ratio quality /\
     DetectionQuality.valid_ratio quality <= 1) /\
  (Exists (fun m => timestamps m = []) minions ->
   analyze_detection_quality minions = Raise IndexError).
Proof.
  split; [intros ->; reflexivity |]. split.
  - intros Hne Hall. destruct minions as [| m rest]; [congruence |].
    unfold analyze_detection_quality.
    destruct (sum_lifetimes_returns (m :: rest) 0 Hall) as [total ->].
    cbn [bind]. cbv zeta.
    set (n := inject_Z (Z.of_nat (length (m :: rest)))).
    set (valid := inject_Z (Z.of_nat (length (filter is_valid_minion (m :: rest))))).
    set (enemy := inject_Z (Z.of_nat (length (filter likely_enemy (m :: rest))))).
    assert (Hn : 0 < n).
    { subst n. change 0 with (inject_Z 0). rewrite <- Zlt_Qlt. simpl length. lia. }
    assert (Hvalid : valid <= n).
    { subst valid n. rewrite <- Zle_Qle. apply inj_le, filter_length_le. }
    assert (Henemy : enemy <= valid).
    { subst valid enemy. rewrite <- Zle_Qle.
      apply inj_le, filter_length_implies, likely_enemy_valid. }
    assert (Hpos : 0 <= enemy).
    { subst enemy. change 0 with (inject_Z 0). rewrite <- Zle_Qle. lia. }
    exists (DetectionQuality.mk
              (total / n)
              (py_sum (map total_distance_traveled (m :: rest)) / n)
              (valid / n) (enemy / n)).
    split.
    { rewrite !(py_div_pos _ _ Hn). cbn [bind].
      reflexivity. }
    cbn [DetectionQuality.enemy_ratio DetectionQuality.valid_ratio].
    split; [apply Qle_shift_div_l; [exact Hn | lra] |].
    split.
    + apply Qle_shift_div_l; [exact Hn |].
      unfold Qdiv. rewrite <- Qmult_assoc, (Qmult_comm (/ n)), Qmult_inv_r by lra.
      lra.
    + apply Qle_shift_div_r; [exact Hn | lra].
  - intro Hex. destruct minions as [| m rest]; [inversion Hex |].
    unfold analyze_detection_quality.
    rewrite (sum_lifetimes_raises _ 0 Hex). reflexivity.
Qed.

Lemma filter_minions_by_position_filter (minions : list Minion)
  (x_range y_range : option (Q * Q)) :
  filter_minions_by_position minions x_range y_range
  = Ok (filter (in_ranges x_range y_range) minions).
Proof.
  induction minions as [| m rest IH]; [reflexivity |].
  cbn [filter_minions_by_position filter]. unfold in_ranges at 1.
  destruct (positions m) as [| p0 ps] eqn:Epos; [exact IH |].
  assert (Hne : p0 :: ps <> []) by discriminate.
  destruct (py_index_last_rev _ Hne) as ([x y] & tl & -> & ->).
  cbn [bind].
  destruct (outside x_range x); cbn [negb andb]; [exact IH |].
  destruct (outside y_range y); cbn [negb]; [exact IH |].
  rewrite IH. reflexivity.
Qed.

(** X20: [filter_minions_by_position] never raises; it keeps, in order, the
    tracks that have a position and whose last position passes the ranges
    given.  Hence filtering the result again changes nothing, filtering on
    both ranges is filtering on x and then on y, and without a range only
    the tracks without a position are dropped. *)
Theorem filter_minions_by_position_spec (minions : list Minion)
  (x_range y_range : option (Q * Q)) :
  exists filtered,
    filter_minions_by_position minions x_range y_range = Ok filtered /\
    filtered = filter (in_ranges x_range y_range) minions /\
    filter_minions_by_position filtered x_range y_range = Ok filtered /\
    (kept <- filter_minions_by_position minions x_range None ;;
     filter_minions_by_position kept None y_range) = Ok filtered /\
    filter_minions_by_position minions None None
    = Ok (filter (fun m => negb (length (positions m) =? 0)%nat) minions).
Proof.
  exists (filter (in_ranges x_range y_range) minions).
  split; [apply filter_minions_by_position_filter |].
  split; [reflexivity |].
  split; [| split].
  - rewrite filter_minions_by_position_filter. f_equal.
    apply filter_filter_ext. intro m. destruct (in_ranges _ _ m); reflexivity.
  - rewrite filter_minions_by_position_filter. cbn [bind].
    rewrite filter_minions_by_position_filter. f_equal.
    apply filter_filter_ext. intro m. unfold in_ranges.
    destruct (rev (positions m)) as [| [x y] tl]; [reflexivity |].
    cbn [outside negb]. rewrite !andb_true_r, andb_true_l. reflexivity.
  - rewrite filter_minions_by_position_filter. f_equal.
    apply filter_ext. intro m. unfold in_ranges.
    destruct (positions m) as [| p0 ps] eqn:E; [reflexivity |].
    assert (Hne : p0 :: ps <> []) by discriminate.
    destruct (py_index_last_rev _ Hne) as ([x y] & tl & -> & _).
    reflexivity.
Qed.



End HelperFacts.

(** ** The association pass hands out each detection at most once *)

Section AssociationFacts.

Context {backend : Backend}.

Lemma set_in_true (i : Z) (s : list Z) : set_in i s = true <-> In i s.
Proof.
  unfold set_in. rewrite existsb_exists. split.
  - intros (j & Hin & Heq). apply Z.eqb_eq in Heq. subst j. exact Hin.
  - intro Hin. exists i. split; [exact Hin | apply Z.eqb_refl].
Qed.

Lemma associate_loop_choice (tracks : list (Z * Minion)) :
  forall (detected : list Point) (used : list Z) (frame : Frame) (mask : Mask)
         (now : Q) (tracks' : list (Z * Minion)) (used' : list Z),
    associate_loop tracks detected used frame mask now = Ok (tracks', used') ->
    exists choice,
      associated detected frame mask now tracks choice tracks' /\
      NoDup (chosen choice) /\
      (forall i, In i (chosen choice) -> ~ In i used) /\
      used' = rev (chosen choice) ++ used.
Proof.
  induction tracks as [| [k m] rest IH];
    intros detected used frame mask now tracks' used' H.
  - simpl in H. injection H as <- <-. exists [].
    split; [constructor |]. split; [constructor |].
    split; [intros i [] | reflexivity].
  - cbn [associate_loop] in H.
    apply bind_Ok_inv in H. destruct H as ([m1 used1] & E1 & H).
    apply bind_Ok_inv in H. destruct H as ([rest1 used2] & E2 & H).
    injection H as <- <-.
    destruct (IH _ _ _ _ _ _ _ E2) as (choice & Hassoc & Hnd & Hfresh & Hused).
    destruct (active m) eqn:Hact.
    + destruct (associate_minion_inv _ _ _ _ _ _ _ _ Hact E1)
        as (idx & dmin & smax & _ & Hcases).
      destruct Hcases as [(_ & -> & -> & _) | (p & Hcand & Hupd & -> & _)].
      * exists (None :: choice).
        split; [constructor; exact Hassoc |].
        split; [exact Hnd | split; [exact Hfresh | exact Hused]].
      * destruct Hcand as (Hidx & Hnth & Hunused & _).
        assert (Hnot : ~ In idx used).
        { intro Hin. apply set_in_true in Hin. congruence. }
        assert (Hadd : set_add idx used = idx :: used)
          by (unfold set_add; rewrite Hunused; reflexivity).
        rewrite Hadd in *.
        exists (Some idx :: choice).
        split; [econstructor; eassumption |].
        cbn [chosen]. split; [| split].
        -- constructor; [| exact Hnd].
           intro Hin. apply (Hfresh idx Hin). left. reflexivity.
        -- intros i [<- | Hin]; [exact Hnot |].
           intro Hu. apply (Hfresh i Hin). right. exact Hu.
        -- rewrite Hused. simpl. rewrite <- app_assoc. reflexivity.
    + unfold associate_minion in E1. rewrite Hact in E1. cbn [negb] in E1.
      injection E1 as <- <-.
      exists (None :: choice).
      split; [constructor; exact Hassoc |].
      split; [exact Hnd | split; [exact Hfresh | exact Hused]].
Qed.

(** X22: the association pass of a cycle (which starts from an empty set of
    used detections) on a registry of well-formed tracks.  When every track
    carries a histogram and every detection is in view of the frame it
    returns; the only exception it can raise is [cv2.error].  When it
    returns, each track is either left as it is or, if active, updated with
    one detection of the frame; no detection is given to two tracks; and the
    set of used detections it passes on to the spawn pass holds exactly the
    detections handed out. *)
Theorem association_uses_a_detection_once (self : MinionDetector)
  (detected_positions : list Point) (frame : Frame) (mask : Mask)
  (current_time : Q) :
  (forall k minion, In (k, minion) (minions self) -> well_formed minion) ->
  (histograms_ok self -> Forall (in_view frame) detected_positions ->
   exists self' used_detections,
     _associate_detections_to_existing_minions self detected_positions []
       frame mask current_time = Ok (self', used_detections)) /\
  (forall e,
     _associate_detections_to_existing_minions self detected_positions []
       frame mask current_time = Raise e ->
     e = cv2_error) /\
  (forall self' used_detections,
     _associate_detections_to_existing_minions self detected_positions []
       frame mask current_time = Ok (self', used_detections) ->
     exists choice,
       next_minion_id self' = next_minion_id self /\
       associated detected_positions frame mask current_time
         (minions self) choice (minions self') /\
       NoDup (chosen choice) /\
       used_detections = rev (chosen choice)).
Proof.
  intro Hall. unfold _associate_detections_to_existing_minions.
  split; [| split].
  - intros Hh Hview.
    destruct (associate_loop_returns (minions self) detected_positions []
                frame mask current_time Hall Hh Hview)
      as (tracks' & used' & ->).
    cbn [bind]. eauto.
  - intros e H.
    destruct (associate_loop (minions self) detected_positions [] frame mask
                current_time) as [[tracks' used'] | e0] eqn:Hloop;
      cbn [bind] in H; [discriminate |].
    injection H as <-.
    exact (associate_loop_error _ _ _ _ _ _ _ Hall Hloop).
  - intros self' used_detections H.
    apply bind_Ok_inv in H. destruct H as ([tracks' used'] & Hloop & H).
    injection H as <- <-.
    destruct (associate_loop_choice _ _ _ _ _ _ _ _ Hloop)
      as (choice & Hassoc & Hnd & _ & Hused).
    exists choice. split; [reflexivity |].
    split; [exact Hassoc |]. split; [exact Hnd |].
    rewrite Hused. apply app_nil_r.
Qed.

End AssociationFacts.

(** ** strategy.py *)

Section StrategyFacts.

Context {backend : Backend}.

Lemma threat_loop_counts (self : strategy.StrategyAnalyzer)
  (enemy_minions : list Minion) :
  forall (a : ThreatAnalysis.t) (total_x total_y : Q),
    exists a' total_x' total_y',
      strategy.threat_loop self enemy_minions a total_x total_y
      = Ok (a', total_x', total_y') /\
      (ThreatAnalysis.left_threat a' + ThreatAnalysis.right_threat a'
       + ThreatAnalysis.center_threat a'
       = ThreatAnalysis.left_threat a + ThreatAnalysis.right_threat a
         + ThreatAnalysis.center_threat a
         + Z.of_nat (length (strategy.positioned enemy_minions)))%Z /\
      (ThreatAnalysis.left_threat a <= ThreatAnalysis.left_threat a')%Z /\
      (ThreatAnalysis.right_threat a <= ThreatAnalysis.right_threat a')%Z /\
      (ThreatAnalysis.center_threat a <= ThreatAnalysis.center_threat a')%Z /\
      (ThreatAnalysis.top_threat a <= ThreatAnalysis.top_threat a')%Z /\
      (ThreatAnalysis.bottom_threat a <= ThreatAnalysis.bottom_threat a')%Z /\
      (ThreatAnalysis.top_threat a' + ThreatAnalysis.bottom_threat a'
       <= ThreatAnalysis.top_threat a + ThreatAnalysis.bottom_threat a
          + Z.of_nat (length (strategy.positioned enemy_minions)))%Z /\
      ThreatAnalysis.total_enemies a' = ThreatAnalysis.total_enemies a /\
      ThreatAnalysis.average_position a' = ThreatAnalysis.average_position a.
Proof.
  induction enemy_minions as [| m rest IH]; intros a total_x total_y.
  - exists a, total_x, total_y. simpl.
    split; [reflexivity |]. repeat split; lia.
  - cbn [strategy.threat_loop]. cbv zeta.
    unfold strategy.positioned. cbn [filter].
    destruct (positions m) as [| p0 ps] eqn:Epos.
    + cbn [length Nat.eqb negb]. apply IH.
    + assert (Hne : p0 :: ps <> []) by discriminate.
      destruct (py_index_last_rev _ Hne) as ([x y] & tl & _ & ->).
      cbn [bind length Nat.eqb negb].
      match goal with
      | |- context [strategy.threat_loop self rest ?b ?tx ?ty] =>
          destruct (IH b tx ty)
            as (a' & tx' & ty' & Hrun & Hsum & Hl & Hr & Hc & Ht & Hb & Hv
                & Hn & Havg);
          exists a', tx', ty'; split; [exact Hrun |];
          clear Hrun; revert Hsum Hl Hr Hc Ht Hb Hv Hn Havg
      end.
      fold (strategy.positioned rest).
      change (length (m :: strategy.positioned rest))
        with (S (length (strategy.positioned rest))).
      rewrite Nat2Z.inj_succ.
      generalize (Z.of_nat (length (strategy.positioned rest))).
      intro count.
      destruct a as [l r t b c n avg cl].
      destruct (Qltb x _); [| destruct (Qltb _ x)];
        (destruct (Qltb y _); [| destruct (Qltb _ y)]);
        cbn; intros Hsum Hl Hr Hc Ht Hb Hv Hn Havg;
        (split; [lia |]); (split; [lia |]); (split; [lia |]);
        (split; [lia |]); (split; [lia |]); (split; [lia |]);
        (split; [lia |]); (split; [exact Hn | exact Havg]).
Qed.

(** X23: [analyze_threat_distribution] never raises.  It counts every enemy
    in [total_enemies]; each enemy that has a position is counted in exactly
    one of the left, right and centre threats and in at most one of the top
    and bottom threats; and the average position is missing exactly when
    there is no enemy. *)
Theorem threat_distribution_counts (self : strategy.StrategyAnalyzer)
  (enemy_minions : list Minion) :
  exists a,
    strategy.analyze_threat_distribution self enemy_minions = Ok a /\
    ThreatAnalysis.total_enemies a = Z.of_nat (length enemy_minions) /\
    (ThreatAnalysis.left_threat a + ThreatAnalysis.right_threat a
     + ThreatAnalysis.center_threat a
     = Z.of_nat (length (strategy.positioned enemy_minions)))%Z /\
    (0 <= ThreatAnalysis.left_threat a)%Z /\
    (0 <= ThreatAnalysis.right_threat a)%Z /\
    (0 <= ThreatAnalysis.center_threat a)%Z /\
    (0 <= ThreatAnalysis.top_threat a)%Z /\
    (0 <= ThreatAnalysis.bottom_threat a)%Z /\
    (ThreatAnalysis.top_threat a + ThreatAnalysis.bottom_threat a
     <= Z.of_nat (length (strategy.positioned enemy_minions)))%Z /\
    (Z.of_nat (length (strategy.positioned enemy_minions))
     <= ThreatAnalysis.total_enemies a)%Z /\
    (ThreatAnalysis.average_position a = None <-> enemy_minions = []).
Proof.
  destruct enemy_minions as [| m rest].
  - eexists. split; [reflexivity |]. cbn.
    split; [reflexivity |]. split; [reflexivity |].
    repeat (split; [lia |]). split; reflexivity.
  - unfold strategy.analyze_threat_distribution. cbv zeta.
    set (enemies := m :: rest).
    match goal with
    | |- context [strategy.threat_loop self enemies ?a0 0 0] =>
        destruct (threat_loop_counts self enemies a0 0 0)
          as (a' & tx & ty & Hrun & Hsum & Hl & Hr & Hc & Ht & Hb & Hv
              & Hn & _)
    end.
    cbn [ThreatAnalysis.left_threat ThreatAnalysis.right_threat
         ThreatAnalysis.center_threat ThreatAnalysis.top_threat
         ThreatAnalysis.bottom_threat ThreatAnalysis.total_enemies]
      in Hsum, Hl, Hr, Hc, Ht, Hb, Hv, Hn.
    rewrite Hrun. cbn [bind].
    assert (Hlen : 0 < inject_Z (Z.of_nat (length enemies))).
    { change 0 with (inject_Z 0). rewrite <- Zlt_Qlt.
      subst enemies. simpl length. lia. }
    rewrite !(py_div_pos _ _ Hlen). cbn [bind].
    eexists. split; [reflexivity |].
    assert (Hpos : (length (strategy.positioned enemies)
                    <= length enemies)%nat)
      by apply filter_length_le.
    destruct a' as [l r t b c n avg cl].
    cbn in *. subst n.
    split; [reflexivity |]. split; [lia |].
    repeat (split; [lia |]).
    split; [discriminate | subst enemies; discriminate].
Qed.

End StrategyFacts.

(** X24: [_determine_strategy_type] answers 'defensive', 'offensive' or
    'central', whatever the analyzer's state and the analysis, so the
    dispatch on the strategy type always finds one of its three names; and
    [_adaptive_strategy] falls back on 'central' only without an average
    position or after three placements of one non-central strategy. *)
Theorem strategy_type_is_named (self : strategy.StrategyAnalyzer)
  (threat_analysis : ThreatAnalysis.t) :
  strategy.strategy_name
    (strategy._determine_strategy_type self threat_analysis) /\
  strategy.strategy_name (strategy._adaptive_strategy self threat_analysis) /\
  (strategy._adaptive_strategy self threat_analysis = "central"%string ->
   ThreatAnalysis.average_position threat_analysis = None \/
   ((3 <= strategy.consecutive_same_strategy self)%Z /\
    (strategy.current_strategy_type self = Some "defensive"%string \/
     strategy.current_strategy_type self = Some "offensive"%string))).
Proof.
  assert (Hadaptive : strategy.strategy_name
                        (strategy._adaptive_strategy self threat_analysis)).
  { unfold strategy._adaptive_strategy, strategy.strategy_name.
    destruct (_ && _); [auto |].
    destruct (ThreatAnalysis.average_position threat_analysis); [| auto].
    cbv zeta. destruct (String.eqb _ _); destruct (Qltb _ _); auto. }
  split; [| split; [exact Hadaptive |]].
  - unfold strategy._determine_strategy_type. cbv zeta.
    destruct (String.eqb _ _).
    + destruct (_ <=? _)%Z; [left; reflexivity |].
      destruct (_ && _); [right; left; reflexivity |].
      destruct (_ <=? _)%Z; [right; right; reflexivity | exact Hadaptive].
    + destruct (_ <=? _)%Z; [left; reflexivity |].
      destruct (_ && _); [right; left; reflexivity |].
      destruct (_ <=? _)%Z; [right; right; reflexivity | exact Hadaptive].
  - unfold strategy._adaptive_strategy.
    destruct (3 <=? strategy.consecutive_same_strategy self)%Z eqn:E3;
      cbn [andb].
    + destruct (strategy.current_strategy_type self) as [s |] eqn:Es.
      * destruct (String.eqb_spec s "defensive") as [-> | Hd]; cbn [orb].
        -- intros _. right. apply Z.leb_le in E3. auto.
        -- destruct (String.eqb_spec s "offensive") as [-> | Ho].
           ++ intros _. right. apply Z.leb_le in E3. auto.
           ++ destruct (ThreatAnalysis.average_position threat_analysis);
                [| auto].
              cbv zeta. destruct (String.eqb _ _); destruct (Qltb _ _);
                discriminate.
      * destruct (ThreatAnalysis.average_position threat_analysis); [| auto].
        cbv zeta. destruct (String.eqb _ _); destruct (Qltb _ _);
          discriminate.
    + destruct (ThreatAnalysis.average_position threat_analysis); [| auto].
      cbv zeta. destruct (String.eqb _ _); destruct (Qltb _ _); discriminate.
Qed.

Lemma trim_is_slice_last {A : Type} (l : list A) :
  (if (20 <? length l)%nat then slice_last 20 l else l) = slice_last 20 l.
Proof.
  destruct (Nat.ltb_spec 20 (length l)) as [H | H]; [reflexivity |].
  unfold slice_last. replace (length l - 20)%nat with 0%nat by lia. reflexivity.
Qed.

Lemma record_placements_snoc (self : strategy.StrategyAnalyzer)
  (placements : list (string * Q)) (s : string) (t : Q) :
  strategy.record_placements self (placements ++ [(s, t)])
  = strategy._update_strategy_history
      (strategy.record_placements self placements) s t.
Proof.
  unfold strategy.record_placements. rewrite fold_left_app. reflexivity.
Qed.

Lemma run_length_nonneg (s : string) (l : list string) :
  (0 <= strategy.run_length s l)%Z.
Proof.
  induction l as [| x l IH]; cbn [strategy.run_length]; [lia |].
  destruct (String.eqb x s); lia.
Qed.

Lemma record_placements_state (frame_width frame_height : Z)
  (placements : list (string * Q)) :
  let self :=
    strategy.record_placements
      (strategy.StrategyAnalyzer_init frame_width frame_height) placements in
  strategy.strategy_history self = slice_last 20 placements /\
  match rev placements with
  | [] =>
      strategy.current_strategy_type self = None /\
      strategy.consecutive_same_strategy self = 0%Z
  | (s, t) :: _ =>
      strategy.current_strategy_type self = Some s /\
      strategy.last_placement_time self = t /\
      strategy.consecutive_same_strategy self
      = strategy.run_length s (map fst (rev placements))
  end.
Proof.
  cbv zeta. induction placements as [| [s t] placements IH] using rev_ind.
  - simpl. auto.
  - rewrite record_placements_snoc, rev_unit.
    destruct IH as [Hhist Hstate].
    set (prev := strategy.record_placements _ placements) in *.
    unfold strategy._update_strategy_history.
    cbn [strategy.strategy_history strategy.current_strategy_type
         strategy.last_placement_time strategy.consecutive_same_strategy].
    split.
    + rewrite trim_is_slice_last, Hhist.
      apply (deque_append_slice_last 20 placements (s, t)).
    + cbn [map fst strategy.run_length]. rewrite String.eqb_refl.
      destruct (rev placements) as [| [s0 t0] older] eqn:Erev.
      * destruct Hstate as [-> _]. simpl. auto.
      * destruct Hstate as (-> & _ & ->).
        cbn [map fst strategy.run_length].
        destruct (String.eqb_spec s s0) as [-> | Hne].
        -- rewrite String.eqb_refl.
           split; [reflexivity | split; [reflexivity | lia]].
        -- replace (String.eqb s0 s) with false
             by (symmetry; apply String.eqb_neq; congruence).
           split; [reflexivity | split; [reflexivity | lia]].
Qed.

(** X25: after any sequence of placements recorded by
    [_update_strategy_history] on a new analyzer, the history holds the last
    20 placements, in order, and never more than 20 entries; after at least
    one placement the current strategy and the last placement time are those
    of the newest placement, and the consecutive count is the length of the
    run of that strategy at the end of the whole sequence, which is at least
    1 and is not capped by the 20 entries the history keeps. *)
Theorem strategy_history_is_last_twenty (frame_width frame_height : Z)
  (placements : list (string * Q)) :
  let self :=
    strategy.record_placements
      (strategy.StrategyAnalyzer_init frame_width frame_height) placements in
  strategy.strategy_history self = slice_last 20 placements /\
  (length (strategy.strategy_history self) <= 20)%nat /\
  (forall s t older,
     rev placements = (s, t) :: older ->
     strategy.current_strategy_type self = Some s /\
     strategy.last_placement_time self = t /\
     strategy.consecutive_same_strategy self
     = strategy.run_length s (map fst (rev placements)) /\
     (1 <= strategy.consecutive_same_strategy self)%Z).
Proof.
  cbv zeta.
  destruct (record_placements_state frame_width frame_height placements)
    as [Hhist Hstate].
  split; [exact Hhist |].
  split; [rewrite Hhist, length_slice_last; lia |].
  intros s t older Hrev. rewrite Hrev in Hstate.
  destruct Hstate as (Hcur & Htime & Hrun).
  split; [exact Hcur |]. split; [exact Htime |].
  split; [rewrite Hrev; exact Hrun |].
  rewrite Hrun. cbn [map fst strategy.run_length].
  rewrite String.eqb_refl.
  pose proof (run_length_nonneg s (map fst older)). lia.
Qed.

(** ** utils.py: the error cases *)

Lemma smooth_loop_empty_window (positions : list Point) (half_window : Z)
  (indices : list nat) (i : nat) :
  In i indices ->
  length (py_slice positions
            (Z.max 0 (Z.of_nat i - half_window))
            (Z.min (Z.of_nat (length positions))
                   (Z.of_nat i + half_window + 1))) = 0%nat ->
  smooth_loop positions half_window indices = Raise ZeroDivisionError.
Proof.
  intros Hin Hempty. induction indices as [| j rest IH]; [destruct Hin |].
  cbn [smooth_loop]. cbv zeta.
  set (window := py_slice positions (Z.max 0 (Z.of_nat j - half_window))
                   (Z.min (Z.of_nat (length positions))
                          (Z.of_nat j + half_window + 1))).
  unfold py_div at 1.
  destruct (Qeq_bool (inject_Z (Z.of_nat (length window))) 0) eqn:Esize;
    [reflexivity |].
  cbn [bind]. unfold py_div at 1. rewrite Esize. cbn [bind].
  destruct Hin as [-> | Hin].
  - subst window. rewrite Hempty in Esize. discriminate.
  - rewrite (IH Hin). reflexivity.
Qed.

(** X26: with a negative window size [smooth_positions] raises
    ZeroDivisionError on every non-empty list (some window of the moving
    average is empty), while an empty list is returned as it is for
    every window size. *)
Theorem smooth_positions_negative_window
  (positions : list Point) (window_size : Z) :
  (window_size < 0)%Z ->
  smooth_positions [] window_size = Ok [] /\
  (positions <> [] ->
   smooth_positions positions window_size = Raise ZeroDivisionError).
Proof.
  intro Hneg. split.
  - unfold smooth_positions. simpl length.
    replace (Z.of_nat 0 <? window_size)%Z with false
      by (symmetry; apply Z.ltb_ge; simpl; lia).
    reflexivity.
  - intro Hne. unfold smooth_positions.
    replace (Z.of_nat (length positions) <? window_size)%Z with false
      by (symmetry; apply Z.ltb_ge; lia).
    set (h := (window_size / 2)%Z).
    assert (Hh : (h <= -1)%Z).
    { subst h. apply Z.lt_succ_r. apply Z.div_lt_upper_bound; lia. }
    assert (Hn : (0 < length positions)%nat)
      by (destruct positions; [congruence | simpl; lia]).
    set (i := if (Z.of_nat (length positions) + h + 1 <=? 0)%Z
              then 0%nat else Z.to_nat (- h - 1)).
    apply (smooth_loop_empty_window positions h _ i).
    + apply in_seq. subst i.
      destruct (Z.leb_spec (Z.of_nat (length positions) + h + 1) 0); lia.
    + unfold py_slice. rewrite length_firstn, length_skipn. subst i.
      destruct (Z.leb_spec (Z.of_nat (length positions) + h + 1) 0) as [Hle | Hgt].
      * change (Z.of_nat 0) with 0%Z.
        destruct (Z.ltb_spec (Z.max 0 (0 - h)) 0);
          destruct (Z.ltb_spec
                      (Z.min (Z.of_nat (length positions)) (0 + h + 1)) 0);
          lia.
      * rewrite Z2Nat.id by lia.
        destruct (Z.ltb_spec (Z.max 0 (- h - 1 - h)) 0);
          destruct (Z.ltb_spec
                      (Z.min (Z.of_nat (length positions)) (- h - 1 + h + 1))
                      0);
          lia.
Qed.

Lemma fdiv_Ok (x : Q) (z : Z) :
  z <> 0%Z -> fdiv x (inject_Z z) = Ok (double (x / inject_Z z)).
Proof.
  intro Hz. unfold fdiv.
  destruct (Qeq_bool (inject_Z z) 0) eqn:E; [| reflexivity].
  apply Qeq_bool_iff in E. unfold Qeq in E. simpl in E. lia.
Qed.

Lemma pixels_to_ratio_length (pixel_list : list (Z * Z))
  (frame_width frame_height : Z) :
  frame_width <> 0%Z -> frame_height <> 0%Z ->
  exists ratios,
    pixels_to_ratio pixel_list frame_width frame_height = Ok ratios /\
    length ratios = length pixel_list.
Proof.
  intros Hw Hh.
  induction pixel_list as [| [x y] rest (ratios & IH & Hlen)]; simpl.
  - exists []. auto.
  - rewrite (fdiv_Ok _ _ Hw), (fdiv_Ok _ _ Hh). cbn [bind].
    rewrite IH. cbn [bind]. eexists. split; [reflexivity |].
    simpl. rewrite Hlen. reflexivity.
Qed.

(** X27: [pixels_to_ratio] returns one ratio per pixel when neither frame
    dimension is 0; when one of them is 0 it raises ZeroDivisionError on
    every non-empty list, and still returns the empty list for an empty
    one. *)
Theorem pixels_to_ratio_zero_frame (pixel_list : list (Z * Z))
  (frame_width frame_height : Z) :
  (frame_width <> 0%Z -> frame_height <> 0%Z ->
   exists ratios,
     pixels_to_ratio pixel_list frame_width frame_height = Ok ratios /\
     length ratios = length pixel_list) /\
  (frame_width = 0%Z \/ frame_height = 0%Z ->
   pixels_to_ratio pixel_list frame_width frame_height
   = match pixel_list with
     | [] => Ok []
     | _ :: _ => Raise ZeroDivisionError
     end).
Proof.
  split; [apply pixels_to_ratio_length |].
  intro Hzero. destruct pixel_list as [| [x y] rest]; [reflexivity |].
  cbn [pixels_to_ratio].
  destruct (Z.eq_dec frame_width 0) as [-> | Hw]; [reflexivity |].
  destruct Hzero as [Hw0 | ->]; [contradiction |].
  rewrite (fdiv_Ok _ _ Hw). reflexivity.
Qed.

(** ** The properties at work on concrete scenes *)

(** X1 on the advancing track and its four further samples. *)
Lemma identity_fields_are_constant_witness :
  apply_ops Scene.advancing Scene.advance = Ok Scene.classified /\
  id Scene.classified = id Scene.advancing /\
  creation_time Scene.classified = creation_time Scene.advancing /\
  spawn_side Scene.classified = spawn_side Scene.advancing /\
  frame_width Scene.classified = frame_width Scene.advancing /\
  frame_height Scene.classified = frame_height Scene.advancing.
Proof.
  assert (E : apply_ops Scene.advancing Scene.advance = Ok Scene.classified)
    by (vm_compute; reflexivity).
  split; [exact E |].
  exact (identity_fields_are_constant _ _ _ E).
Defined.

(** X2 on a track that covered 500 pixels in one second and then slowed
    down to 10 px/s. *)
Lemma speed_glitch_invalidates_for_good_witness :
  200 <= max_speed Cases.sprinter /\
  apply_ops Cases.sprinter (Cases.slowed ++ [Validate 4])
  = Ok Cases.validated_sprinter /\
  max_speed Cases.sprinter <= max_speed Cases.validated_sprinter /\
  is_valid_minion Cases.validated_sprinter = false.
Proof.
  assert (H : 200 <= max_speed Cases.sprinter)
    by (apply Qle_bool_iff; vm_compute; reflexivity).
  assert (E : apply_ops Cases.sprinter (Cases.slowed ++ [Validate 4])
              = Ok Cases.validated_sprinter) by (vm_compute; reflexivity).
  split; [exact H |]. split; [exact E |].
  exact (speed_glitch_invalidates_for_good _ _ _ _ H E).
Defined.

(** X3 on the advancing track when it holds three samples, 40 pixels to the
    right of its first position. *)
Lemma derived_fields_wait_for_five_samples_witness :
  apply_ops Scene.advancing (firstn 2 Scene.advance) = Ok Cases.three_samples /\
  (length (positions Cases.three_samples) < 5)%nat /\
  general_direction Cases.three_samples = "unknown"%string /\
  original_classification Cases.three_samples = None /\
  velocity Cases.three_samples = (0, 0).
Proof.
  assert (E : apply_ops Scene.advancing (firstn 2 Scene.advance)
              = Ok Cases.three_samples) by (vm_compute; reflexivity).
  assert (L : (length (positions Cases.three_samples) < 5)%nat)
    by (vm_compute; repeat constructor).
  split; [exact E |]. split; [exact L |].
  destruct (derived_fields_wait_for_five_samples
              1 (500, 500) (Scene.uniform 1) tt 1920 1080 0 _ _ E L)
    as (_ & Hd & _ & Hc & _ & Hv & _).
  split; [exact Hd | split; [exact Hc | exact Hv]].
Defined.

(** X4 on the advancing track: classified after its fifth sample, it keeps
    a known direction through its retreat. *)
Lemma classified_exactly_when_direction_known_witness :
  apply_ops Scene.advancing Scene.advance = Ok Scene.classified /\
  apply_ops Scene.classified Scene.retreat = Ok Scene.retreated /\
  direction_value (general_direction Scene.classified) /\
  (original_classification Scene.classified = None <->
   general_direction Scene.classified = "unknown"%string) /\
  (general_direction Scene.classified <> "unknown"%string ->
   general_direction Scene.retreated <> "unknown"%string).
Proof.
  assert (E1 : apply_ops Scene.advancing Scene.advance = Ok Scene.classified)
    by (vm_compute; reflexivity).
  assert (E2 : apply_ops Scene.classified Scene.retreat = Ok Scene.retreated)
    by (vm_compute; reflexivity).
  split; [exact E1 |]. split; [exact E2 |].
  exact (classified_exactly_when_direction_known
           1 (500, 500) (Scene.uniform 1) tt 1920 1080 0 _ _ _ _ E1 E2).
Defined.

(** X5 on the fifth sample of the advancing track, which classifies it. *)
Lemma classification_records_first_direction_witness :
  classified_iff_directed Cases.four_samples /\
  update_position Cases.four_samples (600, 500) (Scene.uniform 1) tt 4
  = Ok Scene.classified /\
  original_classification Cases.four_samples = None /\
  original_classification Scene.classified = Some true /\
  general_direction Scene.classified <> "unknown"%string /\
  true = String.eqb (general_direction Scene.classified) "right".
Proof.
  assert (Hd : general_direction Cases.four_samples = "unknown"%string)
    by (vm_compute; reflexivity).
  assert (Hn : original_classification Cases.four_samples = None)
    by (vm_compute; reflexivity).
  assert (Hok : classified_iff_directed Cases.four_samples).
  { split; [left; exact Hd | split; intros _; [exact Hd | exact Hn]]. }
  assert (E : update_position Cases.four_samples (600, 500) (Scene.uniform 1)
                tt 4 = Ok Scene.classified) by (vm_compute; reflexivity).
  assert (Hc : original_classification Scene.classified = Some true)
    by (vm_compute; reflexivity).
  split; [exact Hok |]. split; [exact E |]. split; [exact Hn |].
  split; [exact Hc |].
  exact (classification_records_first_direction _ _ _ _ _ _ _ Hok E Hn Hc).
Defined.

(** X6 on the advancing track after its fifth sample. *)
Lemma predictions_stay_in_frame_witness :
  (0 <= 1920)%Z /\ (0 <= 1080)%Z /\
  apply_ops Scene.advancing Scene.advance = Ok Scene.classified /\
  predictions_in_frame Scene.classified /\
  ((length (positions Scene.classified) < 5)%nat ->
   predicted_positions Scene.classified = []).
Proof.
  assert (Hw : (0 <= 1920)%Z) by lia.
  assert (Hh : (0 <= 1080)%Z) by lia.
  assert (E : apply_ops Scene.advancing Scene.advance = Ok Scene.classified)
    by (vm_compute; reflexivity).
  split; [exact Hw |]. split; [exact Hh |]. split; [exact E |].
  exact (predictions_stay_in_frame
           1 (500, 500) (Scene.uniform 1) tt 1920 1080 0 _ _ Hw Hh E).
Defined.

(** X7 on a track of one sample, asked about a later time. *)
Lemma predicted_position_query_witness :
  py_index (positions Scene.advancing) (-1) = Ok (500, 500) /\
  predicted_positions Scene.advancing = [] /\
  get_predicted_position_at_time Scene.advancing 3 = Ok (Some (500, 500)).
Proof.
  assert (Hp : py_index (positions Scene.advancing) (-1) = Ok (500, 500))
    by (vm_compute; reflexivity).
  assert (He : predicted_positions Scene.advancing = [])
    by (vm_compute; reflexivity).
  split; [exact Hp |]. split; [exact He |].
  exact (proj1 predicted_position_query Scene.advancing 3 (500, 500) Hp He).
Defined.

Lemma Cases_pair_registry_ok : registry_ok Cases.pair.
Proof.
  split; [| split].
  - intros k minion [Hin | [Hin | []]]; injection Hin as <- <-.
    + split; [exact Scene_track_a_well_formed | reflexivity].
    + split; [exact Scene_track_b_well_formed | reflexivity].
  - repeat constructor.
  - intros k minion [Hin | [Hin | []]]; injection Hin as <- _; reflexivity.
Qed.

Lemma Cases_pair_histograms_ok : histograms_ok Cases.pair.
Proof.
  intros k minion [Hin | [Hin | []]]; injection Hin as _ <-;
    unfold has_histogram; vm_compute; discriminate.
Qed.

Lemma Cases_three_detections_in_view :
  Forall (in_view Scene.two_tone) Cases.three_detections.
Proof.
  repeat constructor.
Qed.

(** C3 on the registry of two tracks: a cycle with three detections, of
    which one goes to a track and two are spawned as tracks 3 and 4; then a
    crowd twelve seconds later, when every track is evicted and none is
    spawned; then one detection, which gets identifier 5. *)
Lemma spawn_pass_and_identifiers_witness :
  registry_ok Cases.pair /\
  (config.MASS_SPAWN_THRESHOLD < length Scene.crowd)%nat /\
  _create_new_minions Cases.pair Scene.crowd [] Scene.two_tone tt 13
  = Cases.pair /\
  update_minion_tracking Cases.pair Cases.three_detections Scene.two_tone tt 1
  = Ok Cases.after_three /\
  map fst (minions Cases.after_three) = [1; 2; 3; 4]%Z /\
  next_minion_id Cases.after_three = 5%Z /\
  run_cycles Cases.pair Cases.three_cycles = Ok Cases.after_cycles /\
  map fst (minions Cases.after_cycles) = [5%Z] /\
  next_minion_id Cases.after_cycles = 6%Z /\
  registry_ok Cases.after_cycles /\
  (next_minion_id Cases.pair <= next_minion_id Cases.after_cycles)%Z /\
  forall k minion,
    In (k, minion) (minions Cases.after_cycles) ->
    In k (map fst (minions Cases.pair)) \/
    (next_minion_id Cases.pair <= k < next_minion_id Cases.after_cycles)%Z.
Proof.
  destruct (spawn_pass_and_identifiers (backend := Scene.backend))
    as (Hmass & _ & _ & _ & _ & _ & Hrun).
  assert (Hcrowd : (config.MASS_SPAWN_THRESHOLD < length Scene.crowd)%nat)
    by (vm_compute; lia).
  assert (E1 : update_minion_tracking Cases.pair Cases.three_detections
                 Scene.two_tone tt 1 = Ok Cases.after_three)
    by (vm_compute; reflexivity).
  assert (E3 : run_cycles Cases.pair Cases.three_cycles = Ok Cases.after_cycles)
    by (vm_compute; reflexivity).
  split; [exact Cases_pair_registry_ok |]. split; [exact Hcrowd |].
  split; [exact (Hmass Cases.pair Scene.crowd [] Scene.two_tone tt 13 Hcrowd) |].
  split; [exact E1 |].
  split; [vm_compute; reflexivity |]. split; [vm_compute; reflexivity |].
  split; [exact E3 |].
  split; [vm_compute; reflexivity |]. split; [vm_compute; reflexivity |].
  exact (Hrun Cases.pair Cases.after_cycles Cases.three_cycles
           Cases_pair_registry_ok E3).
Defined.

(** X8 on the registry of two tracks: a cycle with three detections in view
    returns; a cycle with a detection off the screen raises [cv2.error]. *)
Lemma tracking_cycle_raises_only_cv2_error_witness :
  registry_ok Cases.pair /\ histograms_ok Cases.pair /\
  Forall (in_view Scene.two_tone) Cases.three_detections /\
  (exists self',
     update_minion_tracking Cases.pair Cases.three_detections
       Scene.two_tone tt 1 = Ok self' /\
     registry_ok self' /\ histograms_ok self') /\
  update_minion_tracking Cases.pair [Scene.off_screen] Scene.two_tone tt 1
  = Raise cv2_error.
Proof.
  split; [exact Cases_pair_registry_ok |].
  split; [exact Cases_pair_histograms_ok |].
  split; [exact Cases_three_detections_in_view |].
  split.
  - exact (proj1 (proj2 tracking_cycle_raises_only_cv2_error)
             Cases.pair Cases.three_detections Scene.two_tone tt 1
             Cases_pair_registry_ok Cases_pair_histograms_ok
             Cases_three_detections_in_view).
  - vm_compute. reflexivity.
Defined.


(** X10 on the examples of the function's documentation. *)
Lemma clamp_spec_witness :
  0 <= 10 /\ 10 < 15 /\ clamp 15 0 10 == 10 /\ clamp (-5) 0 10 = 0.
Proof.
  assert (Hb : 0 <= 10) by (apply Qle_bool_iff; reflexivity).
  assert (Hv : 10 < 15) by reflexivity.
  assert (Hl : -5 <= 0) by (apply Qle_bool_iff; reflexivity).
  split; [exact Hb |]. split; [exact Hv |].
  split.
  - exact (proj2 (proj2 (proj2 (proj1 (clamp_spec 15 0 10) Hb))) Hv).
  - exact (proj1 (proj2 (proj2 (proj1 (clamp_spec (-5) 0 10) Hb))) Hl).
Defined.

(** X11 on a point outside the monitor. *)
Lemma clamp_position_lands_in_frame_witness :
  (1 <= 1920)%Z /\ (1 <= 1080)%Z /\
  point_in_rect (clamp_position (2000, -5) 1920 1080)
    (0, 0, inject_Z (1920 - 1), inject_Z (1080 - 1)) = true.
Proof.
  assert (Hw : (1 <= 1920)%Z) by lia.
  assert (Hh : (1 <= 1080)%Z) by lia.
  split; [exact Hw |]. split; [exact Hh |].
  exact (clamp_position_lands_in_frame (2000, -5) 1920 1080 Hw Hh).
Defined.

(** X12 with a ratio above 1. *)
Lemma interpolate_position_spec_witness :
  1 <= 2 /\
  interpolate_position (0, 0) (10, 20) 2 = (10, 20) /\
  Qabs (fst (interpolate_position (0, 0) (10, 20) 2) - 10)
  <= float_tolerance * (Qabs 0 + Qabs 10) /\
  Qabs (snd (interpolate_position (0, 0) (10, 20) 2) - 20)
  <= float_tolerance * (Qabs 0 + Qabs 20).
Proof.
  assert (H : 1 <= 2) by (apply Qle_bool_iff; reflexivity).
  split; [exact H |]. split; [vm_compute; reflexivity |].
  exact (proj1 (proj2 (interpolate_position_spec (0, 0) (10, 20) 2)) H).
Defined.

(** X13 on histories of different lengths. *)
Lemma calculate_movement_vector_returns_witness :
  (0 <= 5)%Z /\
  exists v,
    calculate_movement_vector [(0, 0); (10, 0); (20, 0)] [0; 1] 5 = Ok v /\
    ((length [(0, 0); (10, 0); (20, 0)] < 2)%nat \/ (length [0; 1] < 2)%nat ->
     v = (0, 0)).
Proof.
  assert (H : (0 <= 5)%Z) by lia.
  split; [exact H |].
  exact (calculate_movement_vector_returns
           [(0, 0); (10, 0); (20, 0)] [0; 1] 5 H).
Defined.

(** X14 on three positions and the default window. *)
Lemma smooth_positions_returns_witness :
  (0 <= 3)%Z /\
  exists out,
    smooth_positions [(0, 0); (3, 0); (6, 3)] 3 = Ok out /\
    length out = length [(0, 0); (3, 0); (6, 3)] /\
    ((Z.of_nat (length [(0, 0); (3, 0); (6, 3)]) < 3)%Z ->
     out = [(0, 0); (3, 0); (6, 3)]).
Proof.
  assert (H : (0 <= 3)%Z) by lia.
  split; [exact H |].
  exact (smooth_positions_returns [(0, 0); (3, 0); (6, 3)] 3 H).
Defined.

(** X15 with the square root of [Scene]. *)
Lemma calculate_speed_spec_witness :
  (forall a b, 0 <= @hypot Scene.backend a b) /\
  exists speed,
    @calculate_speed Scene.backend (0, 0) (3, 4) 0 2 = Ok speed /\
    0 <= speed /\
    (2 <= 0 -> speed = 0) /\
    (0 < 2 ->
     speed = @distance_2d Scene.backend (0, 0) (3, 4) / (2 - 0)).
Proof.
  split; [exact Scene_hypot_nonneg |].
  exact (calculate_speed_spec (0, 0) (3, 4) 0 2 Scene_hypot_nonneg).
Defined.

(** X16 on the defensive positions of the configuration. *)
Lemma ratio_to_pixels_in_frame_witness :
  (0 <= 1920 < 2 ^ 53)%Z /\ (0 <= 1080 < 2 ^ 53)%Z /\
  Forall (fun r => (0 <= fst r /\ fst r <= 1) /\ (0 <= snd r /\ snd r <= 1))
    config.DEFENSIVE_POSITIONS_RATIOS /\
  ratio_to_pixels config.DEFENSIVE_POSITIONS_RATIOS 1920 1080
  = [(196, 444); (274, 186)]%Z /\
  Forall2 (fun r px =>
             (0 <= fst px <= 1920)%Z /\
             (0 <= snd px <= 1080)%Z /\
             (fst r == 1 -> fst px = 1920%Z) /\
             (snd r == 1 -> snd px = 1080%Z))
    config.DEFENSIVE_POSITIONS_RATIOS
    (ratio_to_pixels config.DEFENSIVE_POSITIONS_RATIOS 1920 1080).
Proof.
  assert (Hw : (0 <= 1920 < 2 ^ 53)%Z) by (split; [lia | reflexivity]).
  assert (Hh : (0 <= 1080 < 2 ^ 53)%Z) by (split; [lia | reflexivity]).
  assert (Hr : Forall (fun r => (0 <= fst r /\ fst r <= 1)
                                /\ (0 <= snd r /\ snd r <= 1))
                 config.DEFENSIVE_POSITIONS_RATIOS).
  { repeat constructor; apply Qle_bool_iff; vm_compute; reflexivity. }
  split; [exact Hw |]. split; [exact Hh |]. split; [exact Hr |].
  split; [vm_compute; reflexivity |].
  exact (ratio_to_pixels_in_frame _ 1920 1080 Hw Hh Hr).
Defined.

(** X19 on one track. *)
Lemma analyze_detection_quality_spec_witness :
  [Scene.advancing] <> [] /\
  Forall (fun m => timestamps m <> []) [Scene.advancing] /\
  exists quality,
    analyze_detection_quality [Scene.advancing] = Ok quality /\
    0 <= DetectionQuality.enemy_ratio quality /\
    DetectionQuality.enemy_ratio quality
      <= DetectionQuality.valid_ratio quality /\
    DetectionQuality.valid_ratio quality <= 1.
Proof.
  assert (Hne : [Scene.advancing] <> []) by discriminate.
  assert (Hts : Forall (fun m => timestamps m <> []) [Scene.advancing])
    by (repeat constructor; discriminate).
  split; [exact Hne |]. split; [exact Hts |].
  exact (proj1 (proj2 (analyze_detection_quality_spec [Scene.advancing]))
           Hne Hts).
Defined.


(** X22 on two tracks and the detection halfway between them. *)
Lemma association_uses_a_detection_once_witness :
  (forall k minion, In (k, minion) (minions Cases.pair) -> well_formed minion) /\
  histograms_ok Cases.pair /\
  Forall (in_view Scene.two_tone) [Scene.halfway] /\
  exists self' used_detections choice,
    _associate_detections_to_existing_minions Cases.pair [Scene.halfway] []
      Scene.two_tone tt 1 = Ok (self', used_detections) /\
    next_minion_id self' = next_minion_id Cases.pair /\
    associated [Scene.halfway] Scene.two_tone tt 1
      (minions Cases.pair) choice (minions self') /\
    NoDup (chosen choice) /\
    used_detections = rev (chosen choice).
Proof.
  assert (Hwf : forall k minion,
            In (k, minion) (minions Cases.pair) -> well_formed minion).
  { intros k minion [Hin | [Hin | []]]; injection Hin as _ <-;
      [exact Scene_track_a_well_formed | exact Scene_track_b_well_formed]. }
  assert (Hview : Forall (in_view Scene.two_tone) [Scene.halfway])
    by (repeat constructor).
  split; [exact Hwf |]. split; [exact Cases_pair_histograms_ok |].
  split; [exact Hview |].
  destruct (association_uses_a_detection_once Cases.pair [Scene.halfway]
              Scene.two_tone tt 1 Hwf) as (Hreturns & _ & Hdescribes).
  destruct (Hreturns Cases_pair_histograms_ok Hview) as (self' & used & E).
  destruct (Hdescribes self' used E) as (choice & Hn & Hassoc & Hnd & Hused).
  exists self', used, choice. auto.
Defined.

(** X23 on one enemy: there is an average position. *)
Lemma threat_distribution_counts_witness :
  exists a,
    strategy.analyze_threat_distribution Cases.analyzer [Scene.retreated]
    = Ok a /\
    ThreatAnalysis.total_enemies a = 1%Z /\
    ThreatAnalysis.average_position a <> None.
Proof.
  destruct (threat_distribution_counts Cases.analyzer [Scene.retreated])
    as (a & Hrun & Htotal & _ & _ & _ & _ & _ & _ & _ & _ & Havg).
  exists a. split; [exact Hrun |]. split; [exact Htotal |].
  intro Hnone. apply Havg in Hnone. discriminate.
Defined.

(** X24 on a new analyzer and an analysis without enemies. *)
Lemma strategy_type_is_named_witness :
  strategy._adaptive_strategy Cases.analyzer Cases.no_threat = "central"%string /\
  (ThreatAnalysis.average_position Cases.no_threat = None \/
   ((3 <= strategy.consecutive_same_strategy Cases.analyzer)%Z /\
    (strategy.current_strategy_type Cases.analyzer = Some "defensive"%string \/
     strategy.current_strategy_type Cases.analyzer = Some "offensive"%string))).
Proof.
  assert (H : strategy._adaptive_strategy Cases.analyzer Cases.no_threat
              = "central"%string) by reflexivity.
  split; [exact H |].
  exact (proj2 (proj2 (strategy_type_is_named Cases.analyzer Cases.no_threat)) H).
Defined.

(** X25 on three placements, the last two central. *)
Lemma strategy_history_is_last_twenty_witness :
  rev Cases.placements
  = [("central"%string, 3); ("central"%string, 2); ("defensive"%string, 1)] /\
  strategy.current_strategy_type
    (strategy.record_placements (strategy.StrategyAnalyzer_init 1920 1080)
       Cases.placements) = Some "central"%string /\
  (1 <= strategy.consecutive_same_strategy
          (strategy.record_placements (strategy.StrategyAnalyzer_init 1920 1080)
             Cases.placements))%Z.
Proof.
  assert (H : rev Cases.placements
              = [("central"%string, 3); ("central"%string, 2);
                 ("defensive"%string, 1)]) by reflexivity.
  split; [exact H |].
  destruct (proj2 (proj2 (strategy_history_is_last_twenty 1920 1080
                            Cases.placements)) _ _ _ H)
    as (Hc & _ & _ & Hone).
  split; [exact Hc | exact Hone].
Defined.

(** X26 on one position and a window of -1. *)
Lemma smooth_positions_negative_window_witness :
  (-1 < 0)%Z /\ [(0, 0)] <> ([] : list Point) /\
  smooth_positions [(0, 0)] (-1) = Raise ZeroDivisionError.
Proof.
  assert (Hn : (-1 < 0)%Z) by lia.
  assert (Hne : [(0, 0)] <> ([] : list Point)) by discriminate.
  split; [exact Hn |]. split; [exact Hne |].
  exact (proj2 (smooth_positions_negative_window [(0, 0)] (-1) Hn) Hne).
Defined.

(** X27 on a frame of width 0. *)
Lemma pixels_to_ratio_zero_frame_witness :
  (0 = 0 \/ 1080 = 0)%Z /\
  pixels_to_ratio [(960, 540)%Z] 0 1080 = Raise ZeroDivisionError.
Proof.
  assert (H : (0 = 0 \/ 1080 = 0)%Z) by (left; reflexivity).
  split; [exact H |].
  exact (proj2 (pixels_to_ratio_zero_frame [(960, 540)%Z] 0 1080) H).
Defined.
